(** * VRP scenario builder ([vrp_ui.py]): a shallow embedding and its properties

    The Python module holds two classes, [VRPNode] and [VRPApp].  The model
    keeps the application state as a record, threads it through every
    handler, and returns the dialogs a handler opens next to the new state.
    Python floats are IEEE binary64 values and are modelled by Rocq's
    primitive floats; Python sets of skill names are [gset string]; the
    [vehicle_skills] dict is a [gmap Z (list string)].

    Widgets, the drawing of nodes and the status label carry no model state
    and are left out; of [draw_routes] the model keeps the lines it creates.
    The routing library is not part of the module.  The calls that assemble
    the routing model are recorded in a record, and what they do besides
    (return, raise, or end the process) is a parameter of the model, as is
    the answer of [SolveWithParameters]. *)

From Stdlib Require Import ZArith Lia Floats Reals.
From stdpp Require Import base option list gmap strings.

Local Open Scope Z_scope.

(** ** Python exceptions and the outcome of a computation *)

Inductive Exn :=
  | ValueError
  | OverflowError
  | IndexError
  | KeyError (key : string)
  | OSError
  | JSONDecodeError
  (** an exception of the routing library, with its message:
      [Exception("CP Solver fail")] when a variable is left without a value
      while the model is assembled *)
  | RoutingError (message : string).

(** [Diverge] stands for a computation that never returns to its caller: a
    [while] loop that never leaves, or a call into the routing library that
    ends the process. *)
Inductive Outcome (A : Type) :=
  | Ok (a : A)
  | Raise (e : Exn)
  | Diverge.
Arguments Ok {A} a.
Arguments Raise {A} e.
Arguments Diverge {A}.

#[global] Instance Outcome_ret : MRet Outcome := @Ok.
#[global] Instance Outcome_bind : MBind Outcome := fun A B f m =>
  match m with
  | Ok a => f a
  | Raise e => Raise e
  | Diverge => Diverge
  end.


(** Run [f] over a list from left to right, stopping at the first element
    that does not return. *)
Fixpoint traverse {A B} (f : A -> Outcome B) (l : list A) : Outcome (list B) :=
  match l with
  | [] => Ok []
  | a :: l' => b ← f a; bs ← traverse f l'; Ok (b :: bs)
  end.

(** ** Python float arithmetic *)

Module PyFloat.

(** [float(z)] for a Python int: the nearest binary64 value. *)
Definition of_int (z : Z) : float :=
  SF2Prim (binary_normalize prec emax z 0 false).

(** [x ** 2].  [float.__pow__] raises [OverflowError] when a finite base
    gives an infinite result; the square itself is the rounded product. *)
Definition pow2 (x : float) : Outcome float :=
  let r := (x * x)%float in
  match Prim2SF r, Prim2SF x with
  | S754_infinity _, S754_finite _ _ _ => Raise OverflowError
  | _, _ => Ok r
  end.

(** [math.sqrt(x)]: a NaN result from an argument that is not NaN is a
    "math domain error". *)
Definition math_sqrt (x : float) : Outcome float :=
  let r := PrimFloat.sqrt x in
  match Prim2SF r, Prim2SF x with
  | S754_nan, S754_nan => Ok r
  | S754_nan, _ => Raise ValueError
  | _, _ => Ok r
  end.

(** [int(x)]: truncation towards zero; NaN and the infinities raise. *)
Definition to_int (x : float) : Outcome Z :=
  match Prim2SF x with
  | S754_nan => Raise ValueError
  | S754_infinity _ => Raise OverflowError
  | S754_zero _ => Ok 0
  | S754_finite s m e =>
      let a := if 0 <=? e then Z.shiftl (Z.pos m) e
               else Z.shiftr (Z.pos m) (- e) in
      Ok (if s then - a else a)
  end.

End PyFloat.

(** ** Numbers the coordinate mapper works on

    [canvas_to_vrp_coords] and [vrp_to_canvas_coords] use only [-], [+], [*]
    and [/] and an integer offset, so they run on any Python number type.
    The application runs them on floats; the instance on [R] is the exact
    arithmetic the round-trip property is stated in. *)

Class PyNumber (A : Type) := {
  num_add : A -> A -> A;
  num_sub : A -> A -> A;
  num_mul : A -> A -> A;
  num_truediv : A -> A -> A;
  num_of_int : Z -> A
}.

(** On the integers a canvas produces (far below 2^53) Python's exact
    integer arithmetic followed by true division gives the same float as the
    float operations on the converted integers. *)
#[global] Instance float_number : PyNumber float := {
  num_add := PrimFloat.add;
  num_sub := PrimFloat.sub;
  num_mul := PrimFloat.mul;
  num_truediv := PrimFloat.div;
  num_of_int := PyFloat.of_int
}.

#[global] Instance real_number : PyNumber R := {
  num_add := Rplus;
  num_sub := Rminus;
  num_mul := Rmult;
  num_truediv := Rdiv;
  num_of_int := IZR
}.

(** ** class VRPNode *)

Module VRPNode.

Record t := mk {
  id : Z;
  x : float;
  y : float;
  is_depot : bool;
  time_window : option (Z * Z);
  required_skills : gset string
}.

(** [VRPNode.__init__]: the class attribute [id_counter] is read and
    written, so it is passed in and returned. *)
Definition init (id_counter : Z) (x y : float) (is_depot : bool) : t * Z :=
  if is_depot
  then (mk 0 x y true None ∅, id_counter)
  else (mk id_counter x y false None ∅, id_counter + 1).

Definition with_time_window (w : option (Z * Z)) (n : t) : t :=
  mk (id n) (x n) (y n) (is_depot n) w (required_skills n).

Definition with_required_skills (r : gset string) (n : t) : t :=
  mk (id n) (x n) (y n) (is_depot n) (time_window n) r.

(** [set_time_window] is called with integers, for which [int(...)] cannot
    raise: it stores the pair and returns [True]. *)
Definition set_time_window (start_time end_time : Z) (n : t) : t * bool :=
  (with_time_window (Some (start_time, end_time)) n, true).

Definition clear_time_window (n : t) : t := with_time_window None n.

Definition add_required_skill (skill : string) (n : t) : t :=
  with_required_skills ({[ skill ]} ∪ required_skills n) n.

Definition remove_required_skill (skill : string) (n : t) : t :=
  if bool_decide (skill ∈ required_skills n)
  then with_required_skills (required_skills n ∖ {[ skill ]}) n
  else n.

(** A node object of a preset file, as [json.load] returns it. *)
Record dict := mk_dict {
  d_id : Z;
  d_x : float;
  d_y : float;
  d_is_depot : bool;
  d_time_window : option (Z * Z);
  d_required_skills : list string
}.

(** [to_dict]; [json.dump] writes the tuple of a time window as an array
    and [list(self.required_skills)] in the set's iteration order. *)
Definition to_dict (n : t) : dict :=
  mk_dict (id n) (x n) (y n) (is_depot n) (time_window n)
          (elements (required_skills n)).

(** [from_dict]: the constructor runs first (and moves the counter for a
    customer), then the id of the file replaces the fresh one. *)
Definition from_dict (id_counter : Z) (data : dict) : t * Z :=
  let '(node, c) := init id_counter (d_x data) (d_y data) (d_is_depot data) in
  (mk (d_id data) (x node) (y node) (is_depot node)
      (d_time_window data) (list_to_set (d_required_skills data)), c).

End VRPNode.

(** ** The routing library, as the application sees it *)

Inductive FirstSolutionStrategy :=
  | UNSET_STRATEGY
  | PATH_CHEAPEST_ARC
  | SAVINGS.

Inductive LocalSearchMetaheuristic :=
  | UNSET_METAHEURISTIC
  | GUIDED_LOCAL_SEARCH
  | SIMULATED_ANNEALING.

Record SearchParameters := mk_parameters {
  first_solution_strategy : FirstSolutionStrategy;
  local_search_metaheuristic : LocalSearchMetaheuristic;
  time_limit_seconds : Z
}.

Definition DefaultRoutingSearchParameters : SearchParameters :=
  mk_parameters UNSET_STRATEGY UNSET_METAHEURISTIC 0.

(** [routing.AddDimension(transit, slack, capacity, fix_start, name)] with
    the coefficient of [SetGlobalSpanCostCoefficient] and the
    [CumulVar(NodeToIndex(node_idx)).SetRange(lo, hi)] calls made on it. *)
Record Dimension := mk_dimension {
  dim_name : string;
  dim_slack_max : Z;
  dim_capacity : Z;
  dim_fix_start_cumul_to_zero : bool;
  dim_global_span_cost_coefficient : Z;
  dim_ranges : list (nat * (Z * Z))
}.

(** Everything the application has put into the index manager and the
    routing model when it calls the solver; [rm_vehicle_domains] are the
    [VehicleVar(NodeToIndex(node_idx)).SetValues(valid_vehicles)] calls. *)
Record RoutingModel := mk_routing {
  rm_distance_matrix : list (list Z);
  rm_num_vehicles : Z;
  rm_depot : Z;
  rm_dimensions : list Dimension;
  rm_vehicle_domains : list (nat * list Z)
}.

(** What route extraction reads from a solution: [routing.Start],
    [routing.IsEnd], [manager.IndexToNode],
    [solution.Value(routing.NextVar(index))],
    [routing.GetArcCostForVehicle] and the number of indices of the manager.
    A path that has not reached an end index after [num_indices] steps has
    come back to an index and never ends. *)
Record Assignment := mk_assignment {
  Start : Z -> nat;
  IsEnd : nat -> bool;
  IndexToNode : nat -> nat;
  NextVar : nat -> nat;
  GetArcCostForVehicle : nat -> nat -> Z -> Z;
  num_indices : nat
}.

(** [SolveWithParameters]: [None] when no solution is found. *)
Definition Solver := RoutingModel -> SearchParameters -> option Assignment.

(** The calls that assemble the routing model, in the three groups the
    application makes them in.  Each group is given the routing model as it
    is recorded once the group's calls are made, and returns, raises, or ends
    the process ([Diverge]).
    - [create_routing_model]: [RoutingIndexManager], [RoutingModel],
      [RegisterTransitCallback], [SetArcCostEvaluatorOfAllVehicles] and the
      "Distance" dimension;
    - [add_time_windows]: the "Time" dimension and the
      [CumulVar(index).SetRange] calls, made when a node has a time window;
    - [set_allowed_vehicles]: the [VehicleVar(index).SetValues] calls, made
      when a node requires skills and the skill check has passed. *)
Record RoutingLibrary := mk_library {
  create_routing_model : RoutingModel -> Outcome unit;
  add_time_windows : RoutingModel -> Outcome unit;
  set_allowed_vehicles : RoutingModel -> Outcome unit
}.

(** ** Messages on the worker's queue *)

Inductive DebugText :=
  (** "Solving VRP with {node_count} total nodes ({customer_count}
      customers) and {num_vehicles} vehicles" *)
  | solving_with (node_count customer_count : nat) (num_vehicles : Z)
  (** "First attempt failed. Trying with different solver settings..." *)
  | first_attempt_failed.

Inductive ErrorText :=
  (** "No vehicle has the skills required for node {id} ({skills})" *)
  | no_vehicle_has_skills (node_id : Z) (skills : gset string)
  (** "Need at least one customer node to create routes." *)
  | need_customer
  (** "Need at least one vehicle to create routes." *)
  | need_vehicle
  (** "Could not find a solution. Try relaxing time window constraints." *)
  | relax_time_windows
  (** "Could not find a solution. Check that vehicles have the necessary
      skills." *)
  | check_vehicle_skills
  (** "Could not find a solution. Try using more vehicles or check if
      constraints are feasible." *)
  | more_vehicles_or_constraints
  (** "Error during solving: {str(e)}" *)
  | error_during_solving (e : Exn).

Inductive Msg :=
  | debug (text : DebugText)
  | success (routes : list (list Z)) (max_route_distance : Z)
  | error (text : ErrorText).

(** ** What a handler shows to the user *)

Inductive Feedback :=
  | showwarning (title message : string)
  | showinfo (title message : string)
  (** [messagebox.showerror(title, f"{prefix}{str(e)}")] *)
  | showerror (title prefix : string) (e : Exn)
  (** [messagebox.showerror("Solver Error", error_msg)] *)
  | solver_error (text : ErrorText)
  (** an exception that leaves a Tk callback: the traceback is printed and
      the handler's remaining statements do not run *)
  | callback_exception (e : Exn).

(** [list.remove(x)]: drops the first occurrence, [None] when there is none
    (Python raises [ValueError]). *)
Fixpoint list_remove (x : string) (l : list string) : option (list string) :=
  match l with
  | [] => None
  | y :: l' => if decide (x = y) then Some l' else (y ::.) <$> list_remove x l'
  end.

(** [if x in l: l.remove(x)] *)
Definition discard (x : string) (l : list string) : list string :=
  default l (list_remove x l).

(** A preset file as [json.load] returns it; a key that is absent from the
    top-level object is [None].  The node objects are taken well-formed. *)
Record preset := mk_preset {
  p_nodes : option (list VRPNode.dict);
  p_num_vehicles : option Z;
  p_available_skills : option (list string);
  p_vehicle_skills : option (list (string * list string))
}.

(** What [filedialog] and [open]/[json.load] give the load handler. *)
Inductive file_read :=
  | cancelled
  | unreadable (e : Exn)
  | parsed (data : preset).

(** ** class VRPApp: state *)

Module VRPApp.

(** [selected_node] refers to one of the objects of [nodes]; the model
    stores its position in [nodes].  [id_counter] is the class attribute
    [VRPNode.id_counter]. *)
Record t := mk {
  nodes : list VRPNode.t;
  selected_node : option nat;
  num_vehicles : Z;
  available_skills : list string;
  vehicle_skills : gmap Z (list string);
  routes : list (list Z);
  canvas_width : Z;
  canvas_height : Z;
  scale_factor : Z;
  id_counter : Z
}.

Definition with_nodes (v : list VRPNode.t) (a : t) : t :=
  mk v (selected_node a) (num_vehicles a) (available_skills a)
     (vehicle_skills a) (routes a) (canvas_width a) (canvas_height a)
     (scale_factor a) (id_counter a).
Definition with_selected_node (v : option nat) (a : t) : t :=
  mk (nodes a) v (num_vehicles a) (available_skills a)
     (vehicle_skills a) (routes a) (canvas_width a) (canvas_height a)
     (scale_factor a) (id_counter a).
Definition with_num_vehicles (v : Z) (a : t) : t :=
  mk (nodes a) (selected_node a) v (available_skills a)
     (vehicle_skills a) (routes a) (canvas_width a) (canvas_height a)
     (scale_factor a) (id_counter a).
Definition with_available_skills (v : list string) (a : t) : t :=
  mk (nodes a) (selected_node a) (num_vehicles a) v
     (vehicle_skills a) (routes a) (canvas_width a) (canvas_height a)
     (scale_factor a) (id_counter a).
Definition with_vehicle_skills (v : gmap Z (list string)) (a : t) : t :=
  mk (nodes a) (selected_node a) (num_vehicles a) (available_skills a)
     v (routes a) (canvas_width a) (canvas_height a)
     (scale_factor a) (id_counter a).
Definition with_routes (v : list (list Z)) (a : t) : t :=
  mk (nodes a) (selected_node a) (num_vehicles a) (available_skills a)
     (vehicle_skills a) v (canvas_width a) (canvas_height a)
     (scale_factor a) (id_counter a).
Definition with_id_counter (v : Z) (a : t) : t :=
  mk (nodes a) (selected_node a) (num_vehicles a) (available_skills a)
     (vehicle_skills a) (routes a) (canvas_width a) (canvas_height a)
     (scale_factor a) v.

(** *** Coordinate mapper *)

Section Mapper.
Context {A : Type} `{PyNumber A}.

Definition canvas_to_vrp_coords (a : t) (canvas_x canvas_y : A) : A * A :=
  let vrp_x := num_truediv (num_sub canvas_x (num_of_int (canvas_width a / 2)))
                           (num_of_int (scale_factor a)) in
  let vrp_y := num_truediv (num_sub (num_of_int (canvas_height a / 2)) canvas_y)
                           (num_of_int (scale_factor a)) in
  (vrp_x, vrp_y).

Definition vrp_to_canvas_coords (a : t) (vrp_x vrp_y : A) : A * A :=
  let canvas_x := num_add (num_mul vrp_x (num_of_int (scale_factor a)))
                          (num_of_int (canvas_width a / 2)) in
  let canvas_y := num_sub (num_of_int (canvas_height a / 2))
                          (num_mul vrp_y (num_of_int (scale_factor a))) in
  (canvas_x, canvas_y).
End Mapper.

(** *** Widgets that write to the model *)

(** [update_vehicle_skills_ui] gives every vehicle of [range(num_vehicles)]
    that has no entry an empty skill list. *)
Definition update_vehicle_skills_ui (a : t) : t :=
  with_vehicle_skills
    (foldl (fun vs i => match vs !! i with
                        | Some _ => vs
                        | None => <[ i := [] ]> vs
                        end)
           (vehicle_skills a) (seqZ 0 (num_vehicles a))) a.

(** [update_skills_ui] returns before the vehicle rows when the catalog is
    empty. *)
Definition update_skills_ui (a : t) : t :=
  match available_skills a with
  | [] => a
  | _ :: _ => update_vehicle_skills_ui a
  end.

(** [VRPApp.__init__] with the class attribute [id_counter = 0]. *)
Definition init : t :=
  let a0 := mk [] None 4 [] ∅ [] 800 600 10 0 in
  (* create_vehicle_config_section *)
  let a1 := update_vehicle_skills_ui a0 in
  (* create_skills_config_section *)
  let a2 := update_skills_ui
              (with_available_skills
                 ["electrician"; "refrigeration"; "heavy_lift"]%string a1) in
  let '(vrp_x, vrp_y) :=
    canvas_to_vrp_coords a2 (PyFloat.of_int (canvas_width a2 / 2))
                             (PyFloat.of_int (canvas_height a2 / 2)) in
  let '(depot_node, c) := VRPNode.init (id_counter a2) vrp_x vrp_y true in
  with_id_counter c (with_nodes (nodes a2 ++ [depot_node]) a2).

(** *** Canvas clicks *)

Definition click_distance (a : t) (node : VRPNode.t) (canvas_x canvas_y : Z)
  : Outcome float :=
  let '(node_x, node_y) :=
    vrp_to_canvas_coords a (VRPNode.x node) (VRPNode.y node) in
  dx ← PyFloat.pow2 (node_x - PyFloat.of_int canvas_x)%float;
  dy ← PyFloat.pow2 (node_y - PyFloat.of_int canvas_y)%float;
  PyFloat.math_sqrt (dx + dy)%float.

(** The loop that looks for a node within the selection radius; [i] is the
    position of the head of [ns] in [self.nodes]. *)
Fixpoint find_clicked (a : t) (ns : list VRPNode.t) (i : nat)
    (canvas_x canvas_y : Z) : Outcome (option nat) :=
  match ns with
  | [] => Ok None
  | node :: ns' =>
      distance ← click_distance a node canvas_x canvas_y;
      if (distance <=? 10)%float then Ok (Some i)
      else find_clicked a ns' (S i) canvas_x canvas_y
  end.

Definition select_node (node : option nat) (a : t) : t :=
  with_selected_node node a.

Definition on_canvas_click (canvas_x canvas_y : Z) (a : t) : t * list Feedback :=
  match find_clicked a (nodes a) 0 canvas_x canvas_y with
  | Ok (Some i) => (select_node (Some i) a, [])
  | Ok None =>
      let '(vrp_x, vrp_y) :=
        canvas_to_vrp_coords a (PyFloat.of_int canvas_x) (PyFloat.of_int canvas_y) in
      let '(new_node, c) := VRPNode.init (id_counter a) vrp_x vrp_y false in
      let a' := with_id_counter c (with_nodes (nodes a ++ [new_node]) a) in
      (select_node (Some (length (nodes a))) a', [])
  | Raise e => (a, [callback_exception e])
  | Diverge => (a, [])
  end.

(** After [self.nodes.remove(clicked_node)] the selected object, when it
    stays selected, sits one place lower if it came after the removed one. *)
Definition selection_after_remove (a : t) (i : nat) (clicked : VRPNode.t)
  : option nat :=
  match selected_node a with
  | None => None
  | Some j =>
      match nodes a !! j with
      | None => Some j
      | Some sel =>
          if bool_decide (VRPNode.id sel = VRPNode.id clicked) then None
          else Some (if bool_decide (i < j)%nat then pred j else j)
      end
  end.

Definition on_canvas_right_click (canvas_x canvas_y : Z) (a : t)
  : t * list Feedback :=
  match find_clicked a (nodes a) 0 canvas_x canvas_y with
  | Ok (Some i) =>
      match nodes a !! i with
      | Some clicked =>
          if VRPNode.is_depot clicked
          then (a, [showinfo "Cannot Remove Depot"
                             "The depot node cannot be removed."])
          else
            (with_selected_node (selection_after_remove a i clicked)
               (with_nodes (delete i (nodes a)) a), [])
      | None => (a, [])
      end
  | Ok None => (a, [])
  | Raise e => (a, [callback_exception e])
  | Diverge => (a, [])
  end.

(** *** Constraint and fleet handlers *)

Definition on_vehicle_count_change (new_count : Z) (a : t) : t :=
  update_vehicle_skills_ui (with_num_vehicles new_count a).

(** Apply [f] to the selected node object. *)
Definition update_selected (f : VRPNode.t -> VRPNode.t) (a : t) : t :=
  match selected_node a with
  | Some i => with_nodes (alter f i (nodes a)) a
  | None => a
  end.

Section Builtins.
(** [str.strip], [int] applied to a string ([None] for [ValueError]) and
    [str] applied to an int are Python built-ins. *)
Variable str_strip : string -> string.
Variable int_of_str : string -> option Z.
Variable str_of_int : Z -> string.

(** [start_entry] and [end_entry] are the texts of the two entry
    widgets. *)
Definition on_set_time_window (start_entry end_entry : string) (a : t)
  : t * list Feedback :=
  match selected_node a with
  | None => (a, [])
  | Some _ =>
      let start_text := str_strip start_entry in
      let end_text := str_strip end_entry in
      if bool_decide (start_text = ""%string) || bool_decide (end_text = ""%string)
      then (a, [showwarning "Invalid Time Window"
                            "Please enter both start and end times."])
      else
        match int_of_str start_text, int_of_str end_text with
        | Some start_time, Some end_time =>
            if bool_decide (start_time >= end_time)
            then (a, [showwarning "Invalid Time Window"
                        "End time must be greater than start time."])
            else if bool_decide (start_time < 0)
            then (a, [showwarning "Invalid Time Window"
                        "Times must be non-negative."])
            else
              (update_selected
                 (fun n => fst (VRPNode.set_time_window start_time end_time n)) a,
               [])
        | _, _ =>
            (a, [showwarning "Invalid Time Window" "Times must be integers."])
        end
  end.

Definition on_add_skill (entry : string) (a : t) : t * list Feedback :=
  let new_skill := str_strip entry in
  if bool_decide (new_skill = ""%string)
  then (a, [showwarning "Invalid Skill" "Please enter a skill name."])
  else if bool_decide (new_skill ∈ available_skills a)
  then (a, [showwarning "Duplicate Skill"
              ("Skill '" +:+ new_skill +:+ "' already exists.")])
  else
    (update_skills_ui
       (with_available_skills (available_skills a ++ [new_skill]) a), []).

(** [{int(k): v for k, v in data["vehicle_skills"].items()}] *)
Fixpoint parse_vehicle_skills (acc : gmap Z (list string))
    (items : list (string * list string)) : option (gmap Z (list string)) :=
  match items with
  | [] => Some acc
  | (k, v) :: items' =>
      match int_of_str k with
      | Some i => parse_vehicle_skills (<[ i := v ]> acc) items'
      | None => None
      end
  end.

(** The loop over [data["nodes"]]: returns the node list and the final
    [id_counter]. *)
Definition load_nodes (ds : list VRPNode.dict) : list VRPNode.t * Z :=
  foldl (fun '(ns, c) node_data =>
           let '(node, c') := VRPNode.from_dict c node_data in
           (ns ++ [node],
            if VRPNode.is_depot node then c'
            else Z.max c' (VRPNode.id node + 1)))
        ([], 0) ds.

(** [on_save_preset]: the object handed to [json.dump], which writes the
    integer keys of [vehicle_skills] as strings.  The application itself is
    not changed. *)
Definition on_save_preset (a : t) : preset :=
  mk_preset (Some (VRPNode.to_dict <$> nodes a))
            (Some (num_vehicles a))
            (Some (available_skills a))
            (Some ((fun '(k, v) => (str_of_int k, v))
                     <$> map_to_list (vehicle_skills a))).

Definition load_error (e : Exn) : Feedback :=
  showerror "Load Error" "Error loading preset: " e.

Definition on_load_preset (file : file_read) (a : t) : t * list Feedback :=
  match file with
  | cancelled => (a, [])
  | unreadable e => (a, [load_error e])
  | parsed data =>
      (* Clear current state *)
      let a1 := with_id_counter 0
                  (with_routes [] (with_nodes [] (with_selected_node None a))) in
      match p_nodes data with
      | None => (a1, [load_error (KeyError "nodes")])
      | Some ds =>
          let '(ns, c) := load_nodes ds in
          let a2 := with_id_counter c (with_nodes ns a1) in
          match p_num_vehicles data with
          | None => (a2, [load_error (KeyError "num_vehicles")])
          | Some n =>
              let a3 := with_num_vehicles n a2 in
              match p_available_skills data with
              | None => (a3, [load_error (KeyError "available_skills")])
              | Some skills =>
                  let a4 := with_available_skills skills a3 in
                  match p_vehicle_skills data with
                  | None => (a4, [load_error (KeyError "vehicle_skills")])
                  | Some items =>
                      match parse_vehicle_skills ∅ items with
                      | None => (a4, [load_error ValueError])
                      | Some vs =>
                          (update_skills_ui (with_vehicle_skills vs a4), [])
                      end
                  end
              end
          end
      end
  end.
End Builtins.

Definition on_clear_time_window (a : t) : t :=
  update_selected VRPNode.clear_time_window a.

(** [confirm] is the answer to the [askyesno] dialog. *)
Definition on_delete_skill (skill : string) (confirm : bool) (a : t)
  : t * list Feedback :=
  if confirm then
    match list_remove skill (available_skills a) with
    | None => (a, [callback_exception ValueError])
    | Some skills =>
        let a1 := with_available_skills skills a in
        let a2 := with_vehicle_skills (discard skill <$> vehicle_skills a1) a1 in
        let a3 := with_nodes (VRPNode.remove_required_skill skill <$> nodes a2) a2 in
        (update_skills_ui a3, [])
    end
  else (a, []).

Definition on_vehicle_skill_toggle (vehicle_id : Z) (skill : string)
    (var : bool) (a : t) : t :=
  let vs := vehicle_skills a in
  if var then
    let vs1 := match vs !! vehicle_id with
               | Some _ => vs
               | None => <[ vehicle_id := [] ]> vs
               end in
    let skills := default [] (vs1 !! vehicle_id) in
    if bool_decide (skill ∈ skills) then with_vehicle_skills vs1 a
    else with_vehicle_skills (<[ vehicle_id := skills ++ [skill] ]> vs1) a
  else
    match vs !! vehicle_id with
    | Some skills => with_vehicle_skills (<[ vehicle_id := discard skill skills ]> vs) a
    | None => a
    end.

Definition on_node_skill_toggle (skill : string) (var : bool) (a : t) : t :=
  if var then update_selected (VRPNode.add_required_skill skill) a
  else update_selected (VRPNode.remove_required_skill skill) a.

Definition on_clear_routes (a : t) : t := with_routes [] a.

Definition on_clear_all (confirm : bool) (a : t) : t :=
  if confirm then
    with_selected_node None
      (with_routes [] (with_nodes (filter (fun n => VRPNode.is_depot n = true) (nodes a)) a))
  else a.

(** *** Problem builder *)

Record solver_data := mk_data {
  distance_matrix : list (list Z);
  data_num_vehicles : Z;
  depot : Z
}.

(** Python's [enumerate]. *)
Definition enumerate {A} (l : list A) : list (nat * A) := imap pair l.

(** [int(math.sqrt((node_i.x - node_j.x)**2 + (node_i.y - node_j.y)**2) * 100)] *)
Definition scaled_distance (node_i node_j : VRPNode.t) : Outcome Z :=
  dx ← PyFloat.pow2 (VRPNode.x node_i - VRPNode.x node_j)%float;
  dy ← PyFloat.pow2 (VRPNode.y node_i - VRPNode.y node_j)%float;
  r ← PyFloat.math_sqrt (dx + dy)%float;
  PyFloat.to_int (r * PyFloat.of_int 100)%float.

Definition distance_row (ns : list VRPNode.t) (i : nat) (node_i : VRPNode.t)
  : Outcome (list Z) :=
  traverse (fun '(j, node_j) =>
              if bool_decide (i = j) then Ok 0 else scaled_distance node_i node_j)
           (enumerate ns).

Definition prepare_solver_data (a : t) : Outcome solver_data :=
  distance_matrix ←
    traverse (fun '(i, node_i) => distance_row (nodes a) i node_i)
             (enumerate (nodes a));
  Ok (mk_data distance_matrix (num_vehicles a) 0).

Definition has_time_windows (a : t) : bool :=
  bool_decide (Exists (fun node => is_Some (VRPNode.time_window node)) (nodes a)).

Definition has_skills (a : t) : bool :=
  bool_decide (Exists (fun node => VRPNode.required_skills node ≠ ∅) (nodes a)).

(** [all(skill in self.vehicle_skills.get(v_id, []) for skill in
    node.required_skills)] *)
Definition has_all_skills (a : t) (v_id : Z) (node : VRPNode.t) : Prop :=
  set_Forall (fun skill => skill ∈ default [] (vehicle_skills a !! v_id))
             (VRPNode.required_skills node).

#[global] Instance has_all_skills_dec a v_id node : Decision (has_all_skills a v_id node).
Proof. unfold has_all_skills. apply _. Defined.

Definition valid_vehicles (a : t) (num_vehicles : Z) (node : VRPNode.t) : list Z :=
  filter (fun v_id => has_all_skills a v_id node) (seqZ 0 num_vehicles).

(** The first loop under [if has_skills]: the first node that declares
    skills and has no valid vehicle. *)
Definition unserved_node (a : t) (num_vehicles : Z) : option (nat * VRPNode.t) :=
  list_find (fun node => VRPNode.required_skills node ≠ ∅
                         ∧ valid_vehicles a num_vehicles node = [])
            (nodes a).

Definition distance_dimension : Dimension :=
  mk_dimension "Distance" 0 30000 true 100 [].

Definition time_dimension (a : t) : Dimension :=
  mk_dimension "Time" 30 30000 false 0
    (omap (fun '(node_idx, node) =>
             (fun w => (node_idx, w)) <$> VRPNode.time_window node)
          (enumerate (nodes a))).

Definition vehicle_domains (a : t) (num_vehicles : Z) : list (nat * list Z) :=
  omap (fun '(node_idx, node) =>
          if bool_decide (VRPNode.required_skills node = ∅) || VRPNode.is_depot node
          then None
          else Some (node_idx, valid_vehicles a num_vehicles node))
       (enumerate (nodes a)).

Definition build_routing (a : t) (data : solver_data) : RoutingModel :=
  mk_routing (distance_matrix data) (data_num_vehicles data) (depot data)
    (distance_dimension :: if has_time_windows a then [time_dimension a] else [])
    (if has_skills a then vehicle_domains a (data_num_vehicles data) else []).

(** The routing model as it is recorded when the index manager, the routing
    model and the "Distance" dimension have been created. *)
Definition created_routing (data : solver_data) : RoutingModel :=
  mk_routing (distance_matrix data) (data_num_vehicles data) (depot data)
    [distance_dimension] [].

(** The routing model as it is recorded when the "Time" dimension and its
    ranges have been added. *)
Definition windowed_routing (a : t) (data : solver_data) : RoutingModel :=
  mk_routing (distance_matrix data) (data_num_vehicles data) (depot data)
    [distance_dimension; time_dimension a] [].

(** *** Strategy policy *)

Definition with_strategy (v : FirstSolutionStrategy) (p : SearchParameters) :=
  mk_parameters v (local_search_metaheuristic p) (time_limit_seconds p).
Definition with_metaheuristic (v : LocalSearchMetaheuristic) (p : SearchParameters) :=
  mk_parameters (first_solution_strategy p) v (time_limit_seconds p).
Definition with_time_limit (v : Z) (p : SearchParameters) :=
  mk_parameters (first_solution_strategy p) (local_search_metaheuristic p) v.

Definition search_parameters (a : t) : SearchParameters :=
  let p := with_strategy PATH_CHEAPEST_ARC DefaultRoutingSearchParameters in
  let p := if bool_decide (20 < length (nodes a))%nat
           then with_strategy SAVINGS p else p in
  let p := with_time_limit 10 p in
  if has_time_windows a || has_skills a || bool_decide (15 < length (nodes a))%nat
  then with_time_limit 15 (with_metaheuristic GUIDED_LOCAL_SEARCH p)
  else p.

Definition fallback_parameters : SearchParameters :=
  with_time_limit 20
    (with_metaheuristic SIMULATED_ANNEALING
       (with_strategy SAVINGS DefaultRoutingSearchParameters)).

(** *** Route extractor *)

(** The [while not routing.IsEnd(index)] loop of one vehicle, followed by
    the closing element.  [live] is [self.nodes] as the worker finds it
    when it extracts. *)
Fixpoint walk_route (fuel : nat) (solution : Assignment) (live : list VRPNode.t)
    (vehicle_id : Z) (index : nat) (route : list Z) (route_distance : Z)
  : Outcome (list Z * Z) :=
  if IsEnd solution index then
    match live !! IndexToNode solution index with
    | Some node => Ok (route ++ [VRPNode.id node], route_distance)
    | None => Raise IndexError
    end
  else
    match fuel with
    | O => Diverge
    | S fuel' =>
        match live !! IndexToNode solution index with
        | Some node =>
            let previous_index := index in
            let index := NextVar solution index in
            walk_route fuel' solution live vehicle_id index
              (route ++ [VRPNode.id node])
              (route_distance
               + GetArcCostForVehicle solution previous_index index vehicle_id)
        | None => Raise IndexError
        end
    end.

(** The loop over [range(data["num_vehicles"])]. *)
Fixpoint extract_routes (solution : Assignment) (live : list VRPNode.t)
    (vehicles : list Z) (routes : list (list Z)) (max_route_distance : Z)
  : Outcome (list (list Z) * Z) :=
  match vehicles with
  | [] => Ok (routes, max_route_distance)
  | vehicle_id :: vehicles' =>
      '(route, route_distance) ←
        walk_route (num_indices solution) solution live vehicle_id
                   (Start solution vehicle_id) [] 0;
      extract_routes solution live vehicles' (routes ++ [route])
                     (Z.max route_distance max_route_distance)
  end.

(** *** Solve orchestrator *)

(** What one run of the worker leaves behind: the messages it put on the
    queue, in order, and its calls of [SolveWithParameters]. *)
Record run := mk_run {
  queue : list Msg;
  solver_calls : list (RoutingModel * SearchParameters)
}.

(** The end of a run that found a solution; an exception reaches the
    [except] clause of [run_vrp_solver]. *)
Definition deliver (q : list Msg) (calls : list (RoutingModel * SearchParameters))
    (extracted : Outcome (list (list Z) * Z)) : run :=
  match extracted with
  | Ok (routes, max_route_distance) =>
      mk_run (q ++ [success routes max_route_distance]) calls
  | Raise e => mk_run (q ++ [error (error_during_solving e)]) calls
  | Diverge => mk_run q calls
  end.

(** [run_vrp_solver] on the worker thread.  The worker reads [self]
    while the interactive thread may edit it: [a] is the application as
    read up to the first solver call, [a1] as read when that call has
    returned, [a2] as read when the fallback call has returned.  An
    exception of a library call reaches the [except] clause; a library call
    that ends the process leaves the queue as it is. *)
Definition run_vrp_solver_live (lib : RoutingLibrary) (solve : Solver)
    (a a1 a2 : t) : run :=
  let node_count := length (nodes a) in
  let customer_count :=
    length (filter (fun node => VRPNode.is_depot node = false) (nodes a)) in
  let q := [debug (solving_with node_count customer_count (num_vehicles a))] in
  match prepare_solver_data a with
  | Raise e => mk_run (q ++ [error (error_during_solving e)]) []
  | Diverge => mk_run q []
  | Ok data =>
  match create_routing_model lib (created_routing data) with
  | Raise e => mk_run (q ++ [error (error_during_solving e)]) []
  | Diverge => mk_run q []
  | Ok _ =>
  match (if has_time_windows a
         then add_time_windows lib (windowed_routing a data) else Ok tt) with
  | Raise e => mk_run (q ++ [error (error_during_solving e)]) []
  | Diverge => mk_run q []
  | Ok _ =>
      match (if has_skills a then unserved_node a (data_num_vehicles data)
             else None) with
      | Some (_, node) =>
          mk_run (q ++ [error (no_vehicle_has_skills
                                 (VRPNode.id node)
                                 (VRPNode.required_skills node))]) []
      | None =>
          let routing := build_routing a data in
          let vehicles := seqZ 0 (data_num_vehicles data) in
          match (if has_skills a then set_allowed_vehicles lib routing
                 else Ok tt) with
          | Raise e => mk_run (q ++ [error (error_during_solving e)]) []
          | Diverge => mk_run q []
          | Ok _ =>
          match solve routing (search_parameters a) with
          | Some solution =>
              deliver q [(routing, search_parameters a)]
                      (extract_routes solution (nodes a1) vehicles [] 0)
          | None =>
              let calls := [(routing, search_parameters a)] in
              if bool_decide (length (nodes a1) <= 1)%nat
              then mk_run (q ++ [error need_customer]) calls
              else if bool_decide (data_num_vehicles data < 1)
              then mk_run (q ++ [error need_vehicle]) calls
              else if has_time_windows a
              then mk_run (q ++ [error relax_time_windows]) calls
              else if has_skills a
              then mk_run (q ++ [error check_vehicle_skills]) calls
              else
                let q := q ++ [debug first_attempt_failed] in
                let calls := calls ++ [(routing, fallback_parameters)] in
                match solve routing fallback_parameters with
                | Some solution =>
                    deliver q calls
                            (extract_routes solution (nodes a2) vehicles [] 0)
                | None =>
                    mk_run (q ++ [error more_vehicles_or_constraints]) calls
                end
          end
          end
      end
  end
  end
  end.

(** A run during which the scenario is not edited. *)
Definition run_vrp_solver (lib : RoutingLibrary) (solve : Solver) (a : t) : run :=
  run_vrp_solver_live lib solve a a a.

Definition on_solve_vrp (lib : RoutingLibrary) (solve : Solver) (a : t)
  : option run * list Feedback :=
  if bool_decide (length (nodes a) < 2)%nat
  then (None, [showinfo "Not Enough Nodes" "Please add at least one customer node."])
  else (Some (run_vrp_solver lib solve a), []).

(** [check_solver_results], polled until a terminal message arrives. *)
Fixpoint check_solver_results (q : list Msg) (a : t) : t * list Feedback :=
  match q with
  | [] => (a, [])
  | debug _ :: q' => check_solver_results q' a
  | success routes _ :: _ => (with_routes routes a, [])
  | error text :: _ => (a, [solver_error text])
  end.

End VRPApp.

(** ** The editing session

    One step of the interactive surface while a scenario is open: every
    handler that edits the model, and the delivery of a solver result.
    Loading a preset replaces the scenario and is not an edit. *)

Section Session.
Variable str_strip : string -> string.
Variable int_of_str : string -> option Z.
Variable str_of_int : Z -> string.

Inductive edit : VRPApp.t -> VRPApp.t -> Prop :=
  | edit_canvas_click x y a :
      edit a (VRPApp.on_canvas_click x y a).1
  | edit_canvas_right_click x y a :
      edit a (VRPApp.on_canvas_right_click x y a).1
  | edit_set_time_window start_entry end_entry a :
      edit a (VRPApp.on_set_time_window str_strip int_of_str
                start_entry end_entry a).1
  | edit_clear_time_window a :
      edit a (VRPApp.on_clear_time_window a)
  | edit_add_skill entry a :
      edit a (VRPApp.on_add_skill str_strip entry a).1
  | edit_delete_skill skill confirm a :
      edit a (VRPApp.on_delete_skill skill confirm a).1
  | edit_vehicle_skill_toggle vehicle_id skill var a :
      edit a (VRPApp.on_vehicle_skill_toggle vehicle_id skill var a)
  | edit_node_skill_toggle skill var a :
      edit a (VRPApp.on_node_skill_toggle skill var a)
  | edit_vehicle_count_change new_count a :
      edit a (VRPApp.on_vehicle_count_change new_count a)
  | edit_clear_routes a :
      edit a (VRPApp.on_clear_routes a)
  | edit_clear_all confirm a :
      edit a (VRPApp.on_clear_all confirm a)
  | edit_solver_results q a :
      edit a (VRPApp.check_solver_results q a).1.

(** The states of a session: it starts with [VRPApp.__init__], is edited,
    and may load a preset that a session has saved. *)
Inductive reachable : VRPApp.t -> Prop :=
  | reachable_init : reachable VRPApp.init
  | reachable_edit a a' : reachable a -> edit a a' -> reachable a'
  | reachable_load_saved a saved :
      reachable a -> reachable saved ->
      reachable (VRPApp.on_load_preset int_of_str
                   (parsed (VRPApp.on_save_preset str_of_int saved)) a).1.

End Session.

(** The depot is the first node and the only one flagged as depot, and its
    id is 0. *)
Definition depot_first (a : VRPApp.t) : Prop :=
  ∃ depot_node customers,
    VRPApp.nodes a = depot_node :: customers
    ∧ VRPNode.is_depot depot_node = true
    ∧ VRPNode.id depot_node = 0
    ∧ Forall (fun node => VRPNode.is_depot node = false) customers.

(** The id counter is not negative, and the ids of the customers (the nodes
    after the first) are distinct, not negative and below the counter. *)
Definition customer_ids_fresh (a : VRPApp.t) : Prop :=
  0 <= VRPApp.id_counter a
  ∧ NoDup (tail (VRPNode.id <$> VRPApp.nodes a))
  ∧ Forall (fun i => 0 <= i < VRPApp.id_counter a)
           (tail (VRPNode.id <$> VRPApp.nodes a)).

(** The catalog and every vehicle's skill list hold each skill once: the
    lists stand for sets. *)
Definition skill_lists_unique (a : VRPApp.t) : Prop :=
  NoDup (VRPApp.available_skills a)
  ∧ ∀ v skills, VRPApp.vehicle_skills a !! v = Some skills -> NoDup skills.

(** A decimal parser for digit strings, enough to run the handlers that
    read entry widgets. *)
Definition digit_value (c : Ascii.ascii) : option Z :=
  let n := Z.of_N (Ascii.N_of_ascii c) in
  if bool_decide (48 <= n <= 57) then Some (n - 48) else None.

Fixpoint parse_digits (acc : Z) (s : string) : option Z :=
  match s with
  | EmptyString => Some acc
  | String c s' =>
      match digit_value c with
      | Some d => parse_digits (10 * acc + d) s'
      | None => None
      end
  end.

Definition parse_decimal (s : string) : option Z :=
  match s with
  | EmptyString => None
  | String _ _ => parse_digits 0 s
  end.

(** The first message of every run. *)
Definition started (a : VRPApp.t) : Msg :=
  debug (solving_with
           (length (VRPApp.nodes a))
           (length (filter (fun node => VRPNode.is_depot node = false) (VRPApp.nodes a)))
           (VRPApp.num_vehicles a)).

(** Entry [(i, j)] of a matrix held as a list of rows. *)
Definition entry (m : list (list Z)) (i j : nat) : option Z :=
  row ← m !! i; row !! j.

(** The two entries of the time-window form parse as integers
    [start < end] with [0 <= start]. *)
Definition valid_time_window (str_strip : string -> string)
    (int_of_str : string -> option Z) (start_entry end_entry : string)
    (w : Z * Z) : Prop :=
  int_of_str (str_strip start_entry) = Some w.1
  ∧ int_of_str (str_strip end_entry) = Some w.2
  ∧ w.1 < w.2 ∧ 0 <= w.1.

(** The first top-level key, in the order the load handler reads them, that
    a preset lacks. *)
Definition missing_key (data : preset) : option string :=
  match p_nodes data, p_num_vehicles data, p_available_skills data,
        p_vehicle_skills data with
  | None, _, _, _ => Some "nodes"%string
  | _, None, _, _ => Some "num_vehicles"%string
  | _, _, None, _ => Some "available_skills"%string
  | _, _, _, None => Some "vehicle_skills"%string
  | _, _, _, _ => None
  end.

(** ** Sample scenarios *)

(** A fresh session after clicks at canvas positions (500, 300) and
    (441, 300): the depot at (0, 0) and customers at (10, 0) and (4.1, 0). *)
Definition two_customers : VRPApp.t :=
  (VRPApp.on_canvas_click 441 300 (VRPApp.on_canvas_click 500 300 VRPApp.init).1).1.

(** The same session after the first customer is removed and another one is
    placed at canvas position (300, 200). *)
Definition two_customers_edited : VRPApp.t :=
  (VRPApp.on_canvas_click 300 200
     (VRPApp.on_canvas_right_click 500 300 two_customers).1).1.

(** The second customer of [two_customers] requires the skill
    "electrician", which no vehicle has. *)
Definition electrician_needed : VRPApp.t :=
  VRPApp.on_node_skill_toggle "electrician" true two_customers.

(** Vehicle 0 and the second customer both have "electrician". *)
Definition electrician_on_board : VRPApp.t :=
  VRPApp.on_vehicle_skill_toggle 0 "electrician" true electrician_needed.

(** A solution for three nodes and four vehicles: vehicle 0 visits node 1 and
    then node 2, the other vehicles stay at the depot.  Indices 0 to 2 are
    the nodes (0 is the start of vehicle 0), 3 to 5 the starts of vehicles 1
    to 3, 6 to 9 the ends. *)
Definition one_vehicle_tour : Assignment :=
  mk_assignment
    (fun vehicle_id => if bool_decide (vehicle_id = 0) then 0%nat
                       else Z.to_nat (2 + vehicle_id))
    (fun index => bool_decide (6 <= index)%nat)
    (fun index => if bool_decide (index < 3)%nat then index else 0%nat)
    (fun index => match index with
                  | 0 => 1 | 1 => 2 | 2 => 6 | 3 => 7 | 4 => 8 | _ => 9
                  end%nat)
    (fun i j _ => match i, j with
                  | 0%nat, 1%nat => 1000
                  | 1%nat, 2%nat => 590
                  | 2%nat, 6%nat => 409
                  | _, _ => 0
                  end)
    10.

(** The sample session after the time window [10, 50] is set on the selected
    (second) customer. *)
Definition two_customers_windowed : VRPApp.t :=
  (VRPApp.on_set_time_window (fun s => s) parse_decimal "10" "50" two_customers).1.

(** The customer at (4.1, 0) as the sample sessions hold it. *)
Definition second_customer (required_skills : gset string) : VRPNode.t :=
  VRPNode.mk 1 (PyFloat.of_int 41 / PyFloat.of_int 10)%float 0%float false None
             required_skills.

Definition no_solution : Solver := fun _ _ => None.
Definition tour_solver : Solver := fun _ _ => Some one_vehicle_tour.

(** [CumulVar(index).SetRange(lo, hi)] on a cumul variable of a dimension
    with the given capacity: the variable ranges over 0 to the capacity, and
    the call raises when the range leaves it without a value. *)
Definition set_range (capacity : Z) (range : nat * (Z * Z)) : Outcome unit :=
  let '(_, (lo, hi)) := range in
  if bool_decide (Z.max 0 lo <= Z.min capacity hi) then Ok tt
  else Raise (RoutingError "CP Solver fail").

(** The routing library as the sample scenarios meet it while a model is
    assembled: without a vehicle the constructor of the index manager ends
    the process; a time window that holds no value between 0 and the
    capacity of the "Time" dimension makes [SetRange] raise; the other calls
    return.  Integers that do not fit the library's machine integers are not
    considered. *)
Definition routing_library : RoutingLibrary :=
  mk_library
    (fun routing =>
       if bool_decide (rm_num_vehicles routing <= 0) then Diverge else Ok tt)
    (fun routing =>
       _ ← traverse (fun d => traverse (set_range (dim_capacity d)) (dim_ranges d))
                    (rm_dimensions routing);
       Ok tt)
    (fun _ => Ok tt).

(** The scenario [electrician_needed] after the time window [40000, 50000]
    is set on the selected (second) customer: the form accepts the window,
    and it lies beyond the capacity 30000 of the "Time" dimension. *)
Definition electrician_needed_late : VRPApp.t :=
  (VRPApp.on_set_time_window (fun s => s) parse_decimal "40000" "50000"
     electrician_needed).1.




(** A preset file without the key "nodes". *)
Definition preset_without_nodes : preset :=
  mk_preset None (Some 2) (Some ["welding"%string]) (Some [("0"%string, [])]).

(** ** Further parts of the model and notions for its properties *)

Section Further.
Import VRPApp.

(** The selected node is one of the scenario's nodes. *)
Definition selection_in_nodes (a : VRPApp.t) : Prop :=
  ∀ i, selected_node a = Some i -> (i < length (nodes a))%nat.

(** [str] on the integers 0 to 9, enough to write the vehicle indices of
    the sample scenarios. *)
Definition digit_string (k : Z) : string :=
  String (Ascii.ascii_of_N (Z.to_N (48 + k))) EmptyString.

(** One pass of the loop over [data["nodes"]]. *)
Definition load_step : list VRPNode.t * Z -> VRPNode.dict -> list VRPNode.t * Z :=
  fun '(ns, c) node_data =>
    let '(node, c') := VRPNode.from_dict c node_data in
    (ns ++ [node],
     if VRPNode.is_depot node then c' else Z.max c' (VRPNode.id node + 1)).

(** The click at canvas position [(canvas_x, canvas_y)] is within the
    selection radius of [node], or outside of it. *)
Definition within_radius (a : VRPApp.t) (canvas_x canvas_y : Z)
    (node : VRPNode.t) : Prop :=
  ∃ distance, click_distance a node canvas_x canvas_y = Ok distance
              ∧ (distance <=? 10)%float = true.

Definition outside_radius (a : VRPApp.t) (canvas_x canvas_y : Z)
    (node : VRPNode.t) : Prop :=
  ∃ distance, click_distance a node canvas_x canvas_y = Ok distance
              ∧ (distance <=? 10)%float = false.

(** [self.vehicle_skills.get(v, [])] *)
Definition skills_of (a : VRPApp.t) (v : Z) : list string :=
  default [] (vehicle_skills a !! v).

(** A message that ends the polling of [check_solver_results]. *)
Definition is_terminal (m : Msg) : Prop :=
  match m with debug _ => False | _ => True end.

(** A float that is not below zero: NaN, a zero of either sign, or a
    positive number or infinity. *)
Definition sign_not_negative (x : spec_float) : Prop :=
  match x with
  | S754_finite s _ _ | S754_infinity s => s = false
  | _ => True
  end.

(** The canvas geometry of an application. *)
Definition canvas_of (a : VRPApp.t) : Z * Z * Z :=
  (canvas_width a, canvas_height a, scale_factor a).

(** The customer that a click at [(canvas_x, canvas_y)] places. *)
Definition placed_at (a : VRPApp.t) (canvas_x canvas_y : Z) : VRPNode.t :=
  let position :=
    canvas_to_vrp_coords a (PyFloat.of_int canvas_x) (PyFloat.of_int canvas_y) in
  VRPNode.mk (id_counter a) position.1 position.2 false None ∅.

(** The squared horizontal and vertical distances, in pixels, between a
    click and the customer placed by a click at the same pixel column and
    row. *)
Definition column_offset (canvas_x : Z) : Outcome float :=
  PyFloat.pow2
    ((vrp_to_canvas_coords init
        (canvas_to_vrp_coords init (PyFloat.of_int canvas_x) 0%float).1 0%float).1
     - PyFloat.of_int canvas_x)%float.

Definition row_offset (canvas_y : Z) : Outcome float :=
  PyFloat.pow2
    ((vrp_to_canvas_coords init 0%float
        (canvas_to_vrp_coords init 0%float (PyFloat.of_int canvas_y)).2).2
     - PyFloat.of_int canvas_y)%float.

(** The canvas column and row that a pixel column and row come back to
    after [canvas_to_vrp_coords] and [vrp_to_canvas_coords]. *)
Definition column_round_trip (canvas_x : Z) : float :=
  (vrp_to_canvas_coords init
     (canvas_to_vrp_coords init (PyFloat.of_int canvas_x) 0%float).1 0%float).1.

Definition row_round_trip (canvas_y : Z) : float :=
  (vrp_to_canvas_coords init 0%float
     (canvas_to_vrp_coords init 0%float (PyFloat.of_int canvas_y)).2).2.

(** [next((n for n in self.nodes if n.id == node_id), None)] in
    [draw_routes]. *)
Definition node_by_id (a : VRPApp.t) (node_id : Z) : option VRPNode.t :=
  head (filter (fun n => VRPNode.id n = node_id) (nodes a)).

(** One pass of the inner loop of [draw_routes]: the end points of the line
    for the leg from [from_id] to [to_id], if both ids are found. *)
Definition draw_leg (a : VRPApp.t) (from_id to_id : Z)
  : option ((float * float) * (float * float)) :=
  from_node ← node_by_id a from_id;
  to_node ← node_by_id a to_id;
  Some (vrp_to_canvas_coords a (VRPNode.x from_node) (VRPNode.y from_node),
        vrp_to_canvas_coords a (VRPNode.x to_node) (VRPNode.y to_node)).

(** [range(len(route) - 1)] with the ids at [j] and [j + 1]. *)
Fixpoint legs (route : list Z) : list (Z * Z) :=
  match route with
  | from_id :: (to_id :: _) as rest => (from_id, to_id) :: legs rest
  | _ => []
  end.

(** [draw_routes]: the lines it creates, each with the number of its
    route. *)
Definition draw_routes (a : VRPApp.t)
  : list (nat * ((float * float) * (float * float))) :=
  '(i, route) ← enumerate (routes a);
  omap (fun '(from_id, to_id) => (fun line => (i, line)) <$> draw_leg a from_id to_id)
       (legs route).

End Further.

(** * Properties *)

Import VRPApp.

(** ** Coordinate mapper *)

Lemma canvas_to_vrp_of_vrp_to_canvas (a : VRPApp.t) (p_x p_y : R) :
  scale_factor a ≠ 0 ->
  canvas_to_vrp_coords a (vrp_to_canvas_coords a p_x p_y).1
                         (vrp_to_canvas_coords a p_x p_y).2 = (p_x, p_y).
Proof.
  intros Hs. unfold canvas_to_vrp_coords, vrp_to_canvas_coords; cbn.
  assert (IZR (scale_factor a) <> 0%R) by (apply not_0_IZR; exact Hs).
  f_equal; field; assumption.
Qed.

(** C10. The mapper is the affine pair
    [canvas = (x * scale + width // 2, height // 2 - y * scale)] and
    [vrp = ((cx - width // 2) / scale, (height // 2 - cy) / scale)]; the
    vertical axis is inverted (a larger problem-space [y] gives a smaller
    canvas [y]); and in exact real arithmetic problem -> display -> problem
    is the identity. *)
Theorem coordinate_round_trip (a : VRPApp.t) (p_x p_y : R) :
  0 < scale_factor a ->
  vrp_to_canvas_coords a p_x p_y
    = ((p_x * IZR (scale_factor a) + IZR (canvas_width a / 2))%R,
       (IZR (canvas_height a / 2) - p_y * IZR (scale_factor a))%R)
  ∧ (∀ c_x c_y : R,
       canvas_to_vrp_coords a c_x c_y
       = (((c_x - IZR (canvas_width a / 2)) / IZR (scale_factor a))%R,
          ((IZR (canvas_height a / 2) - c_y) / IZR (scale_factor a))%R))
  ∧ (∀ q_y : R, (p_y < q_y)%R ->
       ((vrp_to_canvas_coords a p_x q_y).2 < (vrp_to_canvas_coords a p_x p_y).2)%R)
  ∧ canvas_to_vrp_coords a (vrp_to_canvas_coords a p_x p_y).1
                           (vrp_to_canvas_coords a p_x p_y).2 = (p_x, p_y).
Proof.
  intros Hs. split; [reflexivity|]. split; [reflexivity|]. split.
  - intros q_y Hlt. cbn.
    assert (0 < IZR (scale_factor a))%R by (apply IZR_lt; exact Hs).
    apply Rplus_lt_compat_l, Ropp_lt_contravar, Rmult_lt_compat_r; assumption.
  - apply canvas_to_vrp_of_vrp_to_canvas. lia.
Qed.

Lemma coordinate_round_trip_witness :
  0 < scale_factor init
  ∧ canvas_to_vrp_coords init (vrp_to_canvas_coords init 3%R 4%R).1
                              (vrp_to_canvas_coords init 3%R 4%R).2 = (3%R, 4%R).
Proof.
  split; [reflexivity|].
  apply (coordinate_round_trip init 3%R 4%R). reflexivity.
Defined.

(** On floats the round trip is exact only up to rounding: the point with
    [x = 0.1 + 0.2] comes back with [x = 0.3]. *)
Remark float_round_trip_rounds :
  let x := (PyFloat.of_int 1 / PyFloat.of_int 10
            + PyFloat.of_int 2 / PyFloat.of_int 10)%float in
  (canvas_to_vrp_coords init (vrp_to_canvas_coords init x 0%float).1
                             (vrp_to_canvas_coords init x 0%float).2).1
  = (PyFloat.of_int 3 / PyFloat.of_int 10)%float
  ∧ (x =? PyFloat.of_int 3 / PyFloat.of_int 10)%float = false.
Proof. vm_compute. split; reflexivity. Qed.

(** ** Node ids *)

(** C1. The first customer created after initialization.  The class
    attribute [id_counter] starts at 0 and the depot's id is the constant 0:
    after one click on an empty spot of the canvas the scenario holds the
    depot and one customer, both with id 0. *)
Theorem first_customer_shares_depot_id :
  (fun node => (VRPNode.id node, VRPNode.is_depot node))
    <$> nodes (on_canvas_click 500 300 init).1
  = [(0, true); (0, false)].
Proof. vm_compute. reflexivity. Qed.

(** The same for any click that does not hit the depot. *)
Lemma first_customer_id (canvas_x canvas_y : Z) :
  find_clicked init (nodes init) 0 canvas_x canvas_y = Ok None ->
  ∃ depot_node customer,
    nodes (on_canvas_click canvas_x canvas_y init).1 = [depot_node; customer]
    ∧ VRPNode.is_depot depot_node = true ∧ VRPNode.id depot_node = 0
    ∧ VRPNode.is_depot customer = false ∧ VRPNode.id customer = 0.
Proof.
  intros Hfind. unfold on_canvas_click. rewrite Hfind.
  eexists _, _. cbn. repeat split; reflexivity.
Qed.

(** ** Invariants of the editing session *)

Lemma nodes_update_skills_ui a : nodes (update_skills_ui a) = nodes a.
Proof. unfold update_skills_ui. destruct (available_skills a); reflexivity. Qed.

Lemma nodes_check_solver_results q a :
  nodes (check_solver_results q a).1 = nodes a.
Proof.
  induction q as [|m q IH]; [reflexivity|].
  destruct m; cbn; [exact IH|reflexivity|reflexivity].
Qed.

Lemma depot_first_update_selected f a :
  (∀ node, VRPNode.is_depot (f node) = VRPNode.is_depot node) ->
  (∀ node, VRPNode.id (f node) = VRPNode.id node) ->
  depot_first a -> depot_first (update_selected f a).
Proof.
  intros Hd Hi (d & cs & Hn & Hdep & Hid & Hcs).
  unfold update_selected. destruct (selected_node a) as [i|]; [|by exists d, cs].
  unfold depot_first. cbn. rewrite Hn. destruct i as [|i]; cbn.
  - exists (f d), cs. rewrite Hd, Hi. done.
  - exists d, (alter f i cs). repeat split; try done.
    apply Forall_alter; [done|]. intros node ?. by rewrite Hd.
Qed.

Lemma depot_first_same_nodes a a' :
  nodes a' = nodes a -> depot_first a -> depot_first a'.
Proof. unfold depot_first. intros ->. done. Qed.

Lemma from_dict_to_dict c node :
  (VRPNode.from_dict c (VRPNode.to_dict node)).1 = node.
Proof.
  destruct node as [i x y d w r]. unfold VRPNode.from_dict, VRPNode.to_dict, VRPNode.init.
  destruct d; cbn; by rewrite list_to_set_elements_L.
Qed.

(** The loop over the nodes of a saved preset rebuilds the saved node list. *)
Lemma load_nodes_to_dict (l : list VRPNode.t) :
  (load_nodes (VRPNode.to_dict <$> l)).1 = l.
Proof.
  unfold load_nodes.
  assert (Hgen : ∀ ns c,
            (foldl (fun '(ns, c) node_data =>
                      let '(node, c') := VRPNode.from_dict c node_data in
                      (ns ++ [node],
                       if VRPNode.is_depot node then c'
                       else Z.max c' (VRPNode.id node + 1)))
                   (ns, c) (VRPNode.to_dict <$> l)).1 = ns ++ l).
  { induction l as [|node l IH]; intros ns c; cbn [fmap list_fmap foldl].
    - by rewrite app_nil_r.
    - pose proof (from_dict_to_dict c node) as Hnode.
      destruct (VRPNode.from_dict c (VRPNode.to_dict node)) as [node' c'].
      cbn in Hnode. subst node'. rewrite IH. by rewrite <- app_assoc. }
  apply (Hgen [] 0).
Qed.

Lemma nodes_load_saved int_of_str str_of_int a saved :
  nodes (on_load_preset int_of_str (parsed (on_save_preset str_of_int saved)) a).1
  = nodes saved.
Proof.
  unfold on_load_preset, on_save_preset. cbn [p_nodes p_num_vehicles
    p_available_skills p_vehicle_skills].
  pose proof (load_nodes_to_dict (nodes saved)) as Hnodes.
  destruct (load_nodes (VRPNode.to_dict <$> nodes saved)) as [ns c].
  cbn in Hnodes. subst ns.
  destruct (parse_vehicle_skills int_of_str ∅ _); cbn; [|done].
  by rewrite nodes_update_skills_ui.
Qed.

Lemma list_remove_None x (l : list string) : list_remove x l = None <-> x ∉ l.
Proof.
  induction l as [|y l IH]; cbn.
  - split; [intros _; apply not_elem_of_nil|done].
  - rewrite not_elem_of_cons. destruct (decide (x = y)) as [->|Hne].
    + split; [done|]. intros [? _]. done.
    + destruct (list_remove x l) eqn:Hr; cbn.
      * split; [done|]. intros [_ Hl]. apply IH in Hl. done.
      * split; [|done]. intros _. split; [done|]. by apply IH.
Qed.

Lemma filter_ne_not_elem_of (x : string) (l : list string) :
  x ∉ l -> filter (fun y => y ≠ x) l = l.
Proof.
  induction l as [|y l IH]; [done|]. rewrite not_elem_of_cons. intros [Hne Hl].
  rewrite filter_cons_True by done. by rewrite IH.
Qed.

Lemma list_remove_Some_filter x (l l' : list string) :
  NoDup l -> list_remove x l = Some l' -> l' = filter (fun y => y ≠ x) l.
Proof.
  intros Hnd. revert l'.
  induction Hnd as [|y l Hy Hnd IH]; intros l'; cbn -[filter]; [done|].
  destruct (decide (x = y)) as [->|Hne].
  - intros [= <-]. rewrite filter_cons_False by (intros ?; done).
    by rewrite filter_ne_not_elem_of.
  - destruct (list_remove x l) as [k|]; cbn -[filter]; [|done]. intros [= <-].
    rewrite filter_cons_True by done. f_equal. by apply IH.
Qed.

Lemma discard_filter x (l : list string) :
  NoDup l -> discard x l = filter (fun y => y ≠ x) l.
Proof.
  intros Hnd. unfold discard. destruct (list_remove x l) as [k|] eqn:Hr; cbn.
  - by apply list_remove_Some_filter.
  - apply list_remove_None in Hr. by rewrite filter_ne_not_elem_of.
Qed.

Lemma remove_required_skill_difference skill node :
  VRPNode.remove_required_skill skill node
  = VRPNode.with_required_skills (VRPNode.required_skills node ∖ {[ skill ]}) node.
Proof.
  unfold VRPNode.remove_required_skill.
  destruct (decide (skill ∈ VRPNode.required_skills node)) as [Hin|Hin].
  - by rewrite bool_decide_eq_true_2.
  - rewrite bool_decide_eq_false_2 by done.
    destruct node as [i x y d w r]. unfold VRPNode.with_required_skills. cbn in *.
    f_equal. symmetry. apply difference_disjoint_L.
    by apply disjoint_singleton_r.
Qed.

(** The vehicle rows only add an empty list for a vehicle that had none. *)
Lemma lookup_fill_vehicles (l : list Z) (vs : gmap Z (list string)) (v : Z) :
  default [] (foldl (fun vs i => match vs !! i with
                                 | Some _ => vs
                                 | None => <[ i := [] ]> vs
                                 end) vs l !! v)
  = default [] (vs !! v)
  ∧ ∀ skills,
      foldl (fun vs i => match vs !! i with
                         | Some _ => vs
                         | None => <[ i := [] ]> vs
                         end) vs l !! v = Some skills ->
      vs !! v = Some skills ∨ skills = [].
Proof.
  revert vs. induction l as [|i l IH]; intros vs; cbn; [by split; [|left]|].
  destruct (vs !! i) eqn:Hi; [apply IH|].
  destruct (IH (<[ i := [] ]> vs)) as [IH1 IH2]. split.
  - rewrite IH1. destruct (decide (i = v)) as [->|Hne].
    + by rewrite lookup_insert_eq, Hi.
    + by rewrite lookup_insert_ne.
  - intros skills Hs. destruct (IH2 skills Hs) as [Hl|?]; [|by right].
    destruct (decide (i = v)) as [->|Hne].
    + rewrite lookup_insert_eq in Hl. right. congruence.
    + rewrite lookup_insert_ne in Hl by done. by left.
Qed.

Lemma update_skills_ui_vehicle_skills a v :
  default [] (vehicle_skills (update_skills_ui a) !! v)
  = default [] (vehicle_skills a !! v)
  ∧ ∀ skills, vehicle_skills (update_skills_ui a) !! v = Some skills ->
      vehicle_skills a !! v = Some skills ∨ skills = [].
Proof.
  unfold update_skills_ui. destruct (available_skills a); [by split; [|left]|].
  cbn. apply lookup_fill_vehicles.
Qed.

Lemma update_skills_ui_other a :
  available_skills (update_skills_ui a) = available_skills a
  ∧ num_vehicles (update_skills_ui a) = num_vehicles a
  ∧ routes (update_skills_ui a) = routes a
  ∧ selected_node (update_skills_ui a) = selected_node a
  ∧ id_counter (update_skills_ui a) = id_counter a.
Proof.
  unfold update_skills_ui.
  destruct (available_skills a) eqn:Hav; cbn; rewrite ?Hav; done.
Qed.

Section SessionInvariants.
Variable str_strip : string -> string.
Variable int_of_str : string -> option Z.
Variable str_of_int : Z -> string.

Lemma depot_first_init : depot_first init.
Proof. eexists _, []. vm_compute. repeat split; constructor. Qed.

Lemma depot_first_edit a a' :
  edit str_strip int_of_str a a' -> depot_first a -> depot_first a'.
Proof.
  intros Hstep Ha. destruct Hstep.
  - (* left click *)
    unfold on_canvas_click.
    destruct (find_clicked a (nodes a) 0 x y) as [[i|]|e|]; cbn; try done.
    destruct Ha as (d & cs & Hn & Hdep & Hid & Hcs).
    unfold depot_first. cbn. rewrite Hn. cbn.
    eexists d, (cs ++ [_]). repeat split; try done.
    apply Forall_app. split; [done|]. by constructor.
  - (* right click *)
    unfold on_canvas_right_click.
    destruct (find_clicked a (nodes a) 0 x y) as [[i|]|e|]; cbn; try done.
    destruct (nodes a !! i) as [clicked|] eqn:Hi; [|done].
    destruct (VRPNode.is_depot clicked) eqn:Hc; [done|].
    destruct Ha as (d & cs & Hn & Hdep & Hid & Hcs).
    rewrite Hn in Hi. destruct i as [|i]; cbn in Hi.
    { congruence. }
    exists d, (delete i cs). cbn. rewrite Hn. repeat split; try done.
    by apply Forall_delete.
  - (* set time window *)
    unfold on_set_time_window.
    destruct (selected_node a) eqn:Hsel; [|done].
    repeat (case_match; try done).
    cbn. by apply depot_first_update_selected.
  - by apply depot_first_update_selected.
  - unfold on_add_skill. repeat (case_match; try done). cbn.
    eapply depot_first_same_nodes; [apply nodes_update_skills_ui|done].
  - unfold on_delete_skill. repeat (case_match; try done). cbn.
    eapply depot_first_same_nodes; [apply nodes_update_skills_ui|]. cbn.
    destruct Ha as (d & cs & Hn & Hdep & Hid & Hcs).
    exists (VRPNode.remove_required_skill skill d),
           (VRPNode.remove_required_skill skill <$> cs).
    rewrite Hn. cbn. unfold VRPNode.remove_required_skill.
    repeat split; try (by case_match).
    apply Forall_fmap. eapply Forall_impl; [exact Hcs|].
    intros node Hnode. cbn. by case_match.
  - unfold on_vehicle_skill_toggle. repeat (case_match; try done).
  - unfold on_node_skill_toggle. destruct var;
      apply depot_first_update_selected; try done;
      intros node; unfold VRPNode.remove_required_skill; by case_match.
  - done.
  - done.
  - unfold on_clear_all. destruct confirm; [|done].
    destruct Ha as (d & cs & Hn & Hdep & Hid & Hcs).
    exists d, []. cbn. rewrite Hn. rewrite filter_cons_True by done.
    repeat split; try done. f_equal.
    clear Hn. induction Hcs as [|c cs Hc _ IH]; [done|].
    rewrite filter_cons_False; [exact IH|]. rewrite Hc. done.
  - eapply depot_first_same_nodes; [apply nodes_check_solver_results|done].
Qed.

Lemma ids_update_selected f a :
  (∀ node, VRPNode.id (f node) = VRPNode.id node) ->
  VRPNode.id <$> nodes (update_selected f a) = VRPNode.id <$> nodes a.
Proof.
  intros Hid. unfold update_selected. destruct (selected_node a) as [i|]; [|done].
  cbn. rewrite (list_fmap_alter VRPNode.id f (fun i => i))
    by (apply Forall_forall; intros node _; apply Hid).
  by apply list_alter_id.
Qed.

Lemma id_counter_update_selected f a :
  id_counter (update_selected f a) = id_counter a.
Proof. unfold update_selected. by destruct (selected_node a). Qed.

Lemma id_counter_update_skills_ui a :
  id_counter (update_skills_ui a) = id_counter a.
Proof. unfold update_skills_ui. by destruct (available_skills a). Qed.

Lemma id_counter_check_solver_results q a :
  id_counter (check_solver_results q a).1 = id_counter a.
Proof.
  induction q as [|m q IH]; [reflexivity|].
  destruct m; cbn; [exact IH|reflexivity|reflexivity].
Qed.

Lemma remove_required_skill_id skill node :
  VRPNode.id (VRPNode.remove_required_skill skill node) = VRPNode.id node.
Proof. unfold VRPNode.remove_required_skill. by case_match. Qed.

(** An edit changes the node ids and the id counter only by placing a
    customer, which takes the counter as its id and moves the counter by
    one, or by removing customers. *)
Lemma edit_ids a a' :
  edit str_strip int_of_str a a' ->
  depot_first a ->
  (VRPNode.id <$> nodes a' = VRPNode.id <$> nodes a ∧ id_counter a' = id_counter a)
  ∨ (VRPNode.id <$> nodes a' = (VRPNode.id <$> nodes a) ++ [id_counter a]
     ∧ id_counter a' = id_counter a + 1)
  ∨ (tail (VRPNode.id <$> nodes a') `sublist_of` tail (VRPNode.id <$> nodes a)
     ∧ id_counter a' = id_counter a).
Proof.
  intros Hstep (d & cs & Hn & Hdep & Hid & Hcs). destruct Hstep.
  - unfold on_canvas_click.
    destruct (find_clicked a (nodes a) 0 x y) as [[i|]|e|]; cbn; try by left.
    right; left. by rewrite fmap_app.
  - unfold on_canvas_right_click.
    destruct (find_clicked a (nodes a) 0 x y) as [[i|]|e|]; cbn; try by left.
    destruct (nodes a !! i) as [clicked|] eqn:Hi; [|by left].
    destruct (VRPNode.is_depot clicked) eqn:Hc; [by left|].
    right; right. cbn [fst nodes with_nodes with_selected_node id_counter].
    split; [|done]. rewrite Hn in Hi |- *.
    destruct i as [|i]; cbn in Hi; [congruence|].
    change (delete (S i) (d :: cs)) with (d :: delete i cs).
    rewrite !fmap_cons. cbn [tail]. rewrite list_fmap_delete. apply sublist_delete.
  - left. unfold on_set_time_window.
    repeat (case_match; try done). cbn.
    by rewrite ids_update_selected, id_counter_update_selected.
  - left. unfold on_clear_time_window.
    by rewrite ids_update_selected, id_counter_update_selected.
  - left. unfold on_add_skill. repeat (case_match; try done). cbn.
    by rewrite nodes_update_skills_ui, id_counter_update_skills_ui.
  - left. unfold on_delete_skill. repeat (case_match; try done). cbn.
    rewrite nodes_update_skills_ui, id_counter_update_skills_ui. cbn.
    split; [|done]. rewrite <- list_fmap_compose. apply list_fmap_ext.
    intros i node _. apply remove_required_skill_id.
  - left. unfold on_vehicle_skill_toggle. repeat (case_match; try done).
  - left. unfold on_node_skill_toggle.
    destruct var; rewrite ids_update_selected, id_counter_update_selected;
      try done; intros node; apply remove_required_skill_id.
  - by left.
  - by left.
  - unfold on_clear_all. destruct confirm; [|by left].
    right; right. cbn. split; [|done]. rewrite Hn.
    rewrite filter_cons_True by done.
    assert (filter (fun n => VRPNode.is_depot n = true) cs = []) as ->.
    { clear Hn. induction Hcs as [|c cs Hc _ IH]; [done|].
      rewrite filter_cons_False; [exact IH|]. rewrite Hc. done. }
    cbn. apply sublist_nil_l.
  - left. by rewrite nodes_check_solver_results, id_counter_check_solver_results.
Qed.

(** The id counter never decreases while the scenario is edited. *)
Lemma id_counter_edit a a' :
  edit str_strip int_of_str a a' -> depot_first a ->
  id_counter a <= id_counter a'.
Proof.
  intros Hstep Hdepot.
  destruct (edit_ids a a' Hstep Hdepot) as [[_ ->]|[[_ ->]|[_ ->]]]; lia.
Qed.

Lemma customer_ids_fresh_init : customer_ids_fresh init.
Proof. unfold customer_ids_fresh. vm_compute. repeat split; (constructor || discriminate). Qed.

Lemma customer_ids_fresh_edit a a' :
  edit str_strip int_of_str a a' ->
  depot_first a -> customer_ids_fresh a -> customer_ids_fresh a'.
Proof.
  intros Hstep Hdepot (Hc & Hnd & Hbound). unfold customer_ids_fresh.
  destruct (edit_ids a a' Hstep Hdepot)
    as [[-> ->]|[[-> ->]|[Hsub ->]]]; [done| |].
  - destruct Hdepot as (d & cs & Hn & _). rewrite Hn in Hnd, Hbound |- *.
    cbn in Hnd, Hbound |- *. split; [lia|]. split.
    + apply NoDup_app. split; [done|]. split; [|apply NoDup_singleton].
      intros i Hi Hin. apply list_elem_of_singleton in Hin. subst i.
      rewrite Forall_forall in Hbound. specialize (Hbound _ Hi). lia.
    + apply Forall_app. split.
      * eapply Forall_impl; [exact Hbound|]. cbn. intros; lia.
      * apply Forall_singleton. lia.
  - split; [done|]. split; [by eapply sublist_NoDup|].
    apply Forall_forall. intros i Hi. rewrite Forall_forall in Hbound.
    apply Hbound. by eapply sublist_subseteq.
Qed.

(** The counter that the loop over a saved preset leaves is above the id of
    every customer of the preset. *)
Lemma load_nodes_counter (l : list VRPNode.t) :
  0 <= (load_nodes (VRPNode.to_dict <$> l)).2
  ∧ Forall (fun node => VRPNode.is_depot node = false ->
                        VRPNode.id node < (load_nodes (VRPNode.to_dict <$> l)).2) l.
Proof.
  unfold load_nodes.
  assert (Hgen : ∀ ns c,
            c <= (foldl (fun '(ns, c) node_data =>
                           let '(node, c') := VRPNode.from_dict c node_data in
                           (ns ++ [node],
                            if VRPNode.is_depot node then c'
                            else Z.max c' (VRPNode.id node + 1)))
                        (ns, c) (VRPNode.to_dict <$> l)).2
            ∧ Forall (fun node => VRPNode.is_depot node = false ->
                        VRPNode.id node
                        < (foldl (fun '(ns, c) node_data =>
                           let '(node, c') := VRPNode.from_dict c node_data in
                           (ns ++ [node],
                            if VRPNode.is_depot node then c'
                            else Z.max c' (VRPNode.id node + 1)))
                        (ns, c) (VRPNode.to_dict <$> l)).2) l).
  { induction l as [|node l IH]; intros ns c; cbn [fmap list_fmap foldl].
    - split; [cbn; lia|constructor].
    - pose proof (from_dict_to_dict c node) as Hnode.
      destruct (VRPNode.from_dict c (VRPNode.to_dict node)) as [node' c'] eqn:Hfd.
      cbn in Hnode. subst node'.
      assert (Hc' : c <= c').
      { unfold VRPNode.from_dict, VRPNode.init in Hfd. cbn in Hfd.
        destruct (VRPNode.is_depot node); injection Hfd as _ <-; lia. }
      match goal with |- context [foldl ?f (?ns', ?c0) _] =>
        destruct (IH ns' c0) as [IH1 IH2] end.
      split.
      + etrans; [|exact IH1]. destruct (VRPNode.is_depot node); lia.
      + constructor; [|exact IH2].
        intros Hd. eapply Z.lt_le_trans; [|exact IH1]. rewrite Hd. lia. }
  destruct (Hgen [] 0) as [H1 H2]. split; [exact H1|exact H2].
Qed.

Lemma id_counter_load_saved a saved :
  id_counter (on_load_preset int_of_str (parsed (on_save_preset str_of_int saved)) a).1
  = (load_nodes (VRPNode.to_dict <$> nodes saved)).2.
Proof.
  unfold on_load_preset, on_save_preset. cbn [p_nodes p_num_vehicles
    p_available_skills p_vehicle_skills].
  destruct (load_nodes (VRPNode.to_dict <$> nodes saved)) as [ns c].
  destruct (parse_vehicle_skills int_of_str ∅ _); cbn; [|done].
  by rewrite id_counter_update_skills_ui.
Qed.

(** In every state of a session there is one depot, it is the first node
    and has id 0, and the customers' ids are distinct, not negative and
    below the id counter. *)
Lemma reachable_invariant a :
  reachable str_strip int_of_str str_of_int a ->
  depot_first a ∧ customer_ids_fresh a.
Proof.
  induction 1 as [|a a' _ [IHd IHf] Hstep|a saved _ _ _ [IHd IHf]].
  - split; [apply depot_first_init|apply customer_ids_fresh_init].
  - split; [by eapply depot_first_edit|by eapply customer_ids_fresh_edit].
  - split; [eapply depot_first_same_nodes; [apply nodes_load_saved|exact IHd]|].
    unfold customer_ids_fresh. rewrite nodes_load_saved, id_counter_load_saved.
    destruct IHf as (_ & Hnd & Hbound).
    destruct (load_nodes_counter (nodes saved)) as [Hc Hlt].
    split; [done|]. split; [done|].
    destruct IHd as (d & cs & Hn & _ & _ & Hcs).
    rewrite Hn in Hbound, Hlt |- *. cbn in Hbound |- *.
    apply Forall_fmap. apply Forall_fmap in Hbound.
    apply Forall_cons in Hlt as [_ Hlt].
    rewrite Forall_forall in Hbound, Hlt, Hcs. apply Forall_forall.
    intros node Hnode. cbn. specialize (Hbound node Hnode). cbn in Hbound.
    specialize (Hlt node Hnode (Hcs node Hnode)).
    split; [apply Hbound|exact Hlt].
Qed.

Lemma skill_lists_unique_same a a' :
  available_skills a' = available_skills a ->
  vehicle_skills a' = vehicle_skills a ->
  skill_lists_unique a -> skill_lists_unique a'.
Proof. unfold skill_lists_unique. by intros -> ->. Qed.

Lemma skill_lists_unique_update_skills_ui a :
  skill_lists_unique a -> skill_lists_unique (update_skills_ui a).
Proof.
  intros [Hcat Hveh].
  destruct (update_skills_ui_other a) as (Hav & _).
  split; [by rewrite Hav|]. intros v skills Hs.
  destruct (update_skills_ui_vehicle_skills a v) as [_ Hcases].
  destruct (Hcases skills Hs) as [Hold| ->]; [by eapply Hveh|constructor].
Qed.

Lemma skill_lists_unique_update_selected f a :
  skill_lists_unique a -> skill_lists_unique (update_selected f a).
Proof.
  apply skill_lists_unique_same; unfold update_selected;
    by destruct (selected_node a).
Qed.

Lemma NoDup_discard x (l : list string) : NoDup l -> NoDup (discard x l).
Proof. intros Hl. rewrite discard_filter by done. by apply NoDup_filter. Qed.

Lemma skill_lists_unique_init : skill_lists_unique init.
Proof.
  split.
  - apply (bool_decide_eq_true_1 (NoDup (available_skills init))).
    vm_compute. reflexivity.
  - apply (bool_decide_eq_true_1
             (map_Forall (fun _ skills => NoDup skills) (vehicle_skills init))).
    vm_compute. reflexivity.
Qed.

Lemma skill_lists_unique_edit a a' :
  edit str_strip int_of_str a a' ->
  skill_lists_unique a -> skill_lists_unique a'.
Proof.
  intros Hstep Ha. pose proof Ha as [Hcat Hveh]. destruct Hstep.
  - unfold on_canvas_click.
    destruct (find_clicked a (nodes a) 0 x y) as [[i|]|e|]; cbn; done.
  - unfold on_canvas_right_click.
    destruct (find_clicked a (nodes a) 0 x y) as [[i|]|e|]; cbn; try done.
    destruct (nodes a !! i) as [clicked|]; [|done].
    destruct (VRPNode.is_depot clicked); done.
  - unfold on_set_time_window. repeat (case_match; try done). cbn.
    by apply skill_lists_unique_update_selected.
  - by apply skill_lists_unique_update_selected.
  - unfold on_add_skill. case_bool_decide; [done|].
    case_bool_decide as Hin; [done|]. cbn.
    apply skill_lists_unique_update_skills_ui. split; [|done]. cbn.
    apply NoDup_app. split; [done|]. split; [|apply NoDup_singleton].
    intros s Hs Hs'. apply list_elem_of_singleton in Hs'. by subst s.
  - unfold on_delete_skill. destruct confirm; [|done].
    destruct (list_remove skill (available_skills a)) as [skills'|] eqn:Hrm; [|done].
    cbn. apply skill_lists_unique_update_skills_ui. split; cbn.
    + apply list_remove_Some_filter in Hrm; [|done]. subst skills'.
      by apply NoDup_filter.
    + intros v skills. rewrite lookup_fmap.
      destruct (vehicle_skills a !! v) as [l|] eqn:Hl; cbn; [|done].
      intros [= <-]. apply NoDup_discard. by eapply Hveh.
  - unfold on_vehicle_skill_toggle. destruct var.
    + assert (Hvs1 : ∀ v skills,
                match vehicle_skills a !! vehicle_id with
                | Some _ => vehicle_skills a
                | None => <[ vehicle_id := [] ]> (vehicle_skills a)
                end !! v = Some skills -> NoDup skills).
      { intros v skills. destruct (vehicle_skills a !! vehicle_id) eqn:Hv; [apply Hveh|].
        destruct (decide (vehicle_id = v)) as [->|Hne].
        - rewrite lookup_insert_eq. intros [= <-]. constructor.
        - rewrite lookup_insert_ne by done. apply Hveh. }
      case_bool_decide as Hin; split; cbn; try done.
      intros v skills. destruct (decide (vehicle_id = v)) as [->|Hne].
      * rewrite lookup_insert_eq. intros [= <-].
        apply NoDup_app. split; [|split; [|apply NoDup_singleton]].
        -- destruct (_ !! v) as [l|] eqn:Hl; cbn; [by eapply Hvs1|constructor].
        -- intros s Hs Hs'. apply list_elem_of_singleton in Hs'. by subst s.
      * rewrite lookup_insert_ne by done. apply Hvs1.
    + destruct (vehicle_skills a !! vehicle_id) as [l|] eqn:Hl; [|done].
      split; cbn; [done|]. intros v skills.
      destruct (decide (vehicle_id = v)) as [->|Hne].
      * rewrite lookup_insert_eq. intros [= <-]. apply NoDup_discard. by eapply Hveh.
      * rewrite lookup_insert_ne by done. apply Hveh.
  - unfold on_node_skill_toggle.
    destruct var; by apply skill_lists_unique_update_selected.
  - unfold on_vehicle_count_change. split; cbn; [done|].
    intros v skills Hs.
    destruct (lookup_fill_vehicles (seqZ 0 new_count) (vehicle_skills a) v)
      as [_ Hcases].
    destruct (Hcases skills Hs) as [Hold| ->]; [by eapply Hveh|constructor].
  - done.
  - unfold on_clear_all. by destruct confirm.
  - eapply skill_lists_unique_same; [| |exact Ha].
    + induction q as [|[]]; cbn; done.
    + induction q as [|[]]; cbn; done.
Qed.

(** Every skill list that loading a saved mapping produces is one of the
    saved lists. *)
Lemma parse_vehicle_skills_values items :
  ∀ acc m, parse_vehicle_skills int_of_str acc items = Some m ->
    ∀ k skills, m !! k = Some skills ->
      acc !! k = Some skills ∨ skills ∈ items.*2.
Proof.
  induction items as [|[key v] items IH]; intros acc m; cbn.
  - intros [= <-] k skills Hk. by left.
  - destruct (int_of_str key) as [i|]; [|done]. intros Hm k skills Hk.
    destruct (IH _ _ Hm k skills Hk) as [Hacc|Hin].
    + destruct (decide (i = k)) as [->|Hne].
      * rewrite lookup_insert_eq in Hacc. injection Hacc as <-. right. left.
      * rewrite lookup_insert_ne in Hacc by done. by left.
    + right. by right.
Qed.

Lemma skill_lists_unique_load_saved a saved :
  skill_lists_unique a -> skill_lists_unique saved ->
  skill_lists_unique
    (on_load_preset int_of_str (parsed (on_save_preset str_of_int saved)) a).1.
Proof.
  intros [_ Hveh] [Hcat' Hveh'].
  unfold on_load_preset, on_save_preset. cbn [p_nodes p_num_vehicles
    p_available_skills p_vehicle_skills].
  destruct (load_nodes (VRPNode.to_dict <$> nodes saved)) as [ns c].
  destruct (parse_vehicle_skills int_of_str ∅ _) as [m|] eqn:Hm; cbn; [|done].
  apply skill_lists_unique_update_skills_ui. split; cbn; [done|].
  intros k skills Hk.
  destruct (parse_vehicle_skills_values _ _ _ Hm k skills Hk) as [Hempty|Hin].
  { by rewrite lookup_empty in Hempty. }
  apply list_elem_of_fmap in Hin as ([key v] & -> & Hin).
  apply list_elem_of_fmap in Hin as ([k0 v0] & [= -> ->] & Hin).
  apply elem_of_map_to_list in Hin. by eapply Hveh'.
Qed.

(** In every state of a session the catalog and the vehicles' skill lists
    hold each skill once. *)
Lemma reachable_skill_lists_unique a :
  reachable str_strip int_of_str str_of_int a -> skill_lists_unique a.
Proof.
  induction 1 as [|a a' _ IH Hstep|a saved _ IHa _ IHs].
  - apply skill_lists_unique_init.
  - by eapply skill_lists_unique_edit.
  - by apply skill_lists_unique_load_saved.
Qed.

Lemma reachable_depot_first a :
  reachable str_strip int_of_str str_of_int a -> depot_first a.
Proof. intros Hr. by apply reachable_invariant in Hr as [? _]. Qed.

End SessionInvariants.

(** ** Solve orchestrator *)

Lemma solver_calls_deliver q calls extracted :
  solver_calls (deliver q calls extracted) = calls.
Proof. destruct extracted as [[routes d]|e|]; reflexivity. Qed.

(** Split a run into its cases, one goal for each way through
    [run_vrp_solver]. *)
Ltac destruct_run :=
  unfold run_vrp_solver, run_vrp_solver_live, deliver;
  repeat match goal with
    | |- context [match prepare_solver_data ?a with _ => _ end] =>
        let H := fresh "Hdata" in
        destruct (prepare_solver_data a) as [?data|?e|] eqn:H
    | |- context [match create_routing_model ?lib ?r with _ => _ end] =>
        let H := fresh "Hcreate" in
        destruct (create_routing_model lib r) as [[]|?e|] eqn:H
    | |- context [match (if has_time_windows ?a then add_time_windows ?lib ?r
                         else Ok tt) with _ => _ end] =>
        let H := fresh "Hadd" in
        destruct (if has_time_windows a then add_time_windows lib r else Ok tt)
          as [[]|?e|] eqn:H
    | |- context [match (if has_skills ?a then set_allowed_vehicles ?lib ?r
                         else Ok tt) with _ => _ end] =>
        let H := fresh "Hset" in
        destruct (if has_skills a then set_allowed_vehicles lib r else Ok tt)
          as [[]|?e|] eqn:H
    | |- context [match (if has_skills ?a then ?u else None) with _ => _ end] =>
        let H := fresh "Hcheck" in
        destruct (if has_skills a then u else None) as [[? ?]|] eqn:H
    | |- context [match extract_routes ?s ?l ?v ?r ?m with _ => _ end] =>
        let H := fresh "Hextract" in
        destruct (extract_routes s l v r m) as [[? ?]|?e|] eqn:H
    | |- context [match ?solve ?r ?p with Some _ => _ | None => _ end] =>
        let H := fresh "Hsolve" in
        destruct (solve r p) as [?solution|] eqn:H
    | |- context [if bool_decide ?P then _ else _] =>
        let H := fresh "Hdecide" in
        destruct (bool_decide P) eqn:H
    | |- context [if has_time_windows ?a then _ else _] =>
        let H := fresh "Hwindows" in
        destruct (has_time_windows a) eqn:H
    | |- context [if has_skills ?a then _ else _] =>
        let H := fresh "Hskills" in
        destruct (has_skills a) eqn:H
    end;
  cbn [queue solver_calls app].

(** Go through the elements of a list that is written out. *)
Ltac invert_elem_of H :=
  repeat (apply elem_of_cons in H as [H|H];
          [try discriminate H|]);
  try (by apply elem_of_nil in H).

(** The calls of one run: none, the first attempt alone, or the first
    attempt followed by the fallback attempt on the same routing model. *)
Lemma solver_calls_shape (lib : RoutingLibrary) (solve : Solver)
    (a a1 a2 : VRPApp.t) :
  solver_calls (run_vrp_solver_live lib solve a a1 a2) = []
  ∨ ∃ data,
      prepare_solver_data a = Ok data
      ∧ (solver_calls (run_vrp_solver_live lib solve a a1 a2)
           = [(build_routing a data, search_parameters a)]
         ∨ solver_calls (run_vrp_solver_live lib solve a a1 a2)
           = [(build_routing a data, search_parameters a);
              (build_routing a data, fallback_parameters)]).
Proof.
  unfold run_vrp_solver_live.
  destruct (prepare_solver_data a) as [data|e|]; [|by left..].
  destruct (create_routing_model lib (created_routing data)) as [[]|e|];
    [|by left..].
  destruct (if has_time_windows a
            then add_time_windows lib (windowed_routing a data) else Ok tt)
    as [[]|e|]; [|by left..].
  destruct (if has_skills a then unserved_node a (data_num_vehicles data) else None)
    as [[i node]|]; [by left|].
  destruct (if has_skills a then set_allowed_vehicles lib (build_routing a data)
            else Ok tt) as [[]|e|]; [|by left..].
  right. exists data. split; [done|].
  destruct (solve (build_routing a data) (search_parameters a)).
  { left. apply solver_calls_deliver. }
  repeat (case_match; try (by left)).
  - right. apply solver_calls_deliver.
  - by right.
Qed.

Lemma first_call_parameters (lib : RoutingLibrary) (solve : Solver)
    (a a1 a2 : VRPApp.t) routing p :
  head (solver_calls (run_vrp_solver_live lib solve a a1 a2)) = Some (routing, p) ->
  p = search_parameters a.
Proof.
  destruct (solver_calls_shape lib solve a a1 a2) as [Hc|(data & _ & [Hc|Hc])];
    rewrite Hc; cbn [head]; congruence.
Qed.

Lemma search_parameters_eq (a : VRPApp.t) :
  search_parameters a
  = let refine := has_time_windows a || has_skills a
                  || bool_decide (15 < length (nodes a))%nat in
    mk_parameters
      (if bool_decide (20 < length (nodes a))%nat then SAVINGS else PATH_CHEAPEST_ARC)
      (if refine then GUIDED_LOCAL_SEARCH else UNSET_METAHEURISTIC)
      (if refine then 15 else 10).
Proof.
  unfold search_parameters.
  destruct (has_time_windows a || has_skills a
            || bool_decide (15 < length (nodes a))%nat);
    destruct (bool_decide (20 < length (nodes a))%nat); reflexivity.
Qed.

(** C4. Strategy policy of the first attempt: cheapest-arc construction up to
    20 nodes and savings above; guided local search exactly when a node has
    a time window, or a node has required skills, or there are more than 15
    nodes; a time limit of 15 with the metaheuristic and of 10 without; and
    these are the parameters of the first solver call of every run. *)
Theorem strategy_policy (lib : RoutingLibrary) (solve : Solver) (a : VRPApp.t) :
  let n := length (nodes a) in
  let p := search_parameters a in
  let refine :=
    Exists (fun node => is_Some (VRPNode.time_window node)) (nodes a)
    ∨ Exists (fun node => VRPNode.required_skills node ≠ ∅) (nodes a)
    ∨ (15 < n)%nat in
  ((n <= 20)%nat -> first_solution_strategy p = PATH_CHEAPEST_ARC)
  ∧ ((20 < n)%nat -> first_solution_strategy p = SAVINGS)
  ∧ (local_search_metaheuristic p = GUIDED_LOCAL_SEARCH <-> refine)
  ∧ (refine -> time_limit_seconds p = 15)
  ∧ (¬ refine ->
       local_search_metaheuristic p = UNSET_METAHEURISTIC
       ∧ time_limit_seconds p = 10)
  ∧ (∀ routing p',
       head (solver_calls (run_vrp_solver lib solve a)) = Some (routing, p') ->
       p' = p).
Proof.
  intros n p refine.
  assert (Hrefine : has_time_windows a || has_skills a
                    || bool_decide (15 < length (nodes a))%nat = true <-> refine).
  { unfold refine, has_time_windows, has_skills, n.
    rewrite !orb_true_iff, !bool_decide_eq_true. tauto. }
  subst p. rewrite search_parameters_eq. cbn zeta. subst n.
  split; [intros; cbn; by rewrite bool_decide_eq_false_2 by lia|].
  split; [intros; cbn; by rewrite bool_decide_eq_true_2 by lia|].
  destruct (has_time_windows a || has_skills a
            || bool_decide (15 < length (nodes a))%nat) eqn:Hb; cbn.
  - assert refine by (apply Hrefine; reflexivity).
    split; [tauto|]. split; [done|]. split; [tauto|].
    intros routing p' Hhead.
    rewrite (first_call_parameters _ _ _ _ _ _ _ Hhead), search_parameters_eq.
    cbn zeta. by rewrite Hb.
  - assert (¬ refine) by (rewrite <- Hrefine; congruence).
    split; [split; [done|tauto]|]. split; [tauto|]. split; [done|].
    intros routing p' Hhead.
    rewrite (first_call_parameters _ _ _ _ _ _ _ Hhead), search_parameters_eq.
    cbn zeta. by rewrite Hb.
Qed.

Lemma prepare_solver_data_fields a data :
  prepare_solver_data a = Ok data ->
  data_num_vehicles data = num_vehicles a ∧ depot data = 0.
Proof.
  unfold prepare_solver_data.
  destruct (traverse _ _) as [m|e|]; cbn; [|done..].
  intros [= <-]. done.
Qed.


(** ** Skill eligibility *)

Lemma has_all_skills_superset a v_id node :
  has_all_skills a v_id node
  <-> VRPNode.required_skills node
        ⊆ (list_to_set (default [] (vehicle_skills a !! v_id)) : gset string).
Proof.
  unfold has_all_skills, set_Forall. rewrite elem_of_subseteq.
  by setoid_rewrite elem_of_list_to_set.
Qed.

(** The eligible vehicles of a node are the vehicles of the fleet whose skill
    list holds every required skill of the node. *)
Lemma elem_of_valid_vehicles a n node v_id :
  v_id ∈ valid_vehicles a n node
  <-> 0 <= v_id < n
      ∧ VRPNode.required_skills node
          ⊆ (list_to_set (default [] (vehicle_skills a !! v_id)) : gset string).
Proof.
  unfold valid_vehicles.
  rewrite list_elem_of_filter, elem_of_seqZ, has_all_skills_superset. tauto.
Qed.

Lemma valid_vehicles_nil a n node :
  valid_vehicles a n node = []
  <-> ∀ v_id, 0 <= v_id < n ->
        ¬ VRPNode.required_skills node
            ⊆ (list_to_set (default [] (vehicle_skills a !! v_id)) : gset string).
Proof.
  split.
  - intros Hnil v_id Hv Hsub.
    assert (Hin : v_id ∈ valid_vehicles a n node)
      by (apply elem_of_valid_vehicles; done).
    rewrite Hnil in Hin. by apply not_elem_of_nil in Hin.
  - intros Hnone. destruct (valid_vehicles a n node) as [|v_id l] eqn:Hv; [done|].
    assert (Hin : v_id ∈ valid_vehicles a n node) by (rewrite Hv; left).
    apply elem_of_valid_vehicles in Hin as [Hr Hsub]. by destruct (Hnone v_id).
Qed.

(** C2 (amended).  Build-time skill infeasibility.  When some node declares
    required skills and some node's required skills are held in full by no
    vehicle of the fleet, the run makes no solver call.  What it reports
    depends on the steps that come before the skill check: building the
    distance matrix, creating the routing model with its "Distance"
    dimension, and adding the time windows when a node has one.  When these
    return, the run reports the named error for the first node of the node
    list that declares skills no vehicle holds in full, with that node's id
    and skills.  When one of them raises, the run reports "Error during
    solving" for that exception instead; when one of them ends the process,
    the run reports nothing. *)
Theorem build_time_skill_infeasibility (lib : RoutingLibrary) (solve : Solver)
    (a : VRPApp.t) :
  Exists (fun node => VRPNode.required_skills node ≠ ∅) (nodes a) ->
  (∃ node, node ∈ nodes a
     ∧ ∀ v_id, 0 <= v_id < num_vehicles a ->
         ¬ VRPNode.required_skills node
             ⊆ (list_to_set (default [] (vehicle_skills a !! v_id)) : gset string)) ->
  let unserved node :=
    VRPNode.required_skills node ≠ ∅
    ∧ ∀ v_id, 0 <= v_id < num_vehicles a ->
        ¬ VRPNode.required_skills node
            ⊆ (list_to_set (default [] (vehicle_skills a !! v_id)) : gset string) in
  let before_check :=
    data ← prepare_solver_data a;
    _ ← create_routing_model lib (created_routing data);
    if has_time_windows a
    then add_time_windows lib (windowed_routing a data) else Ok tt in
  (∀ a1 a2, solver_calls (run_vrp_solver_live lib solve a a1 a2) = [])
  ∧ ∃ i node,
      nodes a !! i = Some node
      ∧ unserved node
      ∧ (∀ j node', nodes a !! j = Some node' -> (j < i)%nat -> ¬ unserved node')
      ∧ ∀ a1 a2,
          run_vrp_solver_live lib solve a a1 a2
          = match before_check with
            | Ok _ =>
                mk_run [started a;
                        error (no_vehicle_has_skills (VRPNode.id node)
                                 (VRPNode.required_skills node))]
                       []
            | Raise e => mk_run [started a; error (error_during_solving e)] []
            | Diverge => mk_run [started a] []
            end.
Proof.
  intros Hskills (bad & Hbad & Hnone) unserved before_check.
  (* a node that declares skills and has no eligible vehicle *)
  assert (∃ node, node ∈ nodes a ∧ VRPNode.required_skills node ≠ ∅
                  ∧ valid_vehicles a (num_vehicles a) node = [])
    as (node & Hnode & Hreq & Hvalid).
  { destruct (decide (VRPNode.required_skills bad = ∅)) as [Hempty|Hne].
    - apply Exists_exists in Hskills as (node & Hnode & Hreq).
      exists node. split; [done|]. split; [done|].
      apply valid_vehicles_nil. intros v_id Hv _.
      apply (Hnone v_id Hv). rewrite Hempty. apply empty_subseteq.
    - exists bad. split; [done|]. split; [done|]. by apply valid_vehicles_nil. }
  destruct (list_find_elem_of
              (fun node => VRPNode.required_skills node ≠ ∅
                           ∧ valid_vehicles a (num_vehicles a) node = [])
              (nodes a) node Hnode (conj Hreq Hvalid)) as [[i first] Hfind].
  pose proof Hfind as Hfirst.
  apply list_find_Some in Hfirst as (Hi & [Hfreq Hfvalid] & Hbefore).
  assert (Hrun : ∀ a1 a2,
             run_vrp_solver_live lib solve a a1 a2
             = match before_check with
               | Ok _ =>
                   mk_run [started a;
                           error (no_vehicle_has_skills (VRPNode.id first)
                                    (VRPNode.required_skills first))]
                          []
               | Raise e => mk_run [started a; error (error_during_solving e)] []
               | Diverge => mk_run [started a] []
               end).
  { intros a1 a2. subst before_check.
    unfold run_vrp_solver_live. fold (started a).
    destruct (prepare_solver_data a) as [data|e|] eqn:Hdata; [|done..].
    apply prepare_solver_data_fields in Hdata as [Hnv _].
    change (Ok data ≫= _)
      with (_ ← create_routing_model lib (created_routing data);
            if has_time_windows a
            then add_time_windows lib (windowed_routing a data) else Ok tt).
    destruct (create_routing_model lib (created_routing data)) as [[]|e|];
      [|done..].
    change (Ok () ≫= _)
      with (if has_time_windows a
            then add_time_windows lib (windowed_routing a data) else Ok tt).
    destruct (if has_time_windows a
              then add_time_windows lib (windowed_routing a data) else Ok tt)
      as [[]|e|]; [|done..].
    assert (has_skills a = true) as -> by by apply bool_decide_eq_true.
    rewrite Hnv. unfold unserved_node. rewrite Hfind. done. }
  split.
  { intros a1 a2. rewrite Hrun. by destruct before_check as [[]|e|]. }
  exists i, first. split; [exact Hi|].
  split; [split; [exact Hfreq|by apply valid_vehicles_nil]|].
  split; [|exact Hrun].
  intros j node' Hj Hlt [Hr Hn]. apply (Hbefore j node' Hj Hlt).
  split; [exact Hr|by apply valid_vehicles_nil].
Qed.

(** ** Float arithmetic: a difference and its mirror have the same square

    The facts come from the specification of the binary64 operations
    ([sub_spec], [mul_spec]). *)







(** ** Problem builder *)

Lemma traverse_Ok {A B} (f : A -> Outcome B) (l : list A) (k : list B) :
  traverse f l = Ok k <-> Forall2 (fun a b => f a = Ok b) l k.
Proof.
  revert k. induction l as [|a l IH]; intros k; cbn.
  - split; [intros [= <-]; constructor|by inversion 1].
  - destruct (f a) as [b|e|] eqn:Hfa; cbn.
    + destruct (traverse f l) as [bs|e|] eqn:Htr; cbn.
      * split.
        -- intros [= <-]. constructor; [done|]. by apply IH.
        -- inversion 1 as [|? b' ? bs' Hb Hbs]; subst.
           apply IH in Hbs. congruence.
      * split; [done|]. inversion 1 as [|? b' ? bs' Hb Hbs]; subst.
        by apply IH in Hbs.
      * split; [done|]. inversion 1 as [|? b' ? bs' Hb Hbs]; subst.
        by apply IH in Hbs.
    + split; [done|]. inversion 1; congruence.
    + split; [done|]. inversion 1; congruence.
Qed.


Lemma lookup_enumerate {A} (l : list A) (i : nat) :
  enumerate l !! i = (fun x => (i, x)) <$> l !! i.
Proof. unfold enumerate. apply list_lookup_imap. Qed.

Lemma elem_of_enumerate {A} (l : list A) (i : nat) (x : A) :
  (i, x) ∈ enumerate l <-> l !! i = Some x.
Proof.
  rewrite list_elem_of_lookup. setoid_rewrite lookup_enumerate. split.
  - intros (k & Hk). destruct (l !! k) eqn:Hlk; cbn in Hk; congruence.
  - intros Hi. exists i. by rewrite Hi.
Qed.


(** ** The entry as the specification words it *)


Lemma math_sqrt_Ok (x r : float) :
  PyFloat.math_sqrt x = Ok r -> r = PrimFloat.sqrt x.
Proof.
  unfold PyFloat.math_sqrt. cbn zeta. intros Hr.
  repeat case_match; congruence.
Qed.



Lemma distance_row_spec ns i node_i row :
  distance_row ns i node_i = Ok row ->
  length row = length ns
  ∧ ∀ j node_j, ns !! j = Some node_j ->
      ∃ d, row !! j = Some d
           ∧ (if bool_decide (i = j) then Ok 0 else scaled_distance node_i node_j)
             = Ok d.
Proof.
  unfold distance_row. rewrite traverse_Ok. intros Hrow. split.
  - apply Forall2_length in Hrow. unfold enumerate in Hrow.
    by rewrite length_imap in Hrow.
  - intros j node_j Hj.
    destruct (Forall2_lookup_l _ _ _ j (j, node_j) Hrow) as (d & Hd & Hf).
    { by rewrite lookup_enumerate, Hj. }
    by exists d.
Qed.

Lemma prepare_solver_data_spec a data :
  prepare_solver_data a = Ok data ->
  length (distance_matrix data) = length (nodes a)
  ∧ ∀ i node_i, nodes a !! i = Some node_i ->
      ∃ row, distance_matrix data !! i = Some row
             ∧ distance_row (nodes a) i node_i = Ok row.
Proof.
  unfold prepare_solver_data.
  destruct (traverse _ _) as [m|e|] eqn:Hm; cbn; [|done..].
  intros [= <-]. cbn. apply traverse_Ok in Hm. split.
  - apply Forall2_length in Hm. unfold enumerate in Hm.
    by rewrite length_imap in Hm.
  - intros i node_i Hi.
    destruct (Forall2_lookup_l _ _ _ i (i, node_i) Hm) as (row & Hrow & Hf).
    { by rewrite lookup_enumerate, Hi. }
    by exists row.
Qed.






(** ** Time-window validation *)

Section TimeWindow.
Variable str_strip : string -> string.
Variable int_of_str : string -> option Z.

(** Python's [int("")] raises [ValueError]. *)
Hypothesis int_of_empty : int_of_str "" = None.

Lemma on_set_time_window_valid a i start_entry end_entry w :
  selected_node a = Some i ->
  valid_time_window str_strip int_of_str start_entry end_entry w ->
  on_set_time_window str_strip int_of_str start_entry end_entry a
  = (with_nodes (alter (VRPNode.with_time_window (Some w)) i (nodes a)) a, []).
Proof.
  intros Hsel (Hs & He & Hlt & Hpos). destruct w as [s e]; cbn in *.
  unfold on_set_time_window. rewrite Hsel.
  assert (str_strip start_entry ≠ ""%string) by (intros Heq; congruence).
  assert (str_strip end_entry ≠ ""%string) by (intros Heq; congruence).
  rewrite !bool_decide_eq_false_2 by done. cbn. rewrite Hs, He.
  rewrite !bool_decide_eq_false_2 by lia.
  unfold update_selected. by rewrite Hsel.
Qed.

Lemma on_set_time_window_invalid a start_entry end_entry :
  (¬ ∃ w, valid_time_window str_strip int_of_str start_entry end_entry w) ->
  is_Some (selected_node a) ->
  ∃ message,
    on_set_time_window str_strip int_of_str start_entry end_entry a
    = (a, [showwarning "Invalid Time Window" message]).
Proof.
  intros Hinvalid [i Hsel]. unfold on_set_time_window. rewrite Hsel.
  destruct (bool_decide (str_strip start_entry = ""%string)
            || bool_decide (str_strip end_entry = ""%string)); [by eexists|].
  destruct (int_of_str (str_strip start_entry)) as [s|] eqn:Hs; [|by eexists].
  destruct (int_of_str (str_strip end_entry)) as [e|] eqn:He; [|by eexists].
  case_bool_decide; [by eexists|]. case_bool_decide; [by eexists|].
  destruct Hinvalid. exists (s, e). unfold valid_time_window. cbn. repeat split; (done || lia).
Qed.

Lemma valid_window_dec start_entry end_entry :
  (∃ w, valid_time_window str_strip int_of_str start_entry end_entry w)
  ∨ ¬ ∃ w, valid_time_window str_strip int_of_str start_entry end_entry w.
Proof.
  unfold valid_time_window.
  destruct (int_of_str (str_strip start_entry)) as [s|] eqn:Hs;
    [|right; intros [w (? & _)]; congruence].
  destruct (int_of_str (str_strip end_entry)) as [e|] eqn:He;
    [|right; intros [w (_ & ? & _)]; congruence].
  destruct (decide (s < e ∧ 0 <= s)) as [[? ?]|Hno].
  - left. by exists (s, e).
  - right. intros [[s' e'] (Hs' & He' & ? & ?)]. cbn in *.
    apply Hno. split; congruence.
Qed.

(** C9. Time-window validation on the selected node.  The handler stores the
    window exactly when both entries parse as integers with [start < end]
    and [0 <= start]; on any other input it shows a warning and returns the
    application unchanged; so whenever the node's window differs from the
    one it had, the new window satisfies [start < end] and [0 <= start]. *)
Theorem set_time_window_validation (a : VRPApp.t) (i : nat) (node : VRPNode.t)
    (start_entry end_entry : string) :
  selected_node a = Some i ->
  nodes a !! i = Some node ->
  let result := on_set_time_window str_strip int_of_str start_entry end_entry a in
  (∀ w, valid_time_window str_strip int_of_str start_entry end_entry w ->
     result.2 = []
     ∧ result.1 = with_nodes (<[ i := VRPNode.with_time_window (Some w) node ]> (nodes a)) a
     ∧ nodes result.1 !! i = Some (VRPNode.with_time_window (Some w) node))
  ∧ ((¬ ∃ w, valid_time_window str_strip int_of_str start_entry end_entry w) ->
     result.1 = a
     ∧ ∃ message, result.2 = [showwarning "Invalid Time Window" message])
  ∧ (∀ node', nodes result.1 !! i = Some node' ->
       VRPNode.time_window node' ≠ VRPNode.time_window node ->
       ∃ w, VRPNode.time_window node' = Some w ∧ w.1 < w.2 ∧ 0 <= w.1).
Proof.
  intros Hsel Hnode result.
  assert (Hvalid : ∀ w, valid_time_window str_strip int_of_str start_entry end_entry w ->
            result = (with_nodes (<[ i := VRPNode.with_time_window (Some w) node ]>
                                    (nodes a)) a, [])).
  { intros w Hw. subst result. rewrite (on_set_time_window_valid a i _ _ w) by done.
    f_equal. f_equal. rewrite list_insert_alter.
    apply list_alter_ext; [|done]. intros node' Hnode'. congruence. }
  split; [|split].
  - intros w Hw. rewrite (Hvalid w Hw). cbn. repeat split.
    apply list_lookup_insert_eq. by eapply lookup_lt_Some.
  - intros Hinvalid.
    destruct (on_set_time_window_invalid a start_entry end_entry Hinvalid)
      as [message Hr]; [by rewrite Hsel|].
    subst result. rewrite Hr. cbn. split; [done|by exists message].
  - intros node' Hnode' Hchanged.
    destruct (valid_window_dec start_entry end_entry) as [[w Hw]|Hinvalid].
    + rewrite (Hvalid w Hw) in Hnode'. cbn in Hnode'.
      rewrite list_lookup_insert_eq in Hnode' by by eapply lookup_lt_Some.
      injection Hnode' as <-. exists w. cbn. destruct Hw as (_ & _ & ? & ?). done.
    + destruct (on_set_time_window_invalid a start_entry end_entry Hinvalid)
        as [message Hr]; [by rewrite Hsel|].
      subst result. rewrite Hr in Hnode'. cbn in Hnode'. congruence.
Qed.

End TimeWindow.

(** ** Skill catalog *)

(** C8. Skill-deletion cascade.  In a scenario whose catalog and vehicle
    skill lists hold each skill once, deleting a skill of the catalog (and
    confirming the dialog) leaves the skill in no catalog position, no
    vehicle's list and no node's required set; the catalog and every
    vehicle's skills are the old ones without that skill, in the same
    order; every node keeps its other required skills and all its other
    fields; the node list, vehicle count, routes, selection and id counter
    are unchanged. *)
Theorem delete_skill_cascade (a : VRPApp.t) (skill : string) :
  skill ∈ available_skills a ->
  NoDup (available_skills a) ->
  (∀ v skills, vehicle_skills a !! v = Some skills -> NoDup skills) ->
  let result := on_delete_skill skill true a in
  result.2 = []
  ∧ (skill ∉ available_skills result.1)
  ∧ (∀ v skills, vehicle_skills result.1 !! v = Some skills -> skill ∉ skills)
  ∧ (∀ node, node ∈ nodes result.1 -> skill ∉ VRPNode.required_skills node)
  ∧ available_skills result.1 = filter (fun s => s ≠ skill) (available_skills a)
  ∧ (∀ v, default [] (vehicle_skills result.1 !! v)
          = filter (fun s => s ≠ skill) (default [] (vehicle_skills a !! v)))
  ∧ nodes result.1
    = ((fun node => VRPNode.with_required_skills
                      (VRPNode.required_skills node ∖ {[ skill ]}) node)
         <$> nodes a)
  ∧ num_vehicles result.1 = num_vehicles a
  ∧ routes result.1 = routes a
  ∧ selected_node result.1 = selected_node a
  ∧ id_counter result.1 = id_counter a.
Proof.
  intros Hin Hnd Hvnd result. subst result. unfold on_delete_skill.
  destruct (list_remove skill (available_skills a)) as [skills'|] eqn:Hrm;
    [|by apply list_remove_None in Hrm].
  apply list_remove_Some_filter in Hrm; [|done]. subst skills'. cbn [fst snd].
  set (a3 := with_nodes _ _).
  destruct (update_skills_ui_other a3) as (Hav & Hnv & Hro & Hse & Hid).
  rewrite Hav, Hnv, Hro, Hse, Hid, nodes_update_skills_ui. cbn.
  assert (Hveh : ∀ v, default [] ((discard skill <$> vehicle_skills a) !! v)
                      = filter (fun s => s ≠ skill) (default [] (vehicle_skills a !! v))).
  { intros v. rewrite lookup_fmap. destruct (vehicle_skills a !! v) as [l|] eqn:Hl; cbn.
    - apply discard_filter. by eapply Hvnd.
    - done. }
  split; [done|]. split.
  { rewrite list_elem_of_filter. intros [? _]. done. }
  split.
  { intros v skills Hs.
    destruct (update_skills_ui_vehicle_skills a3 v) as [_ Hcases].
    destruct (Hcases skills Hs) as [Hold| ->]; [|apply not_elem_of_nil].
    cbn in Hold. specialize (Hveh v). rewrite Hold in Hveh. cbn in Hveh.
    rewrite Hveh, list_elem_of_filter. intros [? _]. done. }
  split.
  { intros node Hnode. apply list_elem_of_fmap in Hnode as (node0 & -> & _).
    rewrite remove_required_skill_difference. cbn.
    rewrite elem_of_difference, elem_of_singleton. tauto. }
  split; [done|]. split.
  { intros v. destruct (update_skills_ui_vehicle_skills a3 v) as [-> _]. apply Hveh. }
  split; [|done].
  apply list_fmap_ext. intros i node _. apply remove_required_skill_difference.
Qed.

(** ** Loading a preset *)

(** C6, as stated, fails: on the sample session a preset without the key
    "nodes" is reported as a load error, and the node list, the routes and
    the id counter have been reset by then. *)
Lemma load_without_nodes_clears_scenario :
  (on_load_preset parse_decimal (parsed preset_without_nodes) two_customers).2
  = [load_error (KeyError "nodes")]
  ∧ (on_load_preset parse_decimal (parsed preset_without_nodes) two_customers).1
    ≠ two_customers
  ∧ length (nodes two_customers) = 3%nat
  ∧ nodes (on_load_preset parse_decimal (parsed preset_without_nodes)
                          two_customers).1 = [].
Proof.
  split; [vm_compute; reflexivity|]. split; [|split; vm_compute; reflexivity].
  intros Heq. apply (f_equal (fun a => length (nodes a))) in Heq.
  vm_compute in Heq. discriminate Heq.
Qed.

(** C6, amended.  A preset that lacks a top-level key is reported as a load
    error naming the first missing key, and the load is not atomic: the
    selection, the node list and the routes are cleared and the id counter
    is reset before the first key is read, and the handler then overwrites
    nodes, vehicle count and skill catalog in that order up to the first
    missing key.  The fields from the first missing key on, and in every
    case the vehicle-skill mapping, keep their previous values.  A file that
    cannot be opened or parsed leaves the application as it was. *)
Theorem load_invalid_preset (int_of_str : string -> option Z)
    (a : VRPApp.t) (data : preset) (key : string) :
  missing_key data = Some key ->
  let result := on_load_preset int_of_str (parsed data) a in
  result.2 = [load_error (KeyError key)]
  ∧ selected_node result.1 = None
  ∧ routes result.1 = []
  ∧ vehicle_skills result.1 = vehicle_skills a
  ∧ match p_nodes data with
    | None =>
        nodes result.1 = [] ∧ id_counter result.1 = 0
        ∧ num_vehicles result.1 = num_vehicles a
        ∧ available_skills result.1 = available_skills a
    | Some ds =>
        nodes result.1 = (load_nodes ds).1
        ∧ id_counter result.1 = (load_nodes ds).2
        ∧ match p_num_vehicles data with
          | None =>
              num_vehicles result.1 = num_vehicles a
              ∧ available_skills result.1 = available_skills a
          | Some n =>
              num_vehicles result.1 = n
              ∧ match p_available_skills data with
                | None => available_skills result.1 = available_skills a
                | Some skills => available_skills result.1 = skills
                end
          end
    end
  ∧ ∀ e, on_load_preset int_of_str (unreadable e) a = (a, [load_error e]).
Proof.
  intros Hkey result. subst result. unfold missing_key in Hkey.
  unfold on_load_preset.
  destruct (p_nodes data) as [ds|]; [|by injection Hkey as <-].
  destruct (load_nodes ds) as [ns c] eqn:Hload.
  destruct (p_num_vehicles data) as [n|]; [|by injection Hkey as <-].
  destruct (p_available_skills data) as [skills|]; [|by injection Hkey as <-].
  destruct (p_vehicle_skills data) as [items|]; [done|by injection Hkey as <-].
Qed.

(** ** Solving while the scenario is edited *)

(** C7, as stated, fails: two runs start from the same session and get the
    same solution from the solver; in one of them a customer is removed and
    another one placed while the solver runs, and the delivered routes
    differ. *)
Lemma edits_during_solve_change_routes :
  queue (run_vrp_solver routing_library tour_solver two_customers)
  = [started two_customers;
     success [[0; 0; 1; 0]; [0; 0]; [0; 0]; [0; 0]] 1999]
  ∧ queue (run_vrp_solver_live routing_library tour_solver two_customers
             two_customers_edited two_customers_edited)
    = [started two_customers;
       success [[0; 1; 2; 0]; [0; 0]; [0; 0]; [0; 0]] 1999]
  ∧ run_vrp_solver_live routing_library tour_solver two_customers
      two_customers_edited two_customers_edited
    ≠ run_vrp_solver routing_library tour_solver two_customers.
Proof.
  assert (H1 : queue (run_vrp_solver routing_library tour_solver two_customers)
               = [started two_customers;
                  success [[0; 0; 1; 0]; [0; 0]; [0; 0]; [0; 0]] 1999])
    by (vm_compute; reflexivity).
  assert (H2 : queue (run_vrp_solver_live routing_library tour_solver two_customers
                        two_customers_edited two_customers_edited)
               = [started two_customers;
                  success [[0; 1; 2; 0]; [0; 0]; [0; 0]; [0; 0]] 1999])
    by (vm_compute; reflexivity).
  split; [exact H1|]. split; [exact H2|].
  intros Heq. apply (f_equal queue) in Heq. vm_compute in Heq.
  discriminate Heq.
Qed.

Lemma walk_route_live_ids fuel solution (live live' : list VRPNode.t)
    vehicle_id index route route_distance :
  VRPNode.id <$> live = VRPNode.id <$> live' ->
  walk_route fuel solution live vehicle_id index route route_distance
  = walk_route fuel solution live' vehicle_id index route route_distance.
Proof.
  intros Hids.
  assert (Hlookup : ∀ k, VRPNode.id <$> live !! k = VRPNode.id <$> live' !! k).
  { intros k. by rewrite <- !list_lookup_fmap, Hids. }
  revert index route route_distance.
  induction fuel as [|fuel IH]; intros index route route_distance; cbn;
    specialize (Hlookup (IndexToNode solution index));
    destruct (live !! IndexToNode solution index) as [node|],
             (live' !! IndexToNode solution index) as [node'|];
    cbn in Hlookup; try discriminate Hlookup; try done;
    injection Hlookup as ->; try done.
  destruct (IsEnd solution index); [done|]. apply IH.
Qed.

Lemma extract_routes_live_ids solution (live live' : list VRPNode.t)
    vehicles routes max_route_distance :
  VRPNode.id <$> live = VRPNode.id <$> live' ->
  extract_routes solution live vehicles routes max_route_distance
  = extract_routes solution live' vehicles routes max_route_distance.
Proof.
  intros Hids. revert routes max_route_distance.
  induction vehicles as [|v vehicles IH]; intros routes max_route_distance;
    cbn; [done|].
  rewrite (walk_route_live_ids _ _ live live') by done.
  destruct (walk_route _ _ live' _ _ _ _) as [[route d]|e|]; cbn; [apply IH|done..].
Qed.

(** C7, amended.  What a run delivers is a function of the scenario as the
    solve was started, of the solver's answers, and of the ids, in order, of
    the nodes in the live node list when the solver returns: the extractor
    reads [self.nodes[node_idx].id] from the live list.  Two runs from the
    same state deliver the same result whenever the live node lists hold the
    same ids in the same order at those moments; in particular a run during
    which the node list keeps its ids delivers what the undisturbed run
    delivers. *)
Theorem solve_result_reads_live_ids (lib : RoutingLibrary) (solve : Solver) (a a1 a2 b1 b2 : VRPApp.t) :
  VRPNode.id <$> nodes a1 = VRPNode.id <$> nodes b1 ->
  VRPNode.id <$> nodes a2 = VRPNode.id <$> nodes b2 ->
  run_vrp_solver_live lib solve a a1 a2 = run_vrp_solver_live lib solve a b1 b2
  ∧ (b1 = a -> b2 = a ->
     run_vrp_solver_live lib solve a a1 a2 = run_vrp_solver lib solve a).
Proof.
  intros H1 H2.
  assert (Heq : run_vrp_solver_live lib solve a a1 a2
                = run_vrp_solver_live lib solve a b1 b2).
  { unfold run_vrp_solver_live.
    assert (Hlen : length (nodes a1) = length (nodes b1)).
    { by rewrite <- (length_fmap VRPNode.id (nodes a1)), H1, length_fmap. }
    rewrite Hlen.
    destruct (prepare_solver_data a) as [data|e|]; [|done..].
    destruct (create_routing_model lib (created_routing data)) as [[]|e|];
      [|done..].
    destruct (if has_time_windows a
              then add_time_windows lib (windowed_routing a data) else Ok tt)
      as [[]|e|]; [|done..].
    destruct (if has_skills a then unserved_node a (data_num_vehicles data) else None)
      as [[i node]|]; [done|].
    destruct (if has_skills a then set_allowed_vehicles lib (build_routing a data)
              else Ok tt) as [[]|e|]; [|done..].
    destruct (solve (build_routing a data) (search_parameters a)) as [solution|].
    { by rewrite (extract_routes_live_ids _ (nodes a1) (nodes b1)). }
    repeat (case_match; try done).
    by rewrite (extract_routes_live_ids _ (nodes a2) (nodes b2)). }
  split; [exact Heq|]. intros -> ->. exact Heq.
Qed.

(** ** The properties on the sample scenarios *)

Lemma has_time_windows_false a :
  has_time_windows a = false ->
  ¬ Exists (fun node => is_Some (VRPNode.time_window node)) (nodes a).
Proof. unfold has_time_windows. apply bool_decide_eq_false. Qed.

Lemma has_skills_false a :
  has_skills a = false ->
  ¬ Exists (fun node => VRPNode.required_skills node ≠ ∅) (nodes a).
Proof. unfold has_skills. apply bool_decide_eq_false. Qed.

Lemma has_skills_true a :
  has_skills a = true ->
  Exists (fun node => VRPNode.required_skills node ≠ ∅) (nodes a).
Proof. unfold has_skills. apply bool_decide_eq_true. Qed.

Lemma strategy_policy_witness :
  search_parameters two_customers = mk_parameters PATH_CHEAPEST_ARC UNSET_METAHEURISTIC 10
  ∧ head (solver_calls (run_vrp_solver routing_library no_solution two_customers))
    = Some (build_routing two_customers
              (mk_data [[0; 1000; 409]; [1000; 0; 590]; [409; 590; 0]] 4 0),
            search_parameters two_customers).
Proof.
  assert (Hhead : head (solver_calls (run_vrp_solver routing_library no_solution two_customers))
                  = Some (build_routing two_customers
                            (mk_data [[0; 1000; 409]; [1000; 0; 590]; [409; 590; 0]] 4 0),
                          mk_parameters PATH_CHEAPEST_ARC UNSET_METAHEURISTIC 10))
    by (vm_compute; reflexivity).
  destruct (strategy_policy routing_library no_solution two_customers) as (_ & _ & _ & _ & _ & Hcall).
  rewrite <- (Hcall _ _ Hhead). split; [reflexivity|exact Hhead].
Defined.


(** Decide a closed decidable proposition by evaluation. *)
Ltac by_evaluation :=
  match goal with
  | |- ?P => apply (bool_decide_eq_true_1 P); vm_compute; reflexivity
  end.

Lemma build_time_skill_infeasibility_witness :
  ∃ node,
    node ∈ nodes electrician_needed
    ∧ run_vrp_solver routing_library tour_solver electrician_needed
      = mk_run [started electrician_needed;
                error (no_vehicle_has_skills (VRPNode.id node)
                                             (VRPNode.required_skills node))]
               [].
Proof.
  assert (Hnode : nodes electrician_needed !! 2%nat
                  = Some (second_customer {[ "electrician"%string ]}))
    by (vm_compute; reflexivity).
  destruct (build_time_skill_infeasibility routing_library tour_solver
              electrician_needed)
    as (_ & i & node & Hi & _ & _ & Hrun).
  - apply has_skills_true. vm_compute. reflexivity.
  - exists (second_customer {[ "electrician"%string ]}).
    split; [by eapply list_elem_of_lookup_2|].
    apply valid_vehicles_nil. vm_compute. reflexivity.
  - exists node. split; [by eapply list_elem_of_lookup_2|].
    unfold run_vrp_solver. rewrite Hrun. vm_compute. reflexivity.
Defined.

(** C2, counterexample.  In the scenario [electrician_needed_late] a node
    declares the skill "electrician", which no vehicle holds, and has the
    time window [40000, 50000].  The time windows are added before the skills
    are checked, the routing library raises on this one, and the run reports
    "Error during solving: CP Solver fail", not the named skill error. *)
Lemma late_window_hides_skill_error :
  Exists (fun node => VRPNode.required_skills node ≠ ∅)
         (nodes electrician_needed_late)
  ∧ (∃ node, node ∈ nodes electrician_needed_late
       ∧ ∀ v_id, 0 <= v_id < num_vehicles electrician_needed_late ->
           ¬ VRPNode.required_skills node
               ⊆ (list_to_set
                    (default [] (vehicle_skills electrician_needed_late !! v_id))
                  : gset string))
  ∧ run_vrp_solver routing_library tour_solver electrician_needed_late
    = mk_run [started electrician_needed_late;
              error (error_during_solving (RoutingError "CP Solver fail"))]
             [].
Proof.
  assert (Hnode : nodes electrician_needed_late !! 2%nat
                  = Some (VRPNode.with_time_window (Some (40000, 50000))
                            (second_customer {[ "electrician"%string ]})))
    by (vm_compute; reflexivity).
  split; [apply has_skills_true; vm_compute; reflexivity|].
  split; [|vm_compute; reflexivity].
  eexists. split; [by eapply list_elem_of_lookup_2|].
  apply valid_vehicles_nil. vm_compute. reflexivity.
Qed.


Lemma set_time_window_validation_witness :
  (on_set_time_window (fun s => s) parse_decimal "100" "50" two_customers).1
  = two_customers
  ∧ nodes (on_set_time_window (fun s => s) parse_decimal "10" "50" two_customers).1
      !! 2%nat
    = Some (VRPNode.with_time_window (Some (10, 50)) (second_customer ∅)).
Proof.
  assert (Hsel : selected_node two_customers = Some 2%nat) by (vm_compute; reflexivity).
  assert (Hnode : nodes two_customers !! 2%nat = Some (second_customer ∅))
    by (vm_compute; reflexivity).
  split.
  - destruct (set_time_window_validation (fun s => s) parse_decimal eq_refl
                two_customers 2%nat (second_customer ∅) "100" "50" Hsel Hnode)
      as (_ & Hrejected & _).
    apply Hrejected. intros [[s e] (Hs & He & Hlt & _)].
    vm_compute in Hs, He. injection Hs as <-. injection He as <-. cbn in Hlt. lia.
  - destruct (set_time_window_validation (fun s => s) parse_decimal eq_refl
                two_customers 2%nat (second_customer ∅) "10" "50" Hsel Hnode)
      as (Haccepted & _ & _).
    apply (Haccepted (10, 50)).
    unfold valid_time_window. cbn [fst snd].
    split; [vm_compute; reflexivity|]. split; [vm_compute; reflexivity|]. lia.
Defined.

Lemma delete_skill_cascade_witness :
  available_skills (on_delete_skill "electrician" true electrician_on_board).1
  = ["refrigeration"; "heavy_lift"]%string
  ∧ ∀ node, node ∈ nodes (on_delete_skill "electrician" true electrician_on_board).1 ->
      "electrician"%string ∉ VRPNode.required_skills node.
Proof.
  destruct (delete_skill_cascade electrician_on_board "electrician")
    as (_ & _ & _ & Hnodes & Hcatalog & _).
  - by_evaluation.
  - by_evaluation.
  - apply (bool_decide_eq_true_1
             (map_Forall (fun _ skills => NoDup skills)
                         (vehicle_skills electrician_on_board))).
    vm_compute. reflexivity.
  - split; [|exact Hnodes]. rewrite Hcatalog. vm_compute. reflexivity.
Defined.

Lemma load_invalid_preset_witness :
  (on_load_preset parse_decimal (parsed preset_without_nodes) two_customers).2
  = [load_error (KeyError "nodes")]
  ∧ vehicle_skills (on_load_preset parse_decimal (parsed preset_without_nodes)
                                   two_customers).1
    = vehicle_skills two_customers.
Proof.
  destruct (load_invalid_preset parse_decimal two_customers preset_without_nodes
              "nodes" eq_refl) as (Herr & _ & _ & Hvs & _).
  split; [exact Herr|exact Hvs].
Defined.

Lemma solve_result_reads_live_ids_witness :
  run_vrp_solver_live routing_library tour_solver two_customers
    two_customers_windowed two_customers_windowed
  = run_vrp_solver routing_library tour_solver two_customers.
Proof.
  apply (solve_result_reads_live_ids routing_library tour_solver two_customers
           two_customers_windowed two_customers_windowed
           two_customers two_customers).
  - vm_compute. reflexivity.
  - vm_compute. reflexivity.
  - reflexivity.
  - reflexivity.
Defined.

(** * Further properties *)

(** ** The editing session, continued *)

(** X1.  In every state of a session the node list starts with the depot,
    which has id 0; every other node is a customer, and the customers' ids
    are distinct, not negative and below [VRPNode.id_counter]. *)
Theorem session_nodes_well_formed str_strip int_of_str str_of_int a :
  reachable str_strip int_of_str str_of_int a ->
  ∃ depot_node customers,
    nodes a = depot_node :: customers
    ∧ VRPNode.is_depot depot_node = true
    ∧ VRPNode.id depot_node = 0
    ∧ Forall (fun node => VRPNode.is_depot node = false) customers
    ∧ NoDup (VRPNode.id <$> customers)
    ∧ Forall (fun node => 0 <= VRPNode.id node < id_counter a) customers.
Proof.
  intros Hr.
  destruct (reachable_invariant _ _ _ _ Hr)
    as [(depot_node & customers & Hnodes & Hdepot & Hid & Hcustomers)
        (_ & Hnodup & Hbound)].
  exists depot_node, customers. rewrite Hnodes in Hnodup, Hbound.
  cbn in Hnodup, Hbound. repeat split; try assumption.
  by apply Forall_fmap in Hbound.
Qed.

Lemma session_nodes_well_formed_witness :
  ∃ depot_node customers,
    nodes two_customers = depot_node :: customers
    ∧ VRPNode.is_depot depot_node = true
    ∧ VRPNode.id depot_node = 0
    ∧ Forall (fun node => VRPNode.is_depot node = false) customers
    ∧ NoDup (VRPNode.id <$> customers)
    ∧ Forall (fun node => 0 <= VRPNode.id node < id_counter two_customers) customers.
Proof.
  apply (session_nodes_well_formed (fun s => s) parse_decimal (fun _ => ""%string)).
  unfold two_customers.
  eapply reachable_edit; [eapply reachable_edit; [apply reachable_init|]|];
    apply edit_canvas_click.
Defined.

(** X2.  While a scenario is edited the id counter never goes down, and a
    customer whose id is below an earlier value of the counter carries the
    id of a customer that existed then: the id of a removed customer is not
    given out again. *)
Theorem customer_ids_not_reused str_strip int_of_str str_of_int a a' :
  reachable str_strip int_of_str str_of_int a ->
  rtc (edit str_strip int_of_str) a a' ->
  id_counter a <= id_counter a'
  ∧ ∀ i, i ∈ tail (VRPNode.id <$> nodes a') -> i < id_counter a ->
         i ∈ tail (VRPNode.id <$> nodes a).
Proof.
  intros Hr Hedits. induction Hedits as [a|a b c Hab Hbc IH].
  - split; [lia|]. intros i Hi _. exact Hi.
  - assert (Hrb : reachable str_strip int_of_str str_of_int b)
      by (by eapply reachable_edit).
    destruct (IH Hrb) as [Hle Hold].
    destruct (reachable_invariant _ _ _ _ Hr) as [Hdepot _].
    pose proof (id_counter_edit _ _ _ _ Hab Hdepot) as Hstep.
    split; [lia|]. intros i Hi Hlt.
    assert (Hib : i ∈ tail (VRPNode.id <$> nodes b)) by (apply Hold; [exact Hi|lia]).
    destruct (edit_ids _ _ _ _ Hab Hdepot) as [[Hids _]|[[Hids _]|[Hsub _]]].
    + by rewrite <- Hids.
    + rewrite Hids in Hib.
      destruct Hdepot as (depot_node & customers & Hnodes & _).
      rewrite Hnodes in Hib |- *. cbn in Hib |- *.
      apply elem_of_app in Hib as [Hib|Hib]; [exact Hib|].
      apply list_elem_of_singleton in Hib. lia.
    + by eapply elem_of_sublist.
Qed.

Lemma customer_ids_not_reused_witness :
  id_counter two_customers <= id_counter two_customers_edited
  ∧ ∀ i, i ∈ tail (VRPNode.id <$> nodes two_customers_edited) ->
         i < id_counter two_customers ->
         i ∈ tail (VRPNode.id <$> nodes two_customers).
Proof.
  apply (customer_ids_not_reused (fun s => s) parse_decimal (fun _ => ""%string)).
  - unfold two_customers.
    eapply reachable_edit; [eapply reachable_edit; [apply reachable_init|]|];
      apply edit_canvas_click.
  - unfold two_customers_edited.
    eapply rtc_l; [apply edit_canvas_right_click|].
    eapply rtc_l; [apply edit_canvas_click|]. apply rtc_refl.
Defined.

(** X3.  In every state of a session the skill catalog and every vehicle's
    skill list hold each skill name at most once. *)
Theorem session_skill_lists_are_sets str_strip int_of_str str_of_int a :
  reachable str_strip int_of_str str_of_int a ->
  NoDup (available_skills a)
  ∧ ∀ v, NoDup (default [] (vehicle_skills a !! v)).
Proof.
  intros Hr. destruct (reachable_skill_lists_unique _ _ _ _ Hr) as [Hcatalog Hvs].
  split; [exact Hcatalog|]. intros v.
  destruct (vehicle_skills a !! v) as [skills|] eqn:Hv; cbn.
  - by eapply Hvs.
  - apply NoDup_nil_2.
Qed.

Lemma session_skill_lists_are_sets_witness :
  NoDup (available_skills electrician_on_board)
  ∧ ∀ v, NoDup (default [] (vehicle_skills electrician_on_board !! v)).
Proof.
  apply (session_skill_lists_are_sets (fun s => s) parse_decimal (fun _ => ""%string)).
  unfold electrician_on_board, electrician_needed, two_customers.
  eapply reachable_edit; [|apply edit_vehicle_skill_toggle].
  eapply reachable_edit; [|apply edit_node_skill_toggle].
  eapply reachable_edit; [eapply reachable_edit; [apply reachable_init|]|];
    apply edit_canvas_click.
Defined.

(** *** The selection *)

Lemma find_clicked_bound a canvas_x canvas_y ns :
  ∀ i k, find_clicked a ns i canvas_x canvas_y = Ok (Some k) ->
    (i <= k < i + length ns)%nat.
Proof.
  induction ns as [|node ns IH]; intros i k Hfind; cbn -[click_distance] in Hfind.
  - discriminate Hfind.
  - destruct (click_distance a node canvas_x canvas_y) as [distance| |];
      cbn in Hfind; try discriminate Hfind.
    destruct (distance <=? 10)%float.
    + simplify_eq. cbn. lia.
    + apply IH in Hfind. cbn. lia.
Qed.

Lemma selection_in_nodes_update_selected f a :
  selection_in_nodes a -> selection_in_nodes (update_selected f a).
Proof.
  unfold selection_in_nodes, update_selected. intros Hsel i.
  destruct (selected_node a) as [j|] eqn:Hj; cbn; [|by rewrite Hj].
  rewrite Hj, length_alter. intros [= <-]. by apply Hsel.
Qed.

Lemma selection_in_nodes_same a a' :
  selected_node a' = selected_node a -> length (nodes a') = length (nodes a) ->
  selection_in_nodes a -> selection_in_nodes a'.
Proof. unfold selection_in_nodes. intros -> ->. done. Qed.

Lemma selection_in_nodes_edit str_strip int_of_str a a' :
  edit str_strip int_of_str a a' -> selection_in_nodes a -> selection_in_nodes a'.
Proof.
  intros Hedit Hsel. destruct Hedit.
  - unfold on_canvas_click.
    destruct (find_clicked a (nodes a) 0 x y) as [[k|]| |] eqn:Hfind; cbn;
      try exact Hsel.
    + apply find_clicked_bound in Hfind. intros i [= <-]. cbn. lia.
    + intros i [= <-]. cbn. rewrite length_app. cbn. lia.
  - unfold on_canvas_right_click.
    destruct (find_clicked a (nodes a) 0 x y) as [[k|]| |] eqn:Hfind; cbn;
      try exact Hsel.
    destruct (nodes a !! k) as [clicked|] eqn:Hk; [|exact Hsel].
    destruct (VRPNode.is_depot clicked); [exact Hsel|]. cbn.
    intros i. cbn. unfold selection_after_remove.
    destruct (selected_node a) as [j|] eqn:Hj; [|discriminate].
    pose proof (Hsel j Hj) as Hlt.
    apply lookup_lt_Some in Hk as Hklt.
    destruct (nodes a !! j) as [sel|] eqn:Hsel_j;
      [|apply lookup_ge_None in Hsel_j; lia].
    case_bool_decide; [discriminate|]. intros [= <-].
    rewrite length_delete by (by eexists).
    case_bool_decide; [lia|].
    assert (j ≠ k) by (intros ->; congruence). lia.
  - unfold on_set_time_window.
    destruct (selected_node a) eqn:Hs; [|exact Hsel].
    destruct (_ || _); [exact Hsel|].
    destruct (int_of_str _); [|exact Hsel]. destruct (int_of_str _); [|exact Hsel].
    repeat case_bool_decide; try exact Hsel.
    by apply selection_in_nodes_update_selected.
  - by apply selection_in_nodes_update_selected.
  - unfold on_add_skill. repeat case_bool_decide; try exact Hsel. cbn.
    eapply selection_in_nodes_same; [| |exact Hsel].
    + by rewrite (proj1 (proj2 (proj2 (proj2 (update_skills_ui_other _))))).
    + by rewrite nodes_update_skills_ui.
  - unfold on_delete_skill. destruct confirm; [|exact Hsel].
    destruct (list_remove skill (available_skills a)); [|exact Hsel]. cbn.
    eapply selection_in_nodes_same; [| |exact Hsel].
    + by rewrite (proj1 (proj2 (proj2 (proj2 (update_skills_ui_other _))))).
    + rewrite nodes_update_skills_ui. cbn. by rewrite length_fmap.
  - eapply selection_in_nodes_same; [| |exact Hsel];
      unfold on_vehicle_skill_toggle; destruct var;
      repeat (case_bool_decide || case_match); reflexivity.
  - unfold on_node_skill_toggle. destruct var;
      by apply selection_in_nodes_update_selected.
  - eapply selection_in_nodes_same; [| |exact Hsel]; reflexivity.
  - eapply selection_in_nodes_same; [| |exact Hsel]; reflexivity.
  - unfold on_clear_all. destruct confirm; [|exact Hsel]. intros i. discriminate.
  - eapply selection_in_nodes_same; [| |exact Hsel].
    + induction q as [|[| |] q IH]; try reflexivity. exact IH.
    + by rewrite nodes_check_solver_results.
Qed.

(** X4.  In every state of a session the selected node, if there is one, is
    a node of the scenario: removing nodes, clearing and loading never leave
    a selection behind that points at a node that is gone. *)
Theorem session_selection_in_nodes str_strip int_of_str str_of_int a :
  reachable str_strip int_of_str str_of_int a ->
  ∀ i, selected_node a = Some i -> is_Some (nodes a !! i).
Proof.
  intros Hr i Hi. apply lookup_lt_is_Some. revert i Hi.
  change (selection_in_nodes a).
  induction Hr as [|a a' _ IH Hedit|a saved _ _ _ _].
  - intros i Hi. vm_compute in Hi. discriminate Hi.
  - by eapply selection_in_nodes_edit.
  - intros i. unfold on_load_preset, on_save_preset. cbn.
    destruct (load_nodes _) as [ns c]. cbn.
    destruct (parse_vehicle_skills _ _ _); cbn; [|discriminate].
    rewrite (proj1 (proj2 (proj2 (proj2 (update_skills_ui_other _))))).
    discriminate.
Qed.

Lemma session_selection_in_nodes_witness :
  is_Some (nodes two_customers_edited !! 2%nat).
Proof.
  apply (session_selection_in_nodes (fun s => s) parse_decimal (fun _ => ""%string)).
  - unfold two_customers_edited, two_customers.
    eapply reachable_edit; [|apply edit_canvas_click].
    eapply reachable_edit; [|apply edit_canvas_right_click].
    eapply reachable_edit; [eapply reachable_edit; [apply reachable_init|]|];
      apply edit_canvas_click.
  - vm_compute. reflexivity.
Defined.

(** ** Presets: saving and loading *)

Lemma lookup_foldl_insert (l : list (Z * list string)) :
  ∀ (acc : gmap Z (list string)) k,
    NoDup l.*1 ->
    foldl (fun m '(i, v) => <[ i := v ]> m) acc l !! k
    = match (list_to_map l : gmap Z (list string)) !! k with
      | Some v => Some v
      | None => acc !! k
      end.
Proof.
  induction l as [|[i v] l IH]; intros acc k Hnodup; cbn.
  - by rewrite lookup_empty.
  - apply NoDup_cons in Hnodup as [Hi Hnodup]. rewrite IH by exact Hnodup.
    destruct (decide (k = i)) as [->|Hne].
    + rewrite lookup_insert_eq.
      rewrite (not_elem_of_list_to_map_1 _ _ Hi). by rewrite lookup_insert_eq.
    + rewrite !lookup_insert_ne by done. reflexivity.
Qed.

Lemma parse_vehicle_skills_saved int_of_str str_of_int (l : list (Z * list string)) :
  ∀ acc,
    Forall (fun '(k, _) => int_of_str (str_of_int k) = Some k) l ->
    parse_vehicle_skills int_of_str acc ((fun '(k, v) => (str_of_int k, v)) <$> l)
    = Some (foldl (fun m '(i, v) => <[ i := v ]> m) acc l).
Proof.
  induction l as [|[k v] l IH]; intros acc Hl; cbn; [reflexivity|].
  apply Forall_cons in Hl as [-> Hl]. by apply IH.
Qed.

Lemma parse_vehicle_skills_map int_of_str str_of_int (m : gmap Z (list string)) :
  map_Forall (fun k _ => int_of_str (str_of_int k) = Some k) m ->
  parse_vehicle_skills int_of_str ∅
    ((fun '(k, v) => (str_of_int k, v)) <$> map_to_list m) = Some m.
Proof.
  intros Hkeys. rewrite (parse_vehicle_skills_saved int_of_str str_of_int).
  - f_equal. apply map_eq. intros k.
    rewrite lookup_foldl_insert by apply NoDup_fst_map_to_list.
    rewrite list_to_map_to_list, lookup_empty. by destruct (m !! k).
  - apply Forall_forall. intros [k v] Hin.
    apply elem_of_map_to_list in Hin. by eapply Hkeys.
Qed.

(** X5.  Loading the preset that [on_save_preset] writes for a scenario
    brings that scenario back, provided [int] reads back the vehicle
    indices that [json.dump] wrote with [str]: nodes, vehicle count, skill
    catalog and every vehicle's skills are those of the saved scenario, the
    routes and the selection are empty, and no dialog opens. *)
Theorem save_load_round_trip int_of_str str_of_int a saved :
  map_Forall (fun k _ => int_of_str (str_of_int k) = Some k) (vehicle_skills saved) ->
  ∃ loaded,
    on_load_preset int_of_str (parsed (on_save_preset str_of_int saved)) a
    = (loaded, [])
    ∧ nodes loaded = nodes saved
    ∧ num_vehicles loaded = num_vehicles saved
    ∧ available_skills loaded = available_skills saved
    ∧ (∀ v skills, vehicle_skills saved !! v = Some skills ->
                   vehicle_skills loaded !! v = Some skills)
    ∧ (∀ v, default [] (vehicle_skills loaded !! v)
            = default [] (vehicle_skills saved !! v))
    ∧ routes loaded = []
    ∧ selected_node loaded = None.
Proof.
  intros Hkeys.
  pose proof (load_nodes_to_dict (nodes saved)) as Hnodes.
  unfold on_load_preset, on_save_preset. cbn.
  destruct (load_nodes (VRPNode.to_dict <$> nodes saved)) as [ns c]. cbn in Hnodes.
  subst ns.
  rewrite (parse_vehicle_skills_map int_of_str str_of_int) by exact Hkeys.
  eexists. split; [reflexivity|].
  rewrite nodes_update_skills_ui.
  match goal with |- context [update_skills_ui ?b] =>
    destruct (update_skills_ui_other b) as (-> & -> & -> & -> & _);
    pose proof (update_skills_ui_vehicle_skills b) as Hvs
  end.
  cbn. repeat split; try reflexivity.
  - intros v skills Hv. unfold update_skills_ui. cbn.
    destruct (available_skills saved) as [|s0 ss]; cbn; [exact Hv|].
    generalize (seqZ 0 (num_vehicles saved)). intros l.
    revert Hv. generalize (vehicle_skills saved).
    induction l as [|i l IH]; intros vs Hv; cbn; [exact Hv|].
    apply IH. destruct (vs !! i) eqn:Hi; [exact Hv|].
    rewrite lookup_insert_ne; [exact Hv|]. intros ->. congruence.
  - intros v. apply Hvs.
Qed.

Lemma save_load_round_trip_witness :
  ∃ loaded,
    on_load_preset parse_decimal
      (parsed (on_save_preset digit_string electrician_on_board)) two_customers
    = (loaded, [])
    ∧ nodes loaded = nodes electrician_on_board
    ∧ ∀ v, default [] (vehicle_skills loaded !! v)
           = default [] (vehicle_skills electrician_on_board !! v).
Proof.
  destruct (save_load_round_trip parse_decimal digit_string two_customers
              electrician_on_board)
    as (loaded & Hload & Hnodes & _ & _ & _ & Hvs & _).
  - apply (bool_decide_eq_true_1
             (map_Forall (fun k _ => parse_decimal (digit_string k) = Some k)
                         (vehicle_skills electrician_on_board))).
    vm_compute. reflexivity.
  - exists loaded. split; [exact Hload|]. split; [exact Hnodes|exact Hvs].
Defined.

Lemma load_step_eq ns c d :
  load_step (ns, c) d
  = (ns ++ [(VRPNode.from_dict 0 d).1],
     if VRPNode.d_is_depot d then c else Z.max (c + 1) (VRPNode.d_id d + 1)).
Proof.
  unfold load_step, VRPNode.from_dict, VRPNode.init.
  by destruct (VRPNode.d_is_depot d).
Qed.

(** The node list and the counter that the loop builds, for any accumulator
    it starts from. *)
Lemma load_nodes_fold (ds : list VRPNode.dict) :
  ∀ ns c,
    (foldl load_step (ns, c) ds).1
    = ns ++ ((fun d => (VRPNode.from_dict 0 d).1) <$> ds)
    ∧ c + Z.of_nat (length (filter (fun d => VRPNode.d_is_depot d = false) ds))
      <= (foldl load_step (ns, c) ds).2
    ∧ Forall (fun d => VRPNode.d_is_depot d = false ->
                       VRPNode.d_id d < (foldl load_step (ns, c) ds).2) ds.
Proof.
  induction ds as [|d ds IH]; intros ns c.
  - cbn. rewrite app_nil_r. split; [reflexivity|]. split; [lia|constructor].
  - cbn [foldl]. rewrite load_step_eq.
    match goal with |- context [foldl load_step (?ns', ?c') ds] =>
      destruct (IH ns' c') as (Hns & Hcount & Hbound);
      set (result := foldl load_step (ns', c') ds) in *
    end.
    split; [|split].
    + rewrite Hns, <- app_assoc. reflexivity.
    + rewrite filter_cons. destruct (VRPNode.d_is_depot d) eqn:Hd.
      * rewrite decide_False by discriminate. exact Hcount.
      * rewrite decide_True by reflexivity. cbn [length]. lia.
    + constructor; [|exact Hbound]. intros Hd. rewrite Hd in Hcount. lia.
Qed.

(** X6.  Whatever nodes a preset lists, after loading them the id counter
    is above the id of every customer of the file and at least the number of
    customers, so the customer placed next gets an id that no loaded customer
    has.  The nodes are those of the file, in the file's order. *)
Theorem loaded_counter_above_customer_ids int_of_str a data ds :
  p_nodes data = Some ds ->
  let loaded := (on_load_preset int_of_str (parsed data) a).1 in
  nodes loaded = (fun d => (VRPNode.from_dict 0 d).1) <$> ds
  ∧ Forall (fun node => VRPNode.is_depot node = false ->
                        VRPNode.id node < id_counter loaded) (nodes loaded)
  ∧ Z.of_nat (length (filter (fun node => VRPNode.is_depot node = false)
                             (nodes loaded))) <= id_counter loaded.
Proof.
  intros Hds. cbn zeta.
  destruct (load_nodes_fold ds [] 0) as (Hns & Hcount & Hbound).
  change (foldl load_step ([], 0) ds) with (load_nodes ds) in Hns, Hcount, Hbound.
  assert (Hloaded : nodes (on_load_preset int_of_str (parsed data) a).1
                    = (load_nodes ds).1
                    ∧ id_counter (on_load_preset int_of_str (parsed data) a).1
                      = (load_nodes ds).2).
  { unfold on_load_preset. rewrite Hds. destruct (load_nodes ds) as [ns c].
    destruct (p_num_vehicles data); [|done].
    destruct (p_available_skills data); [|done].
    destruct (p_vehicle_skills data); [|done].
    destruct (parse_vehicle_skills _ _ _); [|done].
    cbn. by rewrite nodes_update_skills_ui, id_counter_update_skills_ui. }
  destruct Hloaded as [-> ->]. rewrite Hns. cbn [app].
  split; [reflexivity|]. split.
  - apply Forall_fmap. eapply Forall_impl; [exact Hbound|].
    intros d Hd. unfold compose, VRPNode.from_dict, VRPNode.init.
    cbn beta in Hd.
    destruct (VRPNode.d_is_depot d); cbn; intros Hnode;
      [discriminate Hnode|by apply Hd].
  - etrans; [|exact Hcount]. rewrite Z.add_0_l. apply Nat2Z.inj_le.
    clear. induction ds as [|d ds IH]; [done|].
    rewrite fmap_cons, !filter_cons.
    assert (Hd : VRPNode.is_depot (VRPNode.from_dict 0 d).1 = VRPNode.d_is_depot d).
    { unfold VRPNode.from_dict, VRPNode.init. by destruct (VRPNode.d_is_depot d). }
    rewrite Hd. destruct (decide (VRPNode.d_is_depot d = false)); cbn; lia.
Qed.

Lemma loaded_counter_above_customer_ids_witness :
  Forall (fun node => VRPNode.is_depot node = false ->
                      VRPNode.id node
                      < id_counter (on_load_preset parse_decimal
                                      (parsed (on_save_preset digit_string
                                                 two_customers_edited)) init).1)
         (nodes (on_load_preset parse_decimal
                   (parsed (on_save_preset digit_string two_customers_edited))
                   init).1).
Proof.
  destruct (loaded_counter_above_customer_ids parse_decimal init
              (on_save_preset digit_string two_customers_edited)
              (VRPNode.to_dict <$> nodes two_customers_edited) eq_refl)
    as (_ & Hbound & _).
  exact Hbound.
Defined.

Lemma parse_vehicle_skills_bad_key int_of_str (items : list (string * list string)) :
  ∀ acc, Exists (fun item => int_of_str item.1 = None) items ->
         parse_vehicle_skills int_of_str acc items = None.
Proof.
  induction items as [|[k v] items IH]; intros acc Hbad.
  - by apply Exists_nil in Hbad.
  - cbn. destruct (int_of_str k) as [i|] eqn:Hk; [|reflexivity].
    apply IH. apply Exists_cons in Hbad as [Hbad|Hbad]; [|exact Hbad].
    cbn in Hbad. congruence.
Qed.

(** X7.  A preset whose "vehicle_skills" object has a key that [int] does
    not read makes the load fail with a [ValueError] dialog after the nodes,
    the vehicle count and the skill catalog of the file have replaced those
    of the scenario; the vehicle skills stay as they were, whichever key is
    the bad one. *)
Theorem load_preset_bad_vehicle_key int_of_str a ds n skills items :
  Exists (fun item => int_of_str item.1 = None) items ->
  let data := mk_preset (Some ds) (Some n) (Some skills) (Some items) in
  let result := on_load_preset int_of_str (parsed data) a in
  result.2 = [load_error ValueError]
  ∧ vehicle_skills result.1 = vehicle_skills a
  ∧ nodes result.1 = (load_nodes ds).1
  ∧ num_vehicles result.1 = n
  ∧ available_skills result.1 = skills
  ∧ routes result.1 = []
  ∧ selected_node result.1 = None.
Proof.
  intros Hbad. cbn zeta. unfold on_load_preset. cbn.
  destruct (load_nodes ds) as [ns c].
  by rewrite (parse_vehicle_skills_bad_key _ _ _ Hbad).
Qed.

Lemma load_preset_bad_vehicle_key_witness :
  (on_load_preset parse_decimal
     (parsed (mk_preset (Some []) (Some 2) (Some ["welding"%string])
                        (Some [("0"%string, ["welding"%string]);
                               ("first"%string, [])])))
     two_customers).2 = [load_error ValueError]
  ∧ vehicle_skills
      (on_load_preset parse_decimal
         (parsed (mk_preset (Some []) (Some 2) (Some ["welding"%string])
                            (Some [("0"%string, ["welding"%string]);
                                   ("first"%string, [])])))
         two_customers).1
    = vehicle_skills two_customers.
Proof.
  destruct (load_preset_bad_vehicle_key parse_decimal two_customers [] 2
              ["welding"%string]
              [("0"%string, ["welding"%string]); ("first"%string, [])])
    as (Herr & Hvs & _).
  - apply Exists_cons_tl, Exists_cons_hd. vm_compute. reflexivity.
  - split; [exact Herr|exact Hvs].
Defined.

(** ** Canvas clicks *)

Lemma find_clicked_first a canvas_x canvas_y (ns : list VRPNode.t) :
  ∀ k i node,
    ns !! i = Some node ->
    within_radius a canvas_x canvas_y node ->
    (∀ j node_j, (j < i)%nat -> ns !! j = Some node_j ->
                 outside_radius a canvas_x canvas_y node_j) ->
    find_clicked a ns k canvas_x canvas_y = Ok (Some (k + i)%nat).
Proof.
  induction ns as [|n ns IH]; intros k i node Hi Hhit Hmiss; [done|].
  cbn -[click_distance]. destruct i as [|i].
  - injection Hi as ->. destruct Hhit as (distance & -> & Hle). cbn.
    rewrite Hle. by rewrite Nat.add_0_r.
  - destruct (Hmiss 0%nat n) as (distance & -> & Hgt); [lia|done|]. cbn.
    rewrite Hgt. rewrite (IH (S k) i node Hi Hhit).
    + do 2 f_equal. lia.
    + intros j node_j Hj Hnode_j. apply (Hmiss (S j)); [lia|exact Hnode_j].
Qed.

Lemma find_clicked_none a canvas_x canvas_y (ns : list VRPNode.t) :
  ∀ k, Forall (outside_radius a canvas_x canvas_y) ns ->
       find_clicked a ns k canvas_x canvas_y = Ok None.
Proof.
  induction ns as [|n ns IH]; intros k Hmiss; [done|].
  apply Forall_cons in Hmiss as [(distance & Hd & Hgt) Hmiss].
  cbn -[click_distance]. rewrite Hd. cbn. rewrite Hgt. by apply IH.
Qed.

(** X8.  A left click selects the first node, in the order of the node
    list, that lies within the selection radius of 10 pixels, and changes
    nothing else; when every node is outside the radius it appends one
    customer at the clicked position, without constraints and with the
    counter's value as id, selects it and moves the counter by one. *)
Theorem canvas_click_selects_or_places canvas_x canvas_y a :
  (∀ i node,
     nodes a !! i = Some node ->
     within_radius a canvas_x canvas_y node ->
     (∀ j node_j, (j < i)%nat -> nodes a !! j = Some node_j ->
                  outside_radius a canvas_x canvas_y node_j) ->
     on_canvas_click canvas_x canvas_y a = (with_selected_node (Some i) a, []))
  ∧ (Forall (outside_radius a canvas_x canvas_y) (nodes a) ->
     let position :=
       canvas_to_vrp_coords a (PyFloat.of_int canvas_x) (PyFloat.of_int canvas_y) in
     let customer :=
       VRPNode.mk (id_counter a) position.1 position.2 false None ∅ in
     on_canvas_click canvas_x canvas_y a
     = (with_selected_node (Some (length (nodes a)))
          (with_id_counter (id_counter a + 1)
             (with_nodes (nodes a ++ [customer]) a)), [])).
Proof.
  split.
  - intros i node Hi Hhit Hmiss. unfold on_canvas_click.
    by rewrite (find_clicked_first a canvas_x canvas_y (nodes a) 0 i node).
  - intros Hmiss. unfold on_canvas_click.
    by rewrite find_clicked_none.
Qed.

Lemma canvas_click_selects_or_places_witness :
  on_canvas_click 445 300 two_customers
  = (with_selected_node (Some 2%nat) two_customers, [])
  ∧ VRPNode.id <$> nodes (on_canvas_click 300 200 two_customers).1 = [0; 0; 1; 2].
Proof.
  destruct (canvas_click_selects_or_places 445 300 two_customers) as [Hselect _].
  destruct (canvas_click_selects_or_places 300 200 two_customers) as [_ Hplace].
  split.
  - apply (Hselect 2%nat (second_customer ∅)).
    + vm_compute. reflexivity.
    + eexists. split; vm_compute; reflexivity.
    + intros j node_j Hj Hnode. destruct j as [|[|j]]; [| |lia];
        vm_compute in Hnode; injection Hnode as <-;
        eexists; split; vm_compute; reflexivity.
  - rewrite Hplace; [vm_compute; reflexivity|].
    repeat (apply Forall_cons; split; [eexists; split; vm_compute; reflexivity|]).
    apply Forall_nil_2.
Defined.

Lemma filter_delete_other {A} (P : A -> Prop) `{∀ x, Decision (P x)}
    (l : list A) :
  ∀ i x, l !! i = Some x -> ¬ P x -> filter P (delete i l) = filter P l.
Proof.
  induction l as [|y l IH]; intros i x Hi Hx; [done|].
  destruct i as [|i]; cbn in Hi.
  - injection Hi as ->. change (filter P l = filter P (x :: l)).
    by rewrite filter_cons_False.
  - change (filter P (y :: delete i l) = filter P (y :: l)).
    rewrite !filter_cons. by rewrite (IH i x Hi Hx).
Qed.

(** X9.  A right click never removes a depot: the nodes flagged as depot
    are the same before and after.  It removes at most one node, a customer,
    and leaves the fleet, the catalog, the routes and the id counter as they
    are; in particular routes that visit the removed customer stay. *)
Theorem right_click_keeps_depot canvas_x canvas_y a :
  let result := on_canvas_right_click canvas_x canvas_y a in
  filter (fun node => VRPNode.is_depot node = true) (nodes result.1)
  = filter (fun node => VRPNode.is_depot node = true) (nodes a)
  ∧ (nodes result.1 = nodes a
     ∨ ∃ i customer, nodes a !! i = Some customer
                     ∧ VRPNode.is_depot customer = false
                     ∧ nodes result.1 = delete i (nodes a))
  ∧ num_vehicles result.1 = num_vehicles a
  ∧ available_skills result.1 = available_skills a
  ∧ vehicle_skills result.1 = vehicle_skills a
  ∧ routes result.1 = routes a
  ∧ id_counter result.1 = id_counter a.
Proof.
  cbn zeta. unfold on_canvas_right_click.
  destruct (find_clicked a (nodes a) 0 canvas_x canvas_y) as [[i|]| |];
    try (repeat split; by left).
  destruct (nodes a !! i) as [clicked|] eqn:Hi; [|repeat split; by left].
  destruct (VRPNode.is_depot clicked) eqn:Hdepot; [repeat split; by left|].
  cbn. repeat split.
  - apply (filter_delete_other _ _ i clicked Hi). congruence.
  - right. by exists i, clicked.
Qed.

(** ** Skill catalog and fleet *)

(** X10.  [on_add_skill] refuses a name that is empty after stripping or
    already in the catalog: a warning opens and nothing changes.  Any other
    name goes to the end of the catalog, and nothing else changes: the
    nodes, the vehicle count and every vehicle's skills stay. *)
Theorem add_skill_validation str_strip entry a :
  let name := str_strip entry in
  let result := on_add_skill str_strip entry a in
  (name = ""%string ∨ name ∈ available_skills a ->
   result.1 = a ∧ ∃ title message, result.2 = [showwarning title message])
  ∧ (name ≠ ""%string -> name ∉ available_skills a ->
     result.2 = []
     ∧ available_skills result.1 = available_skills a ++ [name]
     ∧ nodes result.1 = nodes a
     ∧ num_vehicles result.1 = num_vehicles a
     ∧ (∀ v, skills_of result.1 v = skills_of a v)
     ∧ routes result.1 = routes a
     ∧ selected_node result.1 = selected_node a).
Proof.
  cbn zeta. unfold on_add_skill. split.
  - intros [Hempty|Hdup].
    + rewrite bool_decide_eq_true_2 by exact Hempty. eauto.
    + case_bool_decide; [eauto|].
      rewrite bool_decide_eq_true_2 by exact Hdup. eauto.
  - intros Hne Hnew.
    rewrite bool_decide_eq_false_2 by exact Hne.
    rewrite bool_decide_eq_false_2 by exact Hnew. cbn [fst snd].
    rewrite nodes_update_skills_ui.
    match goal with |- context [update_skills_ui ?b] =>
      destruct (update_skills_ui_other b) as (-> & -> & -> & -> & _);
      pose proof (update_skills_ui_vehicle_skills b) as Hvs
    end.
    repeat split. intros v. apply Hvs.
Qed.

Lemma add_skill_validation_witness :
  (on_add_skill (fun s => s) "electrician" two_customers).1 = two_customers
  ∧ available_skills (on_add_skill (fun s => s) "welding" two_customers).1
    = ["electrician"; "refrigeration"; "heavy_lift"; "welding"]%string.
Proof.
  destruct (add_skill_validation (fun s => s) "electrician" two_customers)
    as [Hrefused _].
  destruct (add_skill_validation (fun s => s) "welding" two_customers)
    as [_ Hadded].
  split.
  - apply Hrefused. right. vm_compute.
    apply (bool_decide_eq_true_1
             ("electrician"%string
              ∈ ["electrician"; "refrigeration"; "heavy_lift"]%string)).
    vm_compute. reflexivity.
  - destruct Hadded as (_ & Hcatalog & _).
    + discriminate.
    + apply (bool_decide_eq_true_1
               ("welding"%string ∉ available_skills two_customers)).
      vm_compute. reflexivity.
    + rewrite Hcatalog. vm_compute. reflexivity.
Defined.

Lemma lookup_fill_vehicles_eq (l : list Z) :
  ∀ (vs : gmap Z (list string)) (v : Z),
    foldl (fun vs i => match vs !! i with
                       | Some _ => vs
                       | None => <[ i := [] ]> vs
                       end) vs l !! v
    = match vs !! v with
      | Some skills => Some skills
      | None => if bool_decide (v ∈ l) then Some [] else None
      end.
Proof.
  induction l as [|i l IH]; intros vs v; cbn.
  - by destruct (vs !! v).
  - rewrite IH. destruct (decide (v = i)) as [->|Hne].
    + destruct (vs !! i) as [skills|] eqn:Hi.
      * by rewrite Hi.
      * rewrite lookup_insert_eq.
        rewrite bool_decide_eq_true_2 by apply list_elem_of_here. reflexivity.
    + assert (Hv : (match vs !! i with
                    | Some _ => vs
                    | None => <[ i := [] ]> vs
                    end) !! v = vs !! v).
      { destruct (vs !! i); [reflexivity|]. by rewrite lookup_insert_ne. }
      rewrite Hv. destruct (vs !! v); [reflexivity|].
      rewrite (bool_decide_ext (v ∈ i :: l) (v ∈ l)); [reflexivity|].
      rewrite elem_of_cons. tauto.
Qed.

(** X11.  Changing the vehicle count keeps every entry of the vehicle
    skills, also those of vehicles beyond the new count, and gives each
    vehicle of the new range that had no entry an empty list.  Hence
    lowering the count and raising it again brings every vehicle's skills
    back.  Nodes and catalog are untouched. *)
Theorem vehicle_count_change_keeps_skills new_count a v :
  let a' := on_vehicle_count_change new_count a in
  num_vehicles a' = new_count
  ∧ vehicle_skills a' !! v
    = match vehicle_skills a !! v with
      | Some skills => Some skills
      | None => if bool_decide (0 <= v < new_count) then Some [] else None
      end
  ∧ (∀ lower, skills_of (on_vehicle_count_change new_count
                           (on_vehicle_count_change lower a)) v
              = skills_of a v)
  ∧ nodes a' = nodes a
  ∧ available_skills a' = available_skills a.
Proof.
  cbn zeta. unfold on_vehicle_count_change, update_vehicle_skills_ui, skills_of.
  cbn. split; [reflexivity|]. split; [|split; [|done]].
  - rewrite lookup_fill_vehicles_eq. destruct (vehicle_skills a !! v); [done|].
    rewrite (bool_decide_ext (v ∈ seqZ 0 new_count) (0 <= v < new_count));
      [reflexivity|].
    rewrite elem_of_seqZ. lia.
  - intros lower.
    rewrite (proj1 (lookup_fill_vehicles _ _ v)).
    apply (proj1 (lookup_fill_vehicles _ _ v)).
Qed.

Lemma discard_app_new (x : string) (l : list string) :
  x ∉ l -> discard x (l ++ [x]) = l.
Proof.
  intros Hx. unfold discard.
  assert (Hremove : list_remove x (l ++ [x]) = Some l).
  { induction l as [|y l IH]; cbn.
    - by rewrite decide_True.
    - apply not_elem_of_cons in Hx as [Hne Hx].
      rewrite decide_False by exact Hne. by rewrite (IH Hx). }
  by rewrite Hremove.
Qed.

Lemma elem_of_discard_other (x y : string) (l : list string) :
  y ≠ x -> y ∈ discard x l <-> y ∈ l.
Proof.
  intros Hne. unfold discard.
  induction l as [|z l IH]; cbn; [done|].
  destruct (decide (x = z)) as [->|Hxz]; cbn.
  - rewrite elem_of_cons. tauto.
  - destruct (list_remove x l) as [l'|]; cbn in *; [|done].
    rewrite !elem_of_cons, IH. done.
Qed.

(** X12.  Ticking a vehicle's skill box puts the skill in that vehicle's
    list, once however often the box is ticked; unticking it takes the
    skill out of a list that holds it once.  Neither changes another skill
    of the vehicle or any other vehicle, and ticking a skill the vehicle did
    not have and unticking it again restores the vehicle's list. *)
Theorem vehicle_skill_toggle_sets_membership vehicle_id skill a :
  let ticked := on_vehicle_skill_toggle vehicle_id skill true a in
  let unticked := on_vehicle_skill_toggle vehicle_id skill false a in
  skill ∈ skills_of ticked vehicle_id
  ∧ on_vehicle_skill_toggle vehicle_id skill true ticked = ticked
  ∧ (NoDup (skills_of a vehicle_id) -> skill ∉ skills_of unticked vehicle_id)
  ∧ (∀ other, other ≠ skill ->
       (other ∈ skills_of ticked vehicle_id <-> other ∈ skills_of a vehicle_id)
       ∧ (other ∈ skills_of unticked vehicle_id
          <-> other ∈ skills_of a vehicle_id))
  ∧ (∀ v, v ≠ vehicle_id ->
       skills_of ticked v = skills_of a v ∧ skills_of unticked v = skills_of a v)
  ∧ (skill ∉ skills_of a vehicle_id ->
     skills_of (on_vehicle_skill_toggle vehicle_id skill false ticked) vehicle_id
     = skills_of a vehicle_id).
Proof.
  cbn zeta. unfold skills_of.
  assert (Hticked :
    vehicle_skills (on_vehicle_skill_toggle vehicle_id skill true a) !! vehicle_id
    = Some (if bool_decide (skill ∈ default [] (vehicle_skills a !! vehicle_id))
            then default [] (vehicle_skills a !! vehicle_id)
            else default [] (vehicle_skills a !! vehicle_id) ++ [skill])
    ∧ ∀ v, v ≠ vehicle_id ->
        vehicle_skills (on_vehicle_skill_toggle vehicle_id skill true a) !! v
        = vehicle_skills a !! v).
  { unfold on_vehicle_skill_toggle.
    destruct (vehicle_skills a !! vehicle_id) as [skills|] eqn:Hv; cbn.
    - rewrite Hv. cbn. case_bool_decide; cbn.
      + split; [exact Hv|done].
      + rewrite lookup_insert_eq. split; [done|]. intros v Hne.
        by rewrite lookup_insert_ne.
    - rewrite lookup_insert_eq. cbn.
      rewrite bool_decide_eq_false_2 by apply not_elem_of_nil. cbn.
      rewrite lookup_insert_eq. split; [done|]. intros v Hne.
      by rewrite !lookup_insert_ne. }
  assert (Hunticked :
    default [] (vehicle_skills (on_vehicle_skill_toggle vehicle_id skill false a)
                !! vehicle_id)
    = discard skill (default [] (vehicle_skills a !! vehicle_id))
    ∧ ∀ v, v ≠ vehicle_id ->
        vehicle_skills (on_vehicle_skill_toggle vehicle_id skill false a) !! v
        = vehicle_skills a !! v).
  { unfold on_vehicle_skill_toggle.
    destruct (vehicle_skills a !! vehicle_id) as [skills|] eqn:Hv; cbn.
    - rewrite lookup_insert_eq. split; [done|]. intros v Hne.
      by rewrite lookup_insert_ne.
    - rewrite Hv. done. }
  destruct Hticked as [Hticked Hticked_other].
  destruct Hunticked as [Hunticked Hunticked_other].
  split; [|split; [|split; [|split; [|split]]]].
  - rewrite Hticked. cbn. case_bool_decide; [done|].
    apply elem_of_app. right. apply list_elem_of_here.
  - unfold on_vehicle_skill_toggle at 1. rewrite Hticked.
    cbn [default].
    assert (Hin : skill ∈ (if bool_decide (skill ∈ default [] (vehicle_skills a
                                                                !! vehicle_id))
                           then default [] (vehicle_skills a !! vehicle_id)
                           else default [] (vehicle_skills a !! vehicle_id)
                                ++ [skill])).
    { case_bool_decide; [done|]. apply elem_of_app. right. apply list_elem_of_here. }
    rewrite Hticked. cbn [default]. rewrite (bool_decide_eq_true_2 _ Hin).
    by destruct (on_vehicle_skill_toggle vehicle_id skill true a).
  - intros Hnodup. rewrite Hunticked, discard_filter by exact Hnodup.
    rewrite list_elem_of_filter. intros [Hne _]. by apply Hne.
  - intros other Hne. split.
    + rewrite Hticked. cbn. case_bool_decide; [done|].
      rewrite elem_of_app, list_elem_of_singleton. tauto.
    + rewrite Hunticked. by apply elem_of_discard_other.
  - intros v Hne. by rewrite Hticked_other, Hunticked_other.
  - intros Hnew.
    unfold on_vehicle_skill_toggle at 1. rewrite Hticked.
    cbn. rewrite lookup_insert_eq. cbn.
    rewrite bool_decide_eq_false_2 by exact Hnew.
    by apply discard_app_new.
Qed.

Lemma vehicle_skill_toggle_sets_membership_witness :
  ("electrician"%string
   ∉ skills_of (on_vehicle_skill_toggle 0 "electrician" false electrician_on_board) 0)
  ∧ skills_of (on_vehicle_skill_toggle 1 "heavy_lift" false
                 (on_vehicle_skill_toggle 1 "heavy_lift" true electrician_on_board)) 1
    = skills_of electrician_on_board 1.
Proof.
  destruct (vehicle_skill_toggle_sets_membership 0 "electrician" electrician_on_board)
    as (_ & _ & Hunticked & _).
  destruct (vehicle_skill_toggle_sets_membership 1 "heavy_lift" electrician_on_board)
    as (_ & _ & _ & _ & _ & Hrestored).
  split.
  - apply Hunticked.
    apply (bool_decide_eq_true_1 (NoDup (skills_of electrician_on_board 0))).
    vm_compute. reflexivity.
  - apply Hrestored.
    apply (bool_decide_eq_true_1
             ("heavy_lift"%string ∉ skills_of electrician_on_board 1)).
    vm_compute. reflexivity.
Defined.

(** X13.  Ticking a skill box of the selected node adds the skill to the
    requirements of that node and of no other; unticking it again gives
    back the scenario as it was, when the node did not require the skill
    before. *)
Theorem node_skill_toggle_round_trip skill a i node :
  selected_node a = Some i ->
  nodes a !! i = Some node ->
  skill ∉ VRPNode.required_skills node ->
  let ticked := on_node_skill_toggle skill true a in
  nodes ticked !! i
  = Some (VRPNode.with_required_skills
            ({[ skill ]} ∪ VRPNode.required_skills node) node)
  ∧ (∀ j, j ≠ i -> nodes ticked !! j = nodes a !! j)
  ∧ on_node_skill_toggle skill false ticked = a.
Proof.
  intros Hsel Hi Hnew. cbn zeta.
  unfold on_node_skill_toggle, update_selected. rewrite Hsel. cbn.
  rewrite Hsel. split; [|split].
  - by rewrite list_lookup_alter_eq, Hi.
  - intros j Hne. by rewrite list_lookup_alter_ne.
  - assert (Hid : alter (VRPNode.remove_required_skill skill) i
                    (alter (VRPNode.add_required_skill skill) i (nodes a))
                  = nodes a).
    { apply list_eq. intros j. destruct (decide (j = i)) as [->|Hne].
      - rewrite !list_lookup_alter_eq, Hi. cbn. f_equal.
        rewrite remove_required_skill_difference.
        unfold VRPNode.add_required_skill, VRPNode.with_required_skills. cbn.
        assert (Hset : ({[ skill ]} ∪ VRPNode.required_skills node) ∖ {[ skill ]}
                       = VRPNode.required_skills node).
        { apply set_eq. intros s.
          rewrite elem_of_difference, elem_of_union, elem_of_singleton.
          split; [tauto|]. intros Hs. split; [tauto|]. by intros ->. }
        rewrite Hset. by destruct node.
      - by rewrite !list_lookup_alter_ne. }
    rewrite Hid. by destruct a.
Qed.

Lemma node_skill_toggle_round_trip_witness :
  on_node_skill_toggle "electrician" false electrician_needed = two_customers.
Proof.
  apply (node_skill_toggle_round_trip "electrician" two_customers 2%nat
           (second_customer ∅)).
  - vm_compute. reflexivity.
  - vm_compute. reflexivity.
  - apply not_elem_of_empty.
Defined.

(** X14.  [on_delete_skill] changes nothing when the confirmation dialog is
    declined.  For a skill that is not in the catalog [list.remove] raises
    [ValueError] before anything is removed: the vehicles and nodes keep the
    skill. *)
Theorem delete_skill_declined_or_unknown skill a :
  on_delete_skill skill false a = (a, [])
  ∧ (skill ∉ available_skills a ->
     on_delete_skill skill true a = (a, [callback_exception ValueError])).
Proof.
  split; [reflexivity|]. intros Hnew. unfold on_delete_skill.
  by rewrite (proj2 (list_remove_None skill (available_skills a)) Hnew).
Qed.

Lemma delete_skill_declined_or_unknown_witness :
  on_delete_skill "welding" true electrician_on_board
  = (electrician_on_board, [callback_exception ValueError]).
Proof.
  apply (delete_skill_declined_or_unknown "welding" electrician_on_board).
  apply (bool_decide_eq_true_1
           ("welding"%string ∉ available_skills electrician_on_board)).
  vm_compute. reflexivity.
Defined.

(** X15.  Confirming "Clear All" in a session leaves the depot as the only
    node and empties routes and selection.  The fleet, the catalog and the
    id counter stay: customers placed afterwards continue the numbering. *)
Theorem clear_all_keeps_depot str_strip int_of_str str_of_int a :
  reachable str_strip int_of_str str_of_int a ->
  ∃ depot_node,
    head (nodes a) = Some depot_node
    ∧ nodes (on_clear_all true a) = [depot_node]
    ∧ routes (on_clear_all true a) = []
    ∧ selected_node (on_clear_all true a) = None
    ∧ id_counter (on_clear_all true a) = id_counter a
    ∧ num_vehicles (on_clear_all true a) = num_vehicles a
    ∧ available_skills (on_clear_all true a) = available_skills a
    ∧ vehicle_skills (on_clear_all true a) = vehicle_skills a.
Proof.
  intros Hr.
  destruct (reachable_depot_first _ _ _ _ Hr)
    as (depot_node & customers & Hnodes & Hdepot & _ & Hcustomers).
  exists depot_node. rewrite Hnodes. cbn. repeat split.
  rewrite Hnodes, filter_cons_True by exact Hdepot. f_equal.
  clear Hnodes. induction Hcustomers as [|customer customers Hc _ IH]; [done|].
  rewrite filter_cons_False by congruence. exact IH.
Qed.

Lemma clear_all_keeps_depot_witness :
  ∃ depot_node,
    head (nodes two_customers) = Some depot_node
    ∧ nodes (on_clear_all true two_customers) = [depot_node]
    ∧ id_counter (on_clear_all true two_customers) = id_counter two_customers.
Proof.
  destruct (clear_all_keeps_depot (fun s => s) parse_decimal (fun _ => ""%string)
              two_customers)
    as (depot_node & Hhead & Hnodes & _ & _ & Hcounter & _).
  - unfold two_customers.
    eapply reachable_edit; [eapply reachable_edit; [apply reachable_init|]|];
      apply edit_canvas_click.
  - exists depot_node. split; [exact Hhead|]. split; [exact Hnodes|exact Hcounter].
Defined.

(** ** Distances are not negative *)

Lemma binary_round_aux_not_negative m e l :
  sign_not_negative (binary_round_aux prec emax false m e l).
Proof.
  unfold binary_round_aux.
  destruct (shr_fexp prec emax m e l) as [mrs' e'].
  destruct (shr_fexp prec emax _ e' loc_Exact) as [mrs'' e''].
  destruct (shr_m mrs''); [done| |done].
  by destruct (e'' <=? emax - prec).
Qed.

Lemma sqrt_not_negative (x : float) :
  sign_not_negative (Prim2SF (PrimFloat.sqrt x)).
Proof.
  rewrite sqrt_spec. unfold SF64sqrt, SFsqrt.
  destruct (Prim2SF x) as [s|[]| |[] m e]; try done.
  destruct (SFsqrt_core_binary prec emax (Z.pos m) e) as [[mz ez] lz].
  apply binary_round_aux_not_negative.
Qed.

Lemma mul_hundred_not_negative (r : float) :
  sign_not_negative (Prim2SF r) ->
  sign_not_negative (Prim2SF (r * PyFloat.of_int 100)).
Proof.
  assert (Hh : Prim2SF (PyFloat.of_int 100)
               = S754_finite false 7036874417766400 (-46))
    by (vm_compute; reflexivity).
  rewrite mul_spec. unfold SF64mul. rewrite Hh.
  destruct (Prim2SF r) as [s|s| |s m e]; cbn; try done.
  - intros ->. done.
  - intros ->. apply binary_round_aux_not_negative.
Qed.

Lemma to_int_not_negative (x : float) (z : Z) :
  sign_not_negative (Prim2SF x) -> PyFloat.to_int x = Ok z -> 0 <= z.
Proof.
  unfold PyFloat.to_int.
  destruct (Prim2SF x) as [s|s| |s m e]; cbn; intros Hs Hz; try discriminate Hz.
  - injection Hz as <-. lia.
  - subst s. injection Hz as <-.
    destruct (0 <=? e) eqn:He.
    + apply Z.shiftl_nonneg. lia.
    + apply Z.shiftr_nonneg. lia.
Qed.

Lemma scaled_distance_not_negative node_i node_j d :
  scaled_distance node_i node_j = Ok d -> 0 <= d.
Proof.
  unfold scaled_distance. intros Hd.
  destruct (PyFloat.pow2 (VRPNode.x node_i - VRPNode.x node_j)) as [dx| |];
    [|discriminate Hd..].
  destruct (PyFloat.pow2 (VRPNode.y node_i - VRPNode.y node_j)) as [dy| |];
    [|discriminate Hd..].
  cbn in Hd.
  destruct (PyFloat.math_sqrt (dx + dy)) as [r| |] eqn:Hr; [|discriminate Hd..].
  cbn in Hd. apply math_sqrt_Ok in Hr as ->.
  eapply to_int_not_negative; [|exact Hd].
  apply mul_hundred_not_negative, sqrt_not_negative.
Qed.

(** X16.  Every entry of the distance matrix is a non-negative integer. *)
Theorem distance_matrix_not_negative a data i j d :
  prepare_solver_data a = Ok data ->
  entry (distance_matrix data) i j = Some d ->
  0 <= d.
Proof.
  intros Hdata Hentry.
  destruct (prepare_solver_data_spec a data Hdata) as [Hlen Hrows].
  unfold entry in Hentry.
  destruct (distance_matrix data !! i) as [row|] eqn:Hrow; [|discriminate Hentry].
  cbn in Hentry.
  destruct (nodes a !! i) as [node_i|] eqn:Hi.
  2: { apply lookup_ge_None in Hi. apply lookup_lt_Some in Hrow. lia. }
  destruct (Hrows i node_i Hi) as (row' & Hrow' & Hrow_i).
  assert (row' = row) as -> by congruence.
  destruct (distance_row_spec _ _ _ _ Hrow_i) as [Hlen_row Hcells].
  destruct (nodes a !! j) as [node_j|] eqn:Hj.
  2: { apply lookup_ge_None in Hj. apply lookup_lt_Some in Hentry. lia. }
  destruct (Hcells j node_j Hj) as (d' & Hd' & Hcell).
  assert (d' = d) as -> by congruence.
  case_bool_decide.
  - injection Hcell as <-. lia.
  - by eapply scaled_distance_not_negative.
Qed.

Lemma distance_matrix_not_negative_witness : 0 <= 409.
Proof.
  apply (distance_matrix_not_negative two_customers
           (mk_data [[0; 1000; 409]; [1000; 0; 590]; [409; 590; 0]] 4 0)
           0%nat 2%nat).
  - vm_compute. reflexivity.
  - reflexivity.
Defined.

(** ** The worker's run *)





Ltac answer_of_last_call :=
  do 4 eexists; split; [reflexivity|]; split; [eassumption|];
  split; [first [by left|by right]|].



(** X18.  A scenario with a time window or a required skill is solved in one
    attempt: the fallback search is never tried and the generic "more
    vehicles" error is never reported for it. *)
Theorem constrained_run_single_attempt lib solve a a1 a2 :
  Exists (fun node => is_Some (VRPNode.time_window node)) (nodes a)
  ∨ Exists (fun node => VRPNode.required_skills node ≠ ∅) (nodes a) ->
  let r := run_vrp_solver_live lib solve a a1 a2 in
  (length (solver_calls r) <= 1)%nat
  ∧ (debug first_attempt_failed ∉ queue r)
  ∧ (error more_vehicles_or_constraints ∉ queue r).
Proof.
  intros Hconstrained. cbn zeta.
  assert (Hflags : has_time_windows a = true ∨ has_skills a = true).
  { destruct Hconstrained as [Hw|Hs]; [left|right]; by apply bool_decide_eq_true. }
  destruct_run;
    try (destruct Hflags; congruence);
    (split; [cbn; lia|]; split; intros Hin; invert_elem_of Hin).
Qed.

Lemma constrained_run_single_attempt_witness :
  (length (solver_calls (run_vrp_solver routing_library no_solution two_customers_windowed)) <= 1)%nat
  ∧ (debug first_attempt_failed
     ∉ queue (run_vrp_solver routing_library no_solution two_customers_windowed)).
Proof.
  destruct (constrained_run_single_attempt routing_library no_solution two_customers_windowed
              two_customers_windowed two_customers_windowed)
    as (Hcalls & Hdebug & _).
  - left.
    apply (bool_decide_eq_true_1
             (Exists (fun node => is_Some (VRPNode.time_window node))
                     (nodes two_customers_windowed))).
    vm_compute. reflexivity.
  - split; [exact Hcalls|exact Hdebug].
Defined.

(** X19.  "Solve" does nothing but open a dialog while the scenario has
    fewer than two nodes.  Otherwise it starts a run, and when the node list
    is not edited during that run the diagnosis "Need at least one customer
    node" is never reported. *)
Theorem solve_needs_two_nodes lib solve a :
  ((length (nodes a) < 2)%nat ->
   ∃ title message, on_solve_vrp lib solve a = (None, [showinfo title message]))
  ∧ ((2 <= length (nodes a))%nat ->
     on_solve_vrp lib solve a = (Some (run_vrp_solver lib solve a), [])
     ∧ (error need_customer ∉ queue (run_vrp_solver lib solve a))).
Proof.
  unfold on_solve_vrp. split; intros Hlen.
  - rewrite bool_decide_eq_true_2 by exact Hlen. eauto.
  - rewrite bool_decide_eq_false_2 by lia. split; [reflexivity|].
    destruct_run; intros Hin; invert_elem_of Hin;
      apply bool_decide_eq_true in Hdecide; lia.
Qed.

Lemma solve_needs_two_nodes_witness :
  (∃ title message, on_solve_vrp routing_library tour_solver init = (None, [showinfo title message]))
  ∧ on_solve_vrp routing_library tour_solver two_customers
    = (Some (run_vrp_solver routing_library tour_solver two_customers), []).
Proof.
  split.
  - apply (solve_needs_two_nodes routing_library tour_solver init). vm_compute. lia.
  - apply (solve_needs_two_nodes routing_library tour_solver two_customers). vm_compute. lia.
Defined.

(** The solver is called only after the skill check has passed. *)
Lemma solver_calls_checked lib solve a a1 a2 :
  solver_calls (run_vrp_solver_live lib solve a a1 a2) ≠ [] ->
  ∃ data, prepare_solver_data a = Ok data
          ∧ (has_skills a = true -> unserved_node a (num_vehicles a) = None).
Proof.
  pose proof (prepare_solver_data_fields a) as Hfields.
  destruct_run; try done; intros _; eexists; (split; [reflexivity|]);
    intros Hs; try discriminate Hs; try rewrite Hs in Hcheck; cbn in Hcheck;
    destruct (Hfields _ eq_refl) as [<- _]; exact Hcheck.
Qed.

Lemma elem_of_solver_calls lib solve a a1 a2 routing p :
  (routing, p) ∈ solver_calls (run_vrp_solver_live lib solve a a1 a2) ->
  ∃ data, prepare_solver_data a = Ok data
          ∧ routing = build_routing a data
          ∧ (has_skills a = true -> unserved_node a (num_vehicles a) = None).
Proof.
  intros Hin.
  destruct (solver_calls_checked lib solve a a1 a2) as (data & Hdata & Hchecked).
  { intros Hnil. rewrite Hnil in Hin. by apply elem_of_nil in Hin. }
  exists data. split; [exact Hdata|]. split; [|exact Hchecked].
  destruct (solver_calls_shape lib solve a a1 a2) as [Hnil|(data' & Hdata' & Hcalls)].
  { rewrite Hnil in Hin. by apply elem_of_nil in Hin. }
  assert (data' = data) as -> by congruence.
  destruct Hcalls as [Hcalls|Hcalls]; rewrite Hcalls in Hin;
    invert_elem_of Hin; congruence.
Qed.

(** X20.  Whenever the solver is called, the routing model restricts the
    vehicle of exactly the customers that require skills, each to the
    vehicles of the fleet that hold all of its skills, and none of these
    sets is empty.  The depot is never restricted. *)
Theorem vehicle_domains_of_solver_call lib solve a a1 a2 routing p :
  (routing, p) ∈ solver_calls (run_vrp_solver_live lib solve a a1 a2) ->
  (∀ i vehicles,
     (i, vehicles) ∈ rm_vehicle_domains routing <->
     ∃ node, nodes a !! i = Some node
             ∧ VRPNode.is_depot node = false
             ∧ VRPNode.required_skills node ≠ ∅
             ∧ vehicles = valid_vehicles a (num_vehicles a) node)
  ∧ (∀ i vehicles,
       (i, vehicles) ∈ rm_vehicle_domains routing ->
       vehicles ≠ []
       ∧ ∃ node, nodes a !! i = Some node
           ∧ ∀ v, v ∈ vehicles <->
                  0 <= v < num_vehicles a
                  ∧ VRPNode.required_skills node
                      ⊆ (list_to_set (skills_of a v) : gset string)).
Proof.
  intros Hin.
  destruct (elem_of_solver_calls _ _ _ _ _ _ _ Hin) as (data & Hdata & -> & Hchecked).
  destruct (prepare_solver_data_fields a data Hdata) as [Hvehicles _].
  assert (Hdomains : ∀ i vehicles,
    (i, vehicles) ∈ rm_vehicle_domains (build_routing a data) <->
    ∃ node, nodes a !! i = Some node
            ∧ VRPNode.is_depot node = false
            ∧ VRPNode.required_skills node ≠ ∅
            ∧ vehicles = valid_vehicles a (num_vehicles a) node).
  { intros i vehicles. cbn. rewrite Hvehicles.
    destruct (has_skills a) eqn:Hs.
    - unfold vehicle_domains. rewrite list_elem_of_omap. split.
      + intros ([k node] & Hk & Hsome). apply elem_of_enumerate in Hk.
        destruct (bool_decide (VRPNode.required_skills node = ∅)) eqn:Hreq;
          [discriminate Hsome|].
        destruct (VRPNode.is_depot node) eqn:Hdepot; [discriminate Hsome|].
        cbn in Hsome. injection Hsome as <- <-.
        exists node. apply bool_decide_eq_false in Hreq. done.
      + intros (node & Hi & Hdepot & Hreq & ->).
        exists (i, node). split; [by apply elem_of_enumerate|].
        rewrite bool_decide_eq_false_2 by exact Hreq. by rewrite Hdepot.
    - split; [intros Hnil; by apply elem_of_nil in Hnil|].
      intros (node & Hi & _ & Hreq & _).
      apply has_skills_false in Hs. destruct Hs.
      apply Exists_exists. exists node. split; [|exact Hreq].
      by eapply list_elem_of_lookup_2. }
  split; [exact Hdomains|].
  intros i vehicles Hdomain.
  apply Hdomains in Hdomain as (node & Hi & Hdepot & Hreq & ->).
  split.
  - intros Hnil.
    assert (Hs : has_skills a = true).
    { apply bool_decide_eq_true. apply Exists_exists. exists node.
      split; [by eapply list_elem_of_lookup_2|exact Hreq]. }
    specialize (Hchecked Hs). unfold unserved_node in Hchecked.
    apply list_find_None in Hchecked.
    apply (proj1 (Forall_forall _ _) Hchecked node);
      [by eapply list_elem_of_lookup_2|done].
  - exists node. split; [exact Hi|]. intros v. apply elem_of_valid_vehicles.
Qed.

Lemma vehicle_domains_of_solver_call_witness :
  (2%nat, [0])
  ∈ rm_vehicle_domains
      (build_routing electrician_on_board
         (mk_data [[0; 1000; 409]; [1000; 0; 590]; [409; 590; 0]] 4 0)).
Proof.
  destruct (vehicle_domains_of_solver_call routing_library tour_solver electrician_on_board
              electrician_on_board electrician_on_board
              (build_routing electrician_on_board
                 (mk_data [[0; 1000; 409]; [1000; 0; 590]; [409; 590; 0]] 4 0))
              (search_parameters electrician_on_board)) as [Hdomains _].
  - assert (Hcalls :
      solver_calls (run_vrp_solver_live routing_library tour_solver electrician_on_board
                      electrician_on_board electrician_on_board)
      = [(build_routing electrician_on_board
            (mk_data [[0; 1000; 409]; [1000; 0; 590]; [409; 590; 0]] 4 0),
          search_parameters electrician_on_board)])
      by (vm_compute; reflexivity).
    apply (eq_ind_r (fun calls => _ ∈ calls) (list_elem_of_here _ _) Hcalls).
  - apply Hdomains. exists (second_customer {[ "electrician"%string ]}).
    split; [vm_compute; reflexivity|]. split; [reflexivity|].
    split; [|vm_compute; reflexivity].
    apply (bool_decide_eq_true_1
             (VRPNode.required_skills (second_customer {[ "electrician"%string ]})
              ≠ ∅)).
    vm_compute. reflexivity.
Defined.

(** X21.  Whenever the solver is called, the routing model has the "Time"
    dimension exactly when some node of the scenario has a time window, and
    that dimension restricts the arrival time at exactly the nodes with a
    time window, the depot included, each to its own window.  The model is
    built for the scenario's vehicle count. *)
Theorem time_dimension_of_solver_call lib solve a a1 a2 routing p :
  (routing, p) ∈ solver_calls (run_vrp_solver_live lib solve a a1 a2) ->
  rm_num_vehicles routing = num_vehicles a
  ∧ ((∃ d, d ∈ rm_dimensions routing ∧ dim_name d = "Time"%string)
     <-> Exists (fun node => is_Some (VRPNode.time_window node)) (nodes a))
  ∧ (∀ d, d ∈ rm_dimensions routing -> dim_name d = "Time"%string ->
       ∀ i w, (i, w) ∈ dim_ranges d
              <-> ∃ node, nodes a !! i = Some node
                          ∧ VRPNode.time_window node = Some w).
Proof.
  intros Hin.
  destruct (elem_of_solver_calls _ _ _ _ _ _ _ Hin) as (data & Hdata & -> & _).
  destruct (prepare_solver_data_fields a data Hdata) as [Hvehicles _].
  split; [exact Hvehicles|]. cbn.
  assert (Hranges : ∀ i w,
    (i, w) ∈ dim_ranges (time_dimension a)
    <-> ∃ node, nodes a !! i = Some node ∧ VRPNode.time_window node = Some w).
  { intros i w. cbn. rewrite list_elem_of_omap. split.
    - intros ([k node] & Hk & Hsome). apply elem_of_enumerate in Hk.
      destruct (VRPNode.time_window node) as [w'|] eqn:Hw; [|discriminate Hsome].
      cbn in Hsome. injection Hsome as <- <-. by exists node.
    - intros (node & Hi & Hw). exists (i, node).
      split; [by apply elem_of_enumerate|]. by rewrite Hw. }
  destruct (has_time_windows a) eqn:Hw.
  - split.
    + split; [intros _; by apply bool_decide_eq_true in Hw|].
      intros _. exists (time_dimension a). split; [|reflexivity].
      apply list_elem_of_further, list_elem_of_here.
    + intros d Hd Hname. invert_elem_of Hd; subst d; [discriminate Hname|].
      exact Hranges.
  - split.
    + split.
      * intros (d & Hd & Hname). invert_elem_of Hd. subst d. discriminate Hname.
      * intros Hex. apply has_time_windows_false in Hw. by destruct Hw.
    + intros d Hd Hname. invert_elem_of Hd. subst d. discriminate Hname.
Qed.

Lemma time_dimension_of_solver_call_witness :
  ∃ d, d ∈ rm_dimensions
             (build_routing two_customers_windowed
                (mk_data [[0; 1000; 409]; [1000; 0; 590]; [409; 590; 0]] 4 0))
       ∧ dim_name d = "Time"%string.
Proof.
  destruct (time_dimension_of_solver_call routing_library tour_solver two_customers_windowed
              two_customers_windowed two_customers_windowed
              (build_routing two_customers_windowed
                 (mk_data [[0; 1000; 409]; [1000; 0; 590]; [409; 590; 0]] 4 0))
              (search_parameters two_customers_windowed)) as (_ & Hdim & _).
  - assert (Hcalls :
      solver_calls (run_vrp_solver_live routing_library tour_solver two_customers_windowed
                      two_customers_windowed two_customers_windowed)
      = [(build_routing two_customers_windowed
            (mk_data [[0; 1000; 409]; [1000; 0; 590]; [409; 590; 0]] 4 0),
          search_parameters two_customers_windowed)])
      by (vm_compute; reflexivity).
    apply (eq_ind_r (fun calls => _ ∈ calls) (list_elem_of_here _ _) Hcalls).
  - apply Hdim.
    apply (bool_decide_eq_true_1
             (Exists (fun node => is_Some (VRPNode.time_window node))
                     (nodes two_customers_windowed))).
    vm_compute. reflexivity.
Defined.

(** ** Route extraction *)

Lemma walk_route_spec fuel solution (live : list VRPNode.t) vehicle_id :
  ∀ index route route_distance result,
    walk_route fuel solution live vehicle_id index route route_distance = Ok result ->
    ∃ visited, result.1 = route ++ visited
               ∧ visited ≠ []
               ∧ Forall (fun i => i ∈ VRPNode.id <$> live) visited.
Proof.
  induction fuel as [|fuel IH]; intros index route route_distance result Hwalk;
    cbn in Hwalk;
    destruct (IsEnd solution index);
    destruct (live !! IndexToNode solution index) as [node|] eqn:Hnode;
    try discriminate Hwalk.
  1, 2: injection Hwalk as <-; exists [VRPNode.id node];
    (split; [reflexivity|]); (split; [done|]);
    apply Forall_singleton, list_elem_of_fmap; exists node;
    (split; [reflexivity|by eapply list_elem_of_lookup_2]).
  apply IH in Hwalk as (visited & -> & _ & Hvisited).
  exists (VRPNode.id node :: visited). rewrite <- app_assoc.
  split; [reflexivity|]. split; [done|].
  apply Forall_cons. split; [|exact Hvisited].
  apply list_elem_of_fmap. exists node.
  split; [reflexivity|by eapply list_elem_of_lookup_2].
Qed.

Lemma extract_routes_spec solution (live : list VRPNode.t) vehicles :
  ∀ routes max_route_distance result,
    extract_routes solution live vehicles routes max_route_distance = Ok result ->
    max_route_distance <= result.2
    ∧ ∃ new, result.1 = routes ++ new
             ∧ Forall2 (fun vehicle_id route =>
                          ∃ d, walk_route (num_indices solution) solution live
                                 vehicle_id (Start solution vehicle_id) [] 0
                               = Ok (route, d)
                               ∧ d <= result.2)
                       vehicles new.
Proof.
  induction vehicles as [|v vehicles IH];
    intros routes max_route_distance result Hextract; cbn in Hextract.
  - injection Hextract as <-. cbn. split; [lia|]. exists [].
    rewrite app_nil_r. split; [reflexivity|constructor].
  - destruct (walk_route _ _ _ _ _ _ _) as [[route d]| |] eqn:Hwalk;
      cbn in Hextract; try discriminate Hextract.
    apply IH in Hextract as (Hmax & new & Hroutes & Hnew).
    split; [lia|]. exists (route :: new). rewrite Hroutes, <- app_assoc.
    split; [reflexivity|]. constructor; [|exact Hnew].
    exists d. split; [exact Hwalk|lia].
Qed.

Lemma extract_routes_max solution (live : list VRPNode.t) vehicles :
  ∀ routes max_route_distance result,
    extract_routes solution live vehicles routes max_route_distance = Ok result ->
    result.2 = max_route_distance
    ∨ ∃ vehicle_id route,
        vehicle_id ∈ vehicles
        ∧ walk_route (num_indices solution) solution live vehicle_id
            (Start solution vehicle_id) [] 0
          = Ok (route, result.2).
Proof.
  induction vehicles as [|v vehicles IH];
    intros routes max_route_distance result Hextract; cbn in Hextract.
  - injection Hextract as <-. by left.
  - destruct (walk_route _ _ _ _ _ _ _) as [[route d]| |] eqn:Hwalk;
      cbn in Hextract; try discriminate Hextract.
    apply IH in Hextract as [Hmax|(vehicle_id & route' & Hv & Hwalk')].
    + destruct (Z.max_spec d max_route_distance) as [[_ Hd]|[_ Hd]];
        rewrite Hd in Hmax; [by left|].
      right. exists v, route. split; [left|]. by rewrite Hmax.
    + right. exists vehicle_id, route'. split; [by right|exact Hwalk'].
Qed.

(** X22.  A run that reports success reports what the extraction reads from
    the solution that the solver returned to the last call of the run, over
    the node list as it is when that call has returned.  There is one route
    for each vehicle of the fleet, and the route at position [v] is the walk
    of vehicle [v] through that solution.  No route is empty and every entry
    of a route is the id of a node of the live node list.  The reported
    maximum is not negative and not below the accumulated arc cost of any
    route, and it is 0 or the accumulated arc cost of one of the routes. *)
Theorem success_routes_shape lib solve a a1 a2 routes max_route_distance :
  success routes max_route_distance
  ∈ queue (run_vrp_solver_live lib solve a a1 a2) ->
  ∃ routing p solution live,
    last (solver_calls (run_vrp_solver_live lib solve a a1 a2))
    = Some (routing, p)
    ∧ solve routing p = Some solution
    ∧ ((length (solver_calls (run_vrp_solver_live lib solve a a1 a2)) = 1%nat
        ∧ live = nodes a1)
       ∨ (length (solver_calls (run_vrp_solver_live lib solve a a1 a2)) = 2%nat
          ∧ live = nodes a2))
    ∧ length routes = Z.to_nat (num_vehicles a)
    ∧ Forall (fun route => route ≠ []
                           ∧ Forall (fun i => i ∈ VRPNode.id <$> live) route)
             routes
    ∧ (∀ v route, routes !! v = Some route ->
         ∃ d, walk_route (num_indices solution) solution live (Z.of_nat v)
                (Start solution (Z.of_nat v)) [] 0 = Ok (route, d)
              ∧ d <= max_route_distance)
    ∧ 0 <= max_route_distance
    ∧ (max_route_distance = 0
       ∨ ∃ v route,
           routes !! v = Some route
           ∧ walk_route (num_indices solution) solution live (Z.of_nat v)
               (Start solution (Z.of_nat v)) [] 0
             = Ok (route, max_route_distance)).
Proof.
  intros Hin.
  assert (∃ routing p solution live,
            last (solver_calls (run_vrp_solver_live lib solve a a1 a2))
            = Some (routing, p)
            ∧ solve routing p = Some solution
            ∧ ((length (solver_calls (run_vrp_solver_live lib solve a a1 a2))
                = 1%nat ∧ live = nodes a1)
               ∨ (length (solver_calls (run_vrp_solver_live lib solve a a1 a2))
                  = 2%nat ∧ live = nodes a2))
            ∧ extract_routes solution live (seqZ 0 (num_vehicles a)) [] 0
              = Ok (routes, max_route_distance))
    as (routing & p & solution & live & Hlast & Hsolve & Hlive & Hextract).
  { pose proof (prepare_solver_data_fields a) as Hfields. revert Hin.
    destruct_run; intros Hin; invert_elem_of Hin;
      injection Hin as <- <-;
      destruct (Hfields _ eq_refl) as [Hvehicles _]; rewrite Hvehicles in *;
      answer_of_last_call; assumption. }
  exists routing, p, solution, live.
  split; [exact Hlast|]. split; [exact Hsolve|]. split; [exact Hlive|].
  pose proof (extract_routes_max _ _ _ _ _ _ Hextract) as Hattained.
  apply extract_routes_spec in Hextract as (Hmax & new & Hroutes & Hnew).
  cbn in Hmax, Hroutes, Hnew, Hattained. subst new.
  split; [|split; [|split; [|split; [exact Hmax|]]]].
  - apply Forall2_length in Hnew. rewrite <- Hnew. apply length_seqZ.
  - apply Forall_forall. intros route Hroute.
    apply list_elem_of_lookup in Hroute as [v Hv].
    destruct (Forall2_lookup_r _ _ _ _ _ Hnew Hv) as (vehicle_id & _ & d & Hwalk & _).
    apply walk_route_spec in Hwalk as (visited & Hvisited & Hne & Hids).
    cbn in Hvisited. by subst route.
  - intros v route Hv.
    destruct (Forall2_lookup_r _ _ _ _ _ Hnew Hv) as (vehicle_id & Hvehicle & Hwalk).
    apply lookup_seqZ in Hvehicle as [-> _]. by rewrite Z.add_0_l in Hwalk.
  - destruct Hattained as [Hzero|(vehicle_id & route & Hvehicle & Hwalk)];
      [by left|right].
    apply list_elem_of_lookup in Hvehicle as [v Hv].
    destruct (Forall2_lookup_l _ _ _ _ _ Hnew Hv) as (route' & Hroute & d & Hwalk' & _).
    apply lookup_seqZ in Hv as [-> _]. rewrite Z.add_0_l in Hwalk, Hwalk'.
    exists v, route. split; [|exact Hwalk]. congruence.
Qed.

Lemma success_routes_shape_witness :
  ∃ routing p solution live,
    last (solver_calls (run_vrp_solver_live routing_library tour_solver
                          two_customers two_customers two_customers))
    = Some (routing, p)
    ∧ tour_solver routing p = Some solution
    ∧ ((length (solver_calls (run_vrp_solver_live routing_library tour_solver
                                two_customers two_customers two_customers))
        = 1%nat ∧ live = nodes two_customers)
       ∨ (length (solver_calls (run_vrp_solver_live routing_library tour_solver
                                  two_customers two_customers two_customers))
          = 2%nat ∧ live = nodes two_customers))
    ∧ length [[0; 0; 1; 0]; [0; 0]; [0; 0]; [0; 0]]
      = Z.to_nat (num_vehicles two_customers)
    ∧ Forall (fun route => route ≠ []
                           ∧ Forall (fun i => i ∈ VRPNode.id <$> live) route)
             [[0; 0; 1; 0]; [0; 0]; [0; 0]; [0; 0]]
    ∧ (∀ v route, [[0; 0; 1; 0]; [0; 0]; [0; 0]; [0; 0]] !! v = Some route ->
         ∃ d, walk_route (num_indices solution) solution live (Z.of_nat v)
                (Start solution (Z.of_nat v)) [] 0 = Ok (route, d)
              ∧ d <= 1999)
    ∧ 0 <= 1999
    ∧ (1999 = 0
       ∨ ∃ v route,
           [[0; 0; 1; 0]; [0; 0]; [0; 0]; [0; 0]] !! v = Some route
           ∧ walk_route (num_indices solution) solution live (Z.of_nat v)
               (Start solution (Z.of_nat v)) [] 0
             = Ok (route, 1999)).
Proof.
  apply (success_routes_shape routing_library tour_solver two_customers
           two_customers two_customers).
  assert (Hqueue :
    queue (run_vrp_solver_live routing_library tour_solver two_customers
             two_customers two_customers)
    = [started two_customers;
       success [[0; 0; 1; 0]; [0; 0]; [0; 0]; [0; 0]] 1999])
    by (vm_compute; reflexivity).
  apply (eq_ind_r (fun q => _ ∈ q)
                  (list_elem_of_further _ _ _ (list_elem_of_here _ _)) Hqueue).
Defined.

(** X23.  Polling the queue of a run changes nothing but the routes.  The
    routes of a success message replace the routes on display; an error
    message opens the "Solver Error" dialog with that message and leaves the
    routes as they are; while no such message has arrived nothing
    happens. *)
Theorem solver_results_delivery lib solve a a1 a2 b :
  let r := run_vrp_solver_live lib solve a a1 a2 in
  let result := check_solver_results (queue r) b in
  with_routes (routes b) result.1 = b
  ∧ (∀ routes max_route_distance,
       success routes max_route_distance ∈ queue r ->
       result = (with_routes routes b, []))
  ∧ (∀ text, error text ∈ queue r -> result = (b, [solver_error text]))
  ∧ ((∀ m, m ∈ queue r -> ¬ is_terminal m) -> result = (b, [])).
Proof.
  cbn zeta.
  destruct_run; cbn;
    (split; [by destruct b|]);
    (split; [intros routes max_route_distance Hin; invert_elem_of Hin;
             by injection Hin as <- <-|]);
    (split; [intros text Hin; invert_elem_of Hin; by injection Hin as <-|]);
    intros Hnone; try reflexivity; exfalso;
    first
      [ by (eapply (Hnone (error _)); [|exact I];
            repeat first [ apply list_elem_of_here | apply list_elem_of_further ])
      | by (eapply (Hnone (success _ _)); [|exact I];
            repeat first [ apply list_elem_of_here | apply list_elem_of_further ]) ].
Qed.

(** ** The canvas geometry is fixed *)

Lemma canvas_of_update_selected f a : canvas_of (update_selected f a) = canvas_of a.
Proof. unfold update_selected. by destruct (selected_node a). Qed.

Lemma canvas_of_update_skills_ui a : canvas_of (update_skills_ui a) = canvas_of a.
Proof. unfold update_skills_ui. by destruct (available_skills a). Qed.

Lemma canvas_of_edit str_strip int_of_str a a' :
  edit str_strip int_of_str a a' -> canvas_of a' = canvas_of a.
Proof.
  intros Hedit. destruct Hedit.
  - unfold on_canvas_click. by destruct (find_clicked _ _ _ _ _) as [[?|]| |].
  - unfold on_canvas_right_click.
    destruct (find_clicked _ _ _ _ _) as [[i|]| |]; try done.
    destruct (nodes a !! i) as [clicked|]; [|done].
    by destruct (VRPNode.is_depot clicked).
  - unfold on_set_time_window.
    destruct (selected_node a); [|done]. destruct (_ || _); [done|].
    destruct (int_of_str _); [|done]. destruct (int_of_str _); [|done].
    repeat case_bool_decide; try done. apply canvas_of_update_selected.
  - apply canvas_of_update_selected.
  - unfold on_add_skill. repeat case_bool_decide; try done.
    cbn. by rewrite canvas_of_update_skills_ui.
  - unfold on_delete_skill. destruct confirm; [|done].
    destruct (list_remove _ _); [|done]. cbn. by rewrite canvas_of_update_skills_ui.
  - unfold on_vehicle_skill_toggle. destruct var;
      repeat (case_bool_decide || case_match); reflexivity.
  - unfold on_node_skill_toggle. destruct var; apply canvas_of_update_selected.
  - reflexivity.
  - reflexivity.
  - unfold on_clear_all. by destruct confirm.
  - induction q as [|[| |] q IH]; try reflexivity. exact IH.
Qed.

Lemma canvas_of_reachable str_strip int_of_str str_of_int a :
  reachable str_strip int_of_str str_of_int a -> canvas_of a = (800, 600, 10).
Proof.
  induction 1 as [|a a' _ IH Hedit|a saved _ IH _ _].
  - vm_compute. reflexivity.
  - by rewrite (canvas_of_edit _ _ _ _ Hedit).
  - unfold on_load_preset, on_save_preset. cbn.
    destruct (load_nodes _) as [ns c]. cbn.
    destruct (parse_vehicle_skills _ _ _); cbn; [|exact IH].
    by rewrite canvas_of_update_skills_ui.
Qed.

Lemma click_distance_canvas a a' node canvas_x canvas_y :
  canvas_of a' = canvas_of a ->
  click_distance a' node canvas_x canvas_y = click_distance a node canvas_x canvas_y.
Proof.
  unfold canvas_of. intros [= Hw Hh Hs].
  unfold click_distance, vrp_to_canvas_coords. by rewrite Hw, Hh, Hs.
Qed.

Lemma find_clicked_canvas a a' canvas_x canvas_y (ns : list VRPNode.t) :
  canvas_of a' = canvas_of a ->
  ∀ k, find_clicked a' ns k canvas_x canvas_y = find_clicked a ns k canvas_x canvas_y.
Proof.
  intros Hcanvas. induction ns as [|node ns IH]; intros k; [done|].
  cbn -[click_distance]. rewrite (click_distance_canvas a a') by exact Hcanvas.
  destruct (click_distance a node canvas_x canvas_y) as [distance| |]; cbn; try done.
  by rewrite IH.
Qed.

Lemma find_clicked_app a canvas_x canvas_y (ns ns' : list VRPNode.t) :
  ∀ k, find_clicked a ns k canvas_x canvas_y = Ok None ->
       find_clicked a (ns ++ ns') k canvas_x canvas_y
       = find_clicked a ns' (k + length ns)%nat canvas_x canvas_y.
Proof.
  induction ns as [|node ns IH]; intros k Hnone.
  - cbn [app length]. by rewrite Nat.add_0_r.
  - cbn -[click_distance] in Hnone |- *.
    destruct (click_distance a node canvas_x canvas_y) as [distance| |];
      cbn in Hnone |- *; try discriminate Hnone.
    destruct (distance <=? 10)%float; [discriminate Hnone|].
    rewrite (IH (S k) Hnone). f_equal. lia.
Qed.

(** ** Clicks on pixels *)

Lemma column_offsets : column_offset <$> seqZ 0 801 = (fun _ => Ok 0%float) <$> seqZ 0 801.
Proof. vm_compute. reflexivity. Qed.

Lemma row_offsets : row_offset <$> seqZ 0 601 = (fun _ => Ok 0%float) <$> seqZ 0 601.
Proof. vm_compute. reflexivity. Qed.

Lemma fmap_seqZ_pointwise {A} (f g : Z -> A) (n x : Z) :
  f <$> seqZ 0 n = g <$> seqZ 0 n -> 0 <= x < n -> f x = g x.
Proof.
  intros Heq Hx.
  assert (Hlookup : seqZ 0 n !! Z.to_nat x = Some x).
  { rewrite lookup_seqZ. split; lia. }
  apply (f_equal (fun l => l !! Z.to_nat x)) in Heq.
  rewrite !list_lookup_fmap, Hlookup in Heq. cbn in Heq. congruence.
Qed.

Lemma click_distance_placed a canvas_x canvas_y :
  canvas_of a = (800, 600, 10) ->
  0 <= canvas_x <= 800 -> 0 <= canvas_y <= 600 ->
  click_distance a (placed_at a canvas_x canvas_y) canvas_x canvas_y = Ok 0%float.
Proof.
  intros Hcanvas Hx Hy.
  rewrite (click_distance_canvas init a) by (rewrite Hcanvas; vm_compute; reflexivity).
  assert (Hplaced : VRPNode.x (placed_at a canvas_x canvas_y)
                    = (canvas_to_vrp_coords init (PyFloat.of_int canvas_x) 0%float).1
                    ∧ VRPNode.y (placed_at a canvas_x canvas_y)
                      = (canvas_to_vrp_coords init 0%float (PyFloat.of_int canvas_y)).2).
  { unfold canvas_of in Hcanvas. injection Hcanvas as Hw Hh Hs.
    unfold placed_at, canvas_to_vrp_coords. cbn. rewrite Hw, Hh, Hs. done. }
  destruct Hplaced as [Hpx Hpy].
  change (click_distance init (placed_at a canvas_x canvas_y) canvas_x canvas_y)
    with (dx ← PyFloat.pow2
                 ((vrp_to_canvas_coords init
                     (VRPNode.x (placed_at a canvas_x canvas_y)) 0%float).1
                  - PyFloat.of_int canvas_x)%float;
          dy ← PyFloat.pow2
                 ((vrp_to_canvas_coords init 0%float
                     (VRPNode.y (placed_at a canvas_x canvas_y))).2
                  - PyFloat.of_int canvas_y)%float;
          PyFloat.math_sqrt (dx + dy)%float).
  rewrite Hpx, Hpy.
  change ((dx ← column_offset canvas_x; dy ← row_offset canvas_y;
           PyFloat.math_sqrt (dx + dy)%float) = Ok 0%float).
  rewrite (fmap_seqZ_pointwise _ _ 801 canvas_x column_offsets) by lia.
  rewrite (fmap_seqZ_pointwise _ _ 601 canvas_y row_offsets) by lia.
  vm_compute. reflexivity.
Qed.

(** X24.  In a session a left click on a pixel of the canvas, repeated at
    the same pixel, does what the first click did and no more: the second
    click selects the node that the first click selected or placed, and
    never places a second customer on top of it.  (In binary64 arithmetic
    the canvas position of a customer placed at a pixel is that pixel.) *)
Theorem second_click_selects str_strip int_of_str str_of_int a canvas_x canvas_y :
  reachable str_strip int_of_str str_of_int a ->
  0 <= canvas_x <= 800 -> 0 <= canvas_y <= 600 ->
  on_canvas_click canvas_x canvas_y (on_canvas_click canvas_x canvas_y a).1
  = on_canvas_click canvas_x canvas_y a.
Proof.
  intros Hr Hx Hy.
  pose proof (canvas_of_reachable _ _ _ _ Hr) as Hcanvas.
  destruct (find_clicked a (nodes a) 0 canvas_x canvas_y) as [[i|]| |] eqn:Hfind.
  - assert (Hfirst : on_canvas_click canvas_x canvas_y a
                     = (select_node (Some i) a, []))
      by (unfold on_canvas_click; by rewrite Hfind).
    rewrite Hfirst. cbn [fst]. unfold on_canvas_click.
    cbn [nodes select_node with_selected_node].
    rewrite (find_clicked_canvas a) by reflexivity. by rewrite Hfind.
  - assert (Hfirst : on_canvas_click canvas_x canvas_y a
                     = (select_node (Some (length (nodes a)))
                          (with_id_counter (id_counter a + 1)
                             (with_nodes (nodes a ++ [placed_at a canvas_x canvas_y])
                                         a)), []))
      by (unfold on_canvas_click; by rewrite Hfind).
    rewrite Hfirst. cbn [fst]. unfold on_canvas_click.
    cbn [nodes select_node with_selected_node with_id_counter with_nodes].
    rewrite (find_clicked_canvas a) by reflexivity.
    rewrite find_clicked_app by exact Hfind.
    cbn -[click_distance placed_at].
    rewrite click_distance_placed by assumption. reflexivity.
  - unfold on_canvas_click. rewrite Hfind. cbn [fst]. by rewrite Hfind.
  - unfold on_canvas_click. rewrite Hfind. cbn [fst]. by rewrite Hfind.
Qed.

Lemma second_click_selects_witness :
  on_canvas_click 441 300 two_customers
  = on_canvas_click 441 300 (on_canvas_click 500 300 init).1.
Proof.
  apply (second_click_selects (fun s => s) parse_decimal (fun _ => ""%string)
           (on_canvas_click 500 300 init).1 441 300).
  - eapply reachable_edit; [apply reachable_init|apply edit_canvas_click].
  - lia.
  - lia.
Defined.

(** ** The round trip on pixels, in float arithmetic *)

Lemma column_round_trips : column_round_trip <$> seqZ 0 801 = PyFloat.of_int <$> seqZ 0 801.
Proof. vm_compute. reflexivity. Qed.

Lemma row_round_trips : row_round_trip <$> seqZ 0 601 = PyFloat.of_int <$> seqZ 0 601.
Proof. vm_compute. reflexivity. Qed.

(** X25.  In a session, mapping a pixel of the canvas to problem
    coordinates and back gives the pixel again, exactly, in the float
    arithmetic the application computes with. *)
Theorem pixel_round_trip_exact str_strip int_of_str str_of_int a canvas_x canvas_y :
  reachable str_strip int_of_str str_of_int a ->
  0 <= canvas_x <= 800 -> 0 <= canvas_y <= 600 ->
  let position :=
    canvas_to_vrp_coords a (PyFloat.of_int canvas_x) (PyFloat.of_int canvas_y) in
  vrp_to_canvas_coords a position.1 position.2
  = (PyFloat.of_int canvas_x, PyFloat.of_int canvas_y).
Proof.
  intros Hr Hx Hy. cbn zeta.
  pose proof (canvas_of_reachable _ _ _ _ Hr) as Hcanvas.
  unfold canvas_of in Hcanvas. injection Hcanvas as Hw Hh Hs.
  unfold vrp_to_canvas_coords, canvas_to_vrp_coords. cbn [fst snd].
  rewrite Hw, Hh, Hs.
  change ((column_round_trip canvas_x, row_round_trip canvas_y)
          = (PyFloat.of_int canvas_x, PyFloat.of_int canvas_y)).
  rewrite (fmap_seqZ_pointwise _ _ 801 canvas_x column_round_trips) by lia.
  rewrite (fmap_seqZ_pointwise _ _ 601 canvas_y row_round_trips) by lia.
  reflexivity.
Qed.

Lemma pixel_round_trip_exact_witness :
  vrp_to_canvas_coords two_customers
    (canvas_to_vrp_coords two_customers (PyFloat.of_int 441) (PyFloat.of_int 300)).1
    (canvas_to_vrp_coords two_customers (PyFloat.of_int 441) (PyFloat.of_int 300)).2
  = (PyFloat.of_int 441, PyFloat.of_int 300).
Proof.
  apply (pixel_round_trip_exact (fun s => s) parse_decimal (fun _ => ""%string)
           two_customers 441 300).
  - unfold two_customers.
    eapply reachable_edit; [eapply reachable_edit; [apply reachable_init|]|];
      apply edit_canvas_click.
  - lia.
  - lia.
Defined.

(** ** Drawing routes *)

Lemma node_by_id_unique (ns : list VRPNode.t) (node : VRPNode.t) :
  NoDup (VRPNode.id <$> ns) -> node ∈ ns ->
  head (filter (fun n => VRPNode.id n = VRPNode.id node) ns) = Some node.
Proof.
  induction ns as [|n ns IH]; intros Hnodup Hin; [by apply elem_of_nil in Hin|].
  rewrite fmap_cons in Hnodup. apply NoDup_cons in Hnodup as [Hn Hnodup].
  rewrite filter_cons. apply elem_of_cons in Hin as [->|Hin].
  - by rewrite decide_True.
  - rewrite decide_False; [by apply IH|].
    intros Heq. apply Hn. rewrite Heq. apply list_elem_of_fmap. by exists node.
Qed.

(** X26.  [draw_routes] finds the nodes of a route by id and takes the
    first node that has the id.  In a session a leg between two customers
    with ids other than 0 is drawn between exactly these customers; the id 0
    always leads to the depot, also where it stands for the customer that
    shares the depot's id; a leg with an id that no node has (a customer
    removed after the solve) is not drawn. *)
Theorem draw_leg_resolves_ids str_strip int_of_str str_of_int a :
  reachable str_strip int_of_str str_of_int a ->
  (∀ from_node to_node,
     from_node ∈ nodes a -> to_node ∈ nodes a ->
     VRPNode.id from_node ≠ 0 -> VRPNode.id to_node ≠ 0 ->
     draw_leg a (VRPNode.id from_node) (VRPNode.id to_node)
     = Some (vrp_to_canvas_coords a (VRPNode.x from_node) (VRPNode.y from_node),
             vrp_to_canvas_coords a (VRPNode.x to_node) (VRPNode.y to_node)))
  ∧ (∃ depot_node,
       head (nodes a) = Some depot_node
       ∧ VRPNode.is_depot depot_node = true
       ∧ node_by_id a 0 = Some depot_node)
  ∧ (∀ from_id to_id,
       from_id ∉ VRPNode.id <$> nodes a ∨ to_id ∉ VRPNode.id <$> nodes a ->
       draw_leg a from_id to_id = None).
Proof.
  intros Hr.
  destruct (reachable_invariant _ _ _ _ Hr)
    as [(depot_node & customers & Hnodes & Hdepot & Hid & Hcustomers)
        (_ & Hnodup & _)].
  rewrite Hnodes in Hnodup. cbn in Hnodup.
  assert (Hcustomer : ∀ node, node ∈ nodes a -> VRPNode.id node ≠ 0 ->
                              node_by_id a (VRPNode.id node) = Some node).
  { intros node Hin Hne. unfold node_by_id. rewrite Hnodes in Hin |- *.
    apply elem_of_cons in Hin as [->|Hin]; [congruence|].
    rewrite filter_cons, decide_False by congruence.
    by apply node_by_id_unique. }
  assert (Hmissing : ∀ node_id, node_id ∉ VRPNode.id <$> nodes a ->
                                node_by_id a node_id = None).
  { intros node_id Hnone. unfold node_by_id.
    destruct (filter _ (nodes a)) as [|node l] eqn:Hfilter; [done|].
    assert (Hin : node ∈ filter (fun n => VRPNode.id n = node_id) (nodes a))
      by (rewrite Hfilter; left).
    apply list_elem_of_filter in Hin as [Heq Hin]. destruct Hnone.
    apply list_elem_of_fmap. by exists node. }
  split; [|split].
  - intros from_node to_node Hfrom Hto Hfrom_id Hto_id. unfold draw_leg.
    by rewrite (Hcustomer from_node Hfrom Hfrom_id), (Hcustomer to_node Hto Hto_id).
  - exists depot_node. rewrite Hnodes. split; [done|]. split; [done|].
    unfold node_by_id. rewrite Hnodes. by rewrite filter_cons, decide_True.
  - intros from_id to_id [Hnone|Hnone]; unfold draw_leg.
    + by rewrite (Hmissing from_id Hnone).
    + rewrite (Hmissing to_id Hnone). by destruct (node_by_id a from_id).
Qed.

Lemma draw_leg_resolves_ids_witness :
  ∃ depot_node,
    head (nodes two_customers) = Some depot_node
    ∧ VRPNode.is_depot depot_node = true
    ∧ node_by_id two_customers 0 = Some depot_node.
Proof.
  destruct (draw_leg_resolves_ids (fun s => s) parse_decimal (fun _ => ""%string)
              two_customers) as (_ & Hdepot & _).
  - unfold two_customers.
    eapply reachable_edit; [eapply reachable_edit; [apply reachable_init|]|];
      apply edit_canvas_click.
  - exact Hdepot.
Defined.

(** X27.  [draw_routes] draws at most one line for each pair of
    consecutive entries of a route, and every line runs between the canvas
    positions of two nodes of the scenario whose ids are consecutive entries
    of a route on display. *)
Theorem draw_routes_lines a i line :
  (i, line) ∈ draw_routes a ->
  ∃ route from_node to_node,
    routes a !! i = Some route
    ∧ (VRPNode.id from_node, VRPNode.id to_node) ∈ legs route
    ∧ from_node ∈ nodes a ∧ to_node ∈ nodes a
    ∧ line = (vrp_to_canvas_coords a (VRPNode.x from_node) (VRPNode.y from_node),
              vrp_to_canvas_coords a (VRPNode.x to_node) (VRPNode.y to_node)).
Proof.
  unfold draw_routes. intros Hin.
  apply list_elem_of_bind in Hin as ([k route] & Hline & Hroute).
  apply elem_of_enumerate in Hroute.
  apply list_elem_of_omap in Hline as ([from_id to_id] & Hleg & Hdraw).
  unfold draw_leg, node_by_id in Hdraw.
  destruct (filter (fun n => VRPNode.id n = from_id) (nodes a))
    as [|from_node l] eqn:Hfrom; [discriminate Hdraw|].
  destruct (filter (fun n => VRPNode.id n = to_id) (nodes a))
    as [|to_node l'] eqn:Hto; [discriminate Hdraw|].
  cbn in Hdraw. injection Hdraw as <- <-.
  assert (Hf : from_node ∈ filter (fun n => VRPNode.id n = from_id) (nodes a))
    by (rewrite Hfrom; left).
  assert (Ht : to_node ∈ filter (fun n => VRPNode.id n = to_id) (nodes a))
    by (rewrite Hto; left).
  apply list_elem_of_filter in Hf as [<- Hf].
  apply list_elem_of_filter in Ht as [<- Ht].
  by exists route, from_node, to_node.
Qed.

Lemma draw_routes_lines_witness :
  ∃ route from_node to_node,
    routes (with_routes [[0; 1; 0]] two_customers) !! 0%nat = Some route
    ∧ (VRPNode.id from_node, VRPNode.id to_node) ∈ legs route
    ∧ from_node ∈ nodes (with_routes [[0; 1; 0]] two_customers)
    ∧ to_node ∈ nodes (with_routes [[0; 1; 0]] two_customers)
    ∧ (PyFloat.of_int 400, PyFloat.of_int 300, (PyFloat.of_int 441, PyFloat.of_int 300))
      = (vrp_to_canvas_coords (with_routes [[0; 1; 0]] two_customers)
           (VRPNode.x from_node) (VRPNode.y from_node),
         vrp_to_canvas_coords (with_routes [[0; 1; 0]] two_customers)
           (VRPNode.x to_node) (VRPNode.y to_node)).
Proof.
  apply (draw_routes_lines (with_routes [[0; 1; 0]] two_customers) 0%nat
           (PyFloat.of_int 400, PyFloat.of_int 300,
            (PyFloat.of_int 441, PyFloat.of_int 300))).
  assert (Hlines :
    draw_routes (with_routes [[0; 1; 0]] two_customers)
    = [(0%nat, (PyFloat.of_int 400, PyFloat.of_int 300,
                (PyFloat.of_int 441, PyFloat.of_int 300)));
       (0%nat, (PyFloat.of_int 441, PyFloat.of_int 300,
                (PyFloat.of_int 400, PyFloat.of_int 300)))])
    by (vm_compute; reflexivity).
  apply (eq_ind_r (fun lines => _ ∈ lines) (list_elem_of_here _ _) Hlines).
Defined.

(** ** Time windows *)

(** X28.  "Clear" undoes "Set": setting a valid time window on a selected
    node that has none and clearing it again gives back the scenario as it
    was.  Clearing touches the selected node only. *)
Theorem clear_time_window_undoes_set str_strip int_of_str a i node
    start_entry end_entry w :
  int_of_str ""%string = None ->
  selected_node a = Some i ->
  nodes a !! i = Some node ->
  VRPNode.time_window node = None ->
  valid_time_window str_strip int_of_str start_entry end_entry w ->
  let windowed :=
    (on_set_time_window str_strip int_of_str start_entry end_entry a).1 in
  VRPNode.time_window <$> nodes windowed !! i = Some (Some w)
  ∧ (∀ j, j ≠ i -> nodes (on_clear_time_window windowed) !! j = nodes a !! j)
  ∧ on_clear_time_window windowed = a.
Proof.
  intros Hempty Hsel Hi Hnone Hw. cbn zeta.
  rewrite (on_set_time_window_valid str_strip int_of_str Hempty a i _ _ w Hsel Hw).
  cbn [fst]. unfold on_clear_time_window, update_selected. cbn. rewrite Hsel.
  assert (Hid : alter VRPNode.clear_time_window i
                  (alter (VRPNode.with_time_window (Some w)) i (nodes a))
                = nodes a).
  { apply list_eq. intros j. destruct (decide (j = i)) as [->|Hne].
    - rewrite !list_lookup_alter_eq, Hi. cbn. f_equal.
      unfold VRPNode.clear_time_window, VRPNode.with_time_window. cbn.
      rewrite <- Hnone. by destruct node.
    - by rewrite !list_lookup_alter_ne. }
  split; [|split].
  - by rewrite list_lookup_alter_eq, Hi.
  - intros j Hne. cbn. by rewrite Hid.
  - rewrite Hid. by destruct a.
Qed.

Lemma clear_time_window_undoes_set_witness :
  on_clear_time_window two_customers_windowed = two_customers.
Proof.
  apply (clear_time_window_undoes_set (fun s => s) parse_decimal two_customers
           2%nat (second_customer ∅) "10" "50" (10, 50)).
  - reflexivity.
  - vm_compute. reflexivity.
  - vm_compute. reflexivity.
  - reflexivity.
  - unfold valid_time_window. cbn [fst snd].
    split; [vm_compute; reflexivity|]. split; [vm_compute; reflexivity|]. lia.
Defined.
